(** * wadash: session lifecycle and conversation store of [server.js]

    A shallow embedding of the session registry, the per-socket conversation
    store, the Protocol Client event handlers and the Socket.IO commands of
    [src/server.js] (the current server, lines 468-1239) and of its HTTP
    endpoints, together with the [messages.upsert] and [getChatMessages]
    handlers of the older [src/backup4_server.js].

    Conventions.
    - A JS value that may be [undefined] is an [option]; truthiness is written
      out ([truthy_str], [truthy_num]).
    - [sock.store.chats] is a JS [Map]: an association list in insertion
      order ([Map_set] replaces in place or appends).  [sock.store.contacts],
      [sock.store.messages], [clients] and [sessionStatus] are plain objects
      used as dictionaries: a [gmap string _] holds their own properties.
      A lookup with a caller-chosen key that is no own property falls
      through to [Object.prototype] when the key is one of its member names
      ([Js.prototype_key]); [generateQR], [POST /logout] and the message
      lookup of [getChatMessages] model that case, the other lookups read
      own properties only.  A write [obj[key] = v] is the write of an own
      property, which is what JavaScript does for every key but
      ['__proto__'].
    - Socket objects live in a heap ([socks]); [clients] maps a session id
      to the index of its socket, so that handlers closed over a socket that
      has left the registry still act on their own socket.
    - A session folder is [path.join(sessionsDir, sessionId)]; [Path.folder_key]
      follows that join inside the sessions directory, so that two ids that
      name one directory share it and the empty id names the sessions
      directory itself.
    - What the Protocol Client, the Auth State Provider and the file system
      answer is an explicit argument of each handler.
    - A handler function of this file is the handler run with nothing else
      in between.  Where a handler awaits the outside world, the part that
      runs after the [await] is a function of its own
      ([Session.createWhatsAppClient], [Gateway.store_fetched],
      [Gateway.getChatMessages_fetched]), stated on the world it then finds;
      [Session.reconnectCallback_sync] is the part of the timer callback
      that runs before. *)

From Stdlib Require Import ZArith Ascii String.
From Stdlib Require OrdersEx.
From stdpp Require Import gmap strings list fin_maps sorting.

(** ** JavaScript primitives used by the server *)

Module Js.

(** [!!s] for a possibly undefined string. *)
Definition truthy_str (s : option string) : bool :=
  match s with
  | Some s' => negb (String.eqb s' "")
  | None => false
  end.

(** [!!n] for a possibly undefined number. *)
Definition truthy_num (n : option Z) : bool :=
  match n with
  | Some z => negb (z =? 0)%Z
  | None => false
  end.

(** [a || b] on strings. *)
Definition or_str (a : option string) (b : string) : string :=
  match a with
  | Some s => if String.eqb s "" then b else s
  | None => b
  end.

(** [a || b] where both sides may be undefined. *)
Definition or_opt (a b : option string) : option string :=
  if truthy_str a then a else b.

(** [n || 0]. *)
Definition or_zero (n : option Z) : Z := default 0%Z n.

(** [s.endsWith(suffix)]. *)
Definition endsWith (s suffix : string) : bool :=
  let n := String.length s in
  let k := String.length suffix in
  (k <=? n) && String.eqb (String.substring (n - k) k s) suffix.

(** [s.split('@')[0]]: the part of [s] before its first ['@']. *)
Fixpoint split_at_0 (s : string) : string :=
  match s with
  | EmptyString => EmptyString
  | String c r => if Ascii.eqb c "@"%char then EmptyString else String c (split_at_0 r)
  end.

(** [a.localeCompare(b)], by code points; the collation of the default
    locale agrees with it on strings of digits and colons. *)
Definition localeCompare (a b : string) : Z :=
  match String.compare a b with
  | Lt => (-1)%Z
  | Eq => 0%Z
  | Gt => 1%Z
  end.

(** [Array.prototype.sort(cmp)]: a stable insertion sort.  A new element
    goes in front of the first element it is strictly smaller than. *)
Fixpoint sort_insert {A} (cmp : A → A → Z) (x : A) (l : list A) : list A :=
  match l with
  | [] => [x]
  | y :: l' => if (cmp x y <? 0)%Z then x :: y :: l' else y :: sort_insert cmp x l'
  end.

Definition sort {A} (cmp : A → A → Z) (l : list A) : list A :=
  fold_left (λ acc x, sort_insert cmp x acc) l [].

(** A JS [Map] keyed by strings, in insertion order. *)
Definition Map (V : Type) : Type := list (string * V).

Fixpoint Map_get {V} (m : Map V) (k : string) : option V :=
  match m with
  | [] => None
  | (k', v) :: m' => if String.eqb k' k then Some v else Map_get m' k
  end.

Definition Map_has {V} (m : Map V) (k : string) : bool :=
  match Map_get m k with Some _ => true | None => false end.

Fixpoint Map_set {V} (m : Map V) (k : string) (v : V) : Map V :=
  match m with
  | [] => [(k, v)]
  | (k', v') :: m' =>
      if String.eqb k' k then (k, v) :: m' else (k', v') :: Map_set m' k v
  end.

Definition Map_values {V} (m : Map V) : list V := map snd m.

(** The member names of [Object.prototype]: for these keys [obj[key]] on a
    plain object without such an own property is the inherited member, a
    function or, for ['__proto__'], the prototype itself; all are truthy. *)
Definition prototype_key (key : string) : bool :=
  existsb (String.eqb key)
    ["constructor"; "hasOwnProperty"; "isPrototypeOf"; "propertyIsEnumerable";
     "toLocaleString"; "toString"; "valueOf"; "__proto__";
     "__defineGetter__"; "__defineSetter__"; "__lookupGetter__";
     "__lookupSetter__"].

End Js.

(** ** Paths below the sessions directory *)

Module Path.

(** [s.split('/')], with [cur] the segment read so far. *)
Fixpoint segments (s : string) (cur : string) : list string :=
  match s with
  | EmptyString => [cur]
  | String c r =>
      if Ascii.eqb c "/"%char then cur :: segments r ""
      else segments r (cur ++ String c EmptyString)
  end.

(** The normalisation done by [path.join] on POSIX paths: empty and ['.']
    segments are dropped and ['..'] goes one level up.  [stack] is the path
    walked so far below the server's directory [__dirname], innermost name
    first; [None] when the path climbs above the server's directory, whose
    own name is not in the code. *)
Fixpoint walk (segs : list string) (stack : list string) : option (list string) :=
  match segs with
  | [] => Some stack
  | seg :: rest =>
      if String.eqb seg "" || String.eqb seg "." then walk rest stack
      else if String.eqb seg ".." then
        match stack with
        | [] => None
        | _ :: up => walk rest up
        end
      else walk rest (seg :: stack)
  end.

(** Where [path.join(sessionsDir, sessionId)] points, with
    [sessionsDir = path.join(__dirname, 'sessions')] ([server.js] 494):
    [Some ""] is the sessions directory itself, [Some name] the folder
    [name] directly below it, [None] anything else (a path outside the
    sessions directory or below a session folder), which this model of the
    file system does not hold. *)
Definition folder_key (sessionId : string) : option string :=
  match walk (segments sessionId "") ["sessions"] with
  | Some stack =>
      match rev stack with
      | top :: below =>
          if String.eqb top "sessions" then
            match below with
            | [] => Some ""
            | [name] => Some name
            | _ => None
            end
          else None
      | [] => None
      end
  | None => None
  end.

End Path.

(** ** Data carried by the Protocol Client's events *)

Record MessageContent := {
  conversation : option string;          (* message.conversation *)
  extendedText : option string           (* message.extendedTextMessage?.text *)
}.

Record WAMessage := {
  key_id : string;                       (* msg.key.id *)
  key_remoteJid : string;                (* msg.key.remoteJid *)
  key_fromMe : bool;                     (* msg.key.fromMe *)
  messageTimestamp : option Z;           (* msg.messageTimestamp *)
  message : option MessageContent        (* msg.message *)
}.

Record Chat := {
  chat_id : string;                      (* chat.id *)
  chat_name : option string;             (* chat.name *)
  chat_subject : option string;          (* chat.subject *)
  conversationTimestamp : option Z;      (* chat.conversationTimestamp *)
  unreadCount : option Z                 (* chat.unreadCount *)
}.

Record Contact := {
  contact_id : string;                   (* contact.id *)
  contact_name : option string;          (* contact.name *)
  contact_notify : option string         (* contact.notify *)
}.

Record MessageUpdate := {
  upd_remoteJid : string;                (* update.key.remoteJid *)
  upd_status : option string             (* update.update.status *)
}.

(** [sock.store]. *)
Record Store := {
  chats : Js.Map Chat;
  contacts : gmap string Contact;
  messages : gmap string (list WAMessage)
}.

Definition status_broadcast : string := "status@broadcast".

(** ** Conversation store: the bodies of the event handlers *)

Module ConversationStore.

(** [sock.store = { chats: new Map(), contacts: {}, messages: {} }]. *)
Definition empty : Store :=
  {| chats := []; contacts := ∅; messages := ∅ |}.

Definition with_chats (st : Store) (c : Js.Map Chat) : Store :=
  {| chats := c; contacts := contacts st; messages := messages st |}.

Definition with_contacts (st : Store) (c : gmap string Contact) : Store :=
  {| chats := chats st; contacts := c; messages := messages st |}.

Definition with_messages (st : Store) (m : gmap string (list WAMessage)) : Store :=
  {| chats := chats st; contacts := contacts st; messages := m |}.

(** [sock.store.messages[jid].all()], the empty array when the entry is
    missing. *)
Definition all (st : Store) (jid : string) : list WAMessage :=
  default [] (messages st !! jid).

(** [if (!sock.store.messages[jid]) sock.store.messages[jid] = {messages: []}]. *)
Definition init_messages (jid : string) (st : Store) : Store :=
  match messages st !! jid with
  | Some _ => st
  | None => with_messages st (<[jid := []]> (messages st))
  end.

(** [messages.some(existingMsg => existingMsg.key.id === msg.key.id)]. *)
Definition exists_id (id : string) (l : list WAMessage) : bool :=
  existsb (λ existingMsg, String.eqb (key_id existingMsg) id) l.

(** The chat record after a message was appended ([server.js] 663-675). *)
Definition touch_chat (msg : WAMessage) (c : Js.Map Chat) : Js.Map Chat :=
  let jid := key_remoteJid msg in
  match Js.Map_get c jid with
  | None =>
      Js.Map_set c jid
        {| chat_id := jid; chat_name := None; chat_subject := None;
           conversationTimestamp := messageTimestamp msg;
           unreadCount := Some (if key_fromMe msg then 0 else 1)%Z |}
  | Some chat =>
      Js.Map_set c jid
        {| chat_id := chat_id chat; chat_name := chat_name chat;
           chat_subject := chat_subject chat;
           conversationTimestamp := messageTimestamp msg;
           unreadCount :=
             if key_fromMe msg then unreadCount chat
             else Some (Js.or_zero (unreadCount chat) + 1)%Z |}
  end.

(** One iteration of the loop of the [messages.upsert] handler
    ([server.js] 637-677). *)
Definition ingestMessage (msg : WAMessage) (st : Store) : Store :=
  let jid := key_remoteJid msg in
  if String.eqb jid status_broadcast then st
  else
    let st1 := init_messages jid st in
    if exists_id (key_id msg) (all st1 jid) then st1
    else
      let st2 := with_messages st1 (<[jid := all st1 jid ++ [msg]]> (messages st1)) in
      with_chats st2 (touch_chat msg (chats st2)).

Definition ingestAll (msgs : list WAMessage) (st : Store) : Store :=
  fold_left (λ acc msg, ingestMessage msg acc) msgs st.

(** The same iteration in [backup4_server.js] (163-186): no broadcast
    skip, no duplicate check, and every message counts as unread. *)
Definition ingestMessage_backup4 (msg : WAMessage) (st : Store) : Store :=
  let jid := key_remoteJid msg in
  let st1 := init_messages jid st in
  let st2 := with_messages st1 (<[jid := all st1 jid ++ [msg]]> (messages st1)) in
  with_chats st2
    (match Js.Map_get (chats st2) jid with
     | None =>
         Js.Map_set (chats st2) jid
           {| chat_id := jid; chat_name := None; chat_subject := None;
              conversationTimestamp := messageTimestamp msg;
              unreadCount := Some 1%Z |}
     | Some chat =>
         Js.Map_set (chats st2) jid
           {| chat_id := chat_id chat; chat_name := chat_name chat;
              chat_subject := chat_subject chat;
              conversationTimestamp := messageTimestamp msg;
              unreadCount := Some (Js.or_zero (unreadCount chat) + 1)%Z |}
     end).

(** [chats.set] and [chats.upsert]: [sock.store.chats.set(chat.id, chat)]. *)
Definition upsertChat (chat : Chat) (st : Store) : Store :=
  with_chats st (Js.Map_set (chats st) (chat_id chat) chat).

Definition upsertChats (l : list Chat) (st : Store) : Store :=
  fold_left (λ acc chat, upsertChat chat acc) l st.

(** [Object.assign(target, contact)]: the fields present in the update
    overwrite those of the target. *)
Definition assign (target update : Contact) : Contact :=
  {| contact_id := contact_id update;
     contact_name :=
       match contact_name update with Some n => Some n | None => contact_name target end;
     contact_notify :=
       match contact_notify update with Some n => Some n | None => contact_notify target end |}.

(** One iteration of the [contacts.update] handler. *)
Definition mergeContact (contact : Contact) (st : Store) : Store :=
  let target :=
    match contacts st !! contact_id contact with
    | Some c => c
    | None => {| contact_id := contact_id contact; contact_name := None; contact_notify := None |}
    end in
  with_contacts st (<[contact_id contact := assign target contact]> (contacts st)).

Definition mergeContacts (l : list Contact) (st : Store) : Store :=
  fold_left (λ acc c, mergeContact c acc) l st.

(** [if (chats.has(jid)) chats.get(jid).unreadCount = 0]. *)
Definition markRead (jid : string) (st : Store) : Store :=
  match Js.Map_get (chats st) jid with
  | Some chat =>
      with_chats st
        (Js.Map_set (chats st) jid
           {| chat_id := chat_id chat; chat_name := chat_name chat;
              chat_subject := chat_subject chat;
              conversationTimestamp := conversationTimestamp chat;
              unreadCount := Some 0%Z |})
  | None => st
  end.

(** The unread count a caller sees: [chat.unreadCount || 0]. *)
Definition unread (st : Store) (jid : string) : option Z :=
  (λ chat, Js.or_zero (unreadCount chat)) <$> Js.Map_get (chats st) jid.

End ConversationStore.

(** ** Sessions: registry, status table, sockets, timers, session folders *)

(** The values stored in [sessionStatus]: ['connecting'], ['qr_generated'],
    ['connected'], ['reconnecting'], ['logged_out'], ['logging_out'],
    ['error']. *)
Inductive Status :=
  | Connecting
  | QrGenerated
  | Connected
  | Reconnecting
  | LoggedOut
  | LoggingOut
  | Error.

Global Instance Status_eq_dec : EqDecision Status.
Proof. solve_decision. Defined.

(** A socket made by [makeWASocket], with the [sessionId] its handlers are
    closed over and its [sock.store]. *)
Record Sock := {
  sock_session : string;
  store : Store
}.

(** What [socket.emit] sends to the subscriber. *)
Inductive Emit :=
  | qrCode (sessionId qr : string)
  | ready (sessionId : string)
  | disconnected (sessionId reason : string)       (* reconnecting: true *)
  | loggedOut (sessionId : string)
  | error (sessionId msg : string)
  | newMessage (sessionId : string) (msgs : list WAMessage)
  | chatUpdate (sessionId jid : string)            (* unread: 0 *)
  | logoutSuccess (sessionId : string)
  | logoutError (sessionId msg : string).

(** A pending [setTimeout] of the reconnect callback. *)
Record Timer := {
  timer_session : string;
  timer_delay : Z
}.

Record World := {
  clients : gmap string nat;               (* clients[sessionId], an index into socks *)
  sessionStatus : gmap string Status;
  socks : list Sock;                       (* every socket constructed so far *)
  timers : list Timer;                     (* pending timers, oldest first *)
  sessionsDir : gmap string (list string); (* session folder -> its files; under
                                              "" the files of the sessions
                                              directory itself *)
  emitted : list Emit                      (* oldest first *)
}.

(** What an external call did. *)
Inductive Outcome :=
  | Returns
  | Throws (msg : string).

(** What happened inside the [try] of [createWhatsAppClient]. *)
Inductive CreateOutcome :=
  | AuthStateThrows (msg : string)         (* useMultiFileAuthState rejected *)
  | MakeSocketThrows (msg : string)        (* makeWASocket threw *)
  | SocketMade.

Inductive Connection := conn_open | conn_close | conn_connecting.

(** The fields of a [connection.update] event the handler reads. *)
Record ConnectionUpdate := {
  connection : option Connection;
  statusCode : option Z;                   (* lastDisconnect?.error?.output?.statusCode *)
  disconnectMessage : option string;       (* lastDisconnect?.error?.message *)
  qr : option string
}.

(** [DisconnectReason.loggedOut] of the Protocol Client library. *)
Definition DisconnectReason_loggedOut : Z := 401.

Definition reconnect_delay : Z := 5000.

Module Session.

Definition set_clients (c : gmap string nat) (w : World) : World :=
  {| clients := c; sessionStatus := sessionStatus w; socks := socks w;
     timers := timers w; sessionsDir := sessionsDir w; emitted := emitted w |}.

Definition set_status (sessionId : string) (s : Status) (w : World) : World :=
  {| clients := clients w; sessionStatus := <[sessionId := s]> (sessionStatus w);
     socks := socks w; timers := timers w; sessionsDir := sessionsDir w;
     emitted := emitted w |}.

Definition set_socks (l : list Sock) (w : World) : World :=
  {| clients := clients w; sessionStatus := sessionStatus w; socks := l;
     timers := timers w; sessionsDir := sessionsDir w; emitted := emitted w |}.

Definition set_timers (l : list Timer) (w : World) : World :=
  {| clients := clients w; sessionStatus := sessionStatus w; socks := socks w;
     timers := l; sessionsDir := sessionsDir w; emitted := emitted w |}.

Definition set_sessionsDir (d : gmap string (list string)) (w : World) : World :=
  {| clients := clients w; sessionStatus := sessionStatus w; socks := socks w;
     timers := timers w; sessionsDir := d; emitted := emitted w |}.

(** [socket.emit(...)]. *)
Definition emit (e : Emit) (w : World) : World :=
  {| clients := clients w; sessionStatus := sessionStatus w; socks := socks w;
     timers := timers w; sessionsDir := sessionsDir w;
     emitted := emitted w ++ [e] |}.

(** [delete clients[sessionId]]. *)
Definition delete_client (sessionId : string) (w : World) : World :=
  set_clients (delete sessionId (clients w)) w.

(** Run a store operation on the store of socket [k]. *)
Definition on_store (k : nat) (f : Store → Store) (w : World) : World :=
  match socks w !! k with
  | Some s =>
      set_socks (<[k := {| sock_session := sock_session s; store := f (store s) |}]> (socks w)) w
  | None => w
  end.

(** [const sock = clients[sessionId]], with its store. *)
Definition client_store (w : World) (sessionId : string) : option (nat * Store) :=
  match clients w !! sessionId with
  | Some k =>
      match socks w !! k with
      | Some s => Some (k, store s)
      | None => None
      end
  | None => None
  end.

(** The number of Protocol Clients constructed so far. *)
Definition constructed (w : World) : nat := length (socks w).

(** [fs.readdirSync(dir).length > 0] for the directory with key [key]:
    the sessions directory (key [""]) lists its own files and one entry
    for each session folder. *)
Definition has_entries (key : string) (d : gmap string (list string)) : bool :=
  if String.eqb key ""
  then (0 <? length (default [] (d !! "")) + size (delete "" d))
  else
    match d !! key with
    | Some files => (0 <? length files)
    | None => false
    end.

(** [sessionExists(sessionId)] ([server.js] 503-506):
    [fs.existsSync(folder) && fs.readdirSync(folder).length > 0] with
    [folder = path.join(sessionsDir, sessionId)].  On the path of a file
    [readdirSync] throws; here the answer is [false]. *)
Definition sessionExists (sessionId : string) (w : World) : bool :=
  match Path.folder_key sessionId with
  | Some key => has_entries key (sessionsDir w)
  | None => false
  end.

(** The Auth State Provider makes sure the session folder exists. *)
Definition ensure_folder (sessionId : string) (w : World) : World :=
  match Path.folder_key sessionId with
  | Some key =>
      match sessionsDir w !! key with
      | Some _ => w
      | None => set_sessionsDir (<[key := []]> (sessionsDir w)) w
      end
  | None => w
  end.

(** Writing file [f] into the session folder; without the folder the
    write throws and nothing is written. *)
Definition write_file (sessionId f : string) (w : World) : World :=
  match Path.folder_key sessionId with
  | Some key =>
      match sessionsDir w !! key with
      | Some files =>
          if existsb (String.eqb f) files then w
          else set_sessionsDir (<[key := files ++ [f]]> (sessionsDir w)) w
      | None => w
      end
  | None => w
  end.

(** [if (fs.existsSync(folder)) fs.rmSync(folder, { recursive: true,
    force: true })] ([server.js] 1089-1092, 1194-1197), when [rmSync]
    returns: a session folder goes with its files, the sessions directory
    with every session folder in it, and a file of the sessions directory
    goes when the path is that of such a file. *)
Definition remove_folder (sessionId : string) (w : World) : World :=
  match Path.folder_key sessionId with
  | Some key =>
      if String.eqb key "" then set_sessionsDir ∅ w
      else
        set_sessionsDir
          (alter (filter (λ f, f ≠ key)) "" (delete key (sessionsDir w))) w
  | None => w
  end.

(** [createWhatsAppClient(sessionId, socket)] ([server.js] 522-760).  Nothing
    is written before [useMultiFileAuthState] has answered, so this function
    is what runs after that [await], on the world [w] of that moment.  When
    the provider or [makeWASocket] throws, the [catch] sets the status to
    ['error'] and emits [error]; otherwise the new socket, with an empty
    store, is put into [clients] and the status becomes ['connecting'].  The
    handlers registered on the socket are the [on_...] functions below, at
    the socket's index. *)
Definition createWhatsAppClient (sessionId : string) (o : CreateOutcome) (w : World) : World :=
  match o with
  | AuthStateThrows msg =>
      emit (error sessionId msg) (set_status sessionId Error w)
  | MakeSocketThrows msg =>
      emit (error sessionId msg) (set_status sessionId Error (ensure_folder sessionId w))
  | SocketMade =>
      let w1 := ensure_folder sessionId w in
      let k := length (socks w1) in
      let w2 := set_socks (socks w1 ++ [{| sock_session := sessionId;
                                           store := ConversationStore.empty |}]) w1 in
      let w3 := set_clients (<[sessionId := k]> (clients w2)) w2 in
      set_status sessionId Connecting w3
  end.

(** The callback given to [setTimeout] ([server.js] 615-621), up to the
    point where the [createWhatsAppClient] it calls waits for the auth
    state: the world it leaves, and whether a creation was started.  The
    creation is not awaited. *)
Definition reconnectCallback_sync (sessionId : string) (w : World) : World * bool :=
  match sessionStatus w !! sessionId with
  | Some Reconnecting => (delete_client sessionId w, true)
  | _ => (w, false)
  end.

(** The callback together with the creation it starts, when no other
    handler runs before the creation has finished. *)
Definition reconnectCallback (sessionId : string) (o : CreateOutcome) (w : World) : World :=
  match sessionStatus w !! sessionId with
  | Some Reconnecting => createWhatsAppClient sessionId o (delete_client sessionId w)
  | _ => w
  end.

(** The oldest pending timer fires (all timers have the same delay): the
    callback up to the [await], with the session whose creation it
    started. *)
Definition fireTimer_sync (w : World) : World * option string :=
  match timers w with
  | [] => (w, None)
  | t :: rest =>
      let r := reconnectCallback_sync (timer_session t) (set_timers rest w) in
      (fst r, if snd r then Some (timer_session t) else None)
  end.

(** The oldest pending timer fires and the creation it starts finishes
    before anything else runs. *)
Definition fireTimer (o : CreateOutcome) (w : World) : World :=
  match timers w with
  | [] => w
  | t :: rest => reconnectCallback (timer_session t) o (set_timers rest w)
  end.

(** The [connection.update] handler of socket [k] ([server.js] 558-629).
    After ['open'] the handler also calls [sock.fetchChats()], whose failure
    is only logged and whose result arrives as events; [writeFileSync] into
    a missing folder throws and writes nothing. *)
Definition on_connection_update (k : nat) (update : ConnectionUpdate) (w : World) : World :=
  match socks w !! k with
  | None => w
  | Some s =>
      let sessionId := sock_session s in
      let w1 :=
        if Js.truthy_str (qr update)
        then emit (qrCode sessionId (Js.or_str (qr update) ""))
               (set_status sessionId QrGenerated w)
        else w in
      match connection update with
      | Some conn_open =>
          write_file sessionId "connection_info.json"
            (emit (ready sessionId) (set_status sessionId Connected w1))
      | Some conn_close =>
          if negb (bool_decide (statusCode update = Some DisconnectReason_loggedOut))
          then
            let w2 := set_status sessionId Reconnecting w1 in
            let w3 := emit (disconnected sessionId
                              (Js.or_str (disconnectMessage update) "connection closed")) w2 in
            set_timers (timers w3 ++ [{| timer_session := sessionId;
                                         timer_delay := reconnect_delay |}]) w3
          else
            emit (loggedOut sessionId)
              (delete_client sessionId (set_status sessionId LoggedOut w1))
      | _ => w1
      end
  end.

(** The [messages.upsert] handler of socket [k] ([server.js] 632-682). *)
Definition on_messages_upsert (k : nat) (type : string) (msgs : list WAMessage)
    (w : World) : World :=
  match socks w !! k with
  | None => w
  | Some s =>
      if String.eqb type "notify"
      then emit (newMessage (sock_session s) msgs)
             (on_store k (ConversationStore.ingestAll msgs) w)
      else w
  end.

(** The [chats.set] and [chats.upsert] handlers. *)
Definition on_chats_set (k : nat) (l : list Chat) (w : World) : World :=
  on_store k (ConversationStore.upsertChats l) w.

Definition on_chats_upsert (k : nat) (l : list Chat) (w : World) : World :=
  on_store k (ConversationStore.upsertChats l) w.

(** The [contacts.update] handler. *)
Definition on_contacts_update (k : nat) (l : list Contact) (w : World) : World :=
  on_store k (ConversationStore.mergeContacts l) w.

(** One iteration of the [messages.update] handler ([server.js] 721-744). *)
Definition on_message_update (k : nat) (update : MessageUpdate) (w : World) : World :=
  match socks w !! k with
  | None => w
  | Some s =>
      let jid := upd_remoteJid update in
      if String.eqb jid status_broadcast then w
      else if bool_decide (upd_status update = Some "READ")
      then
        if Js.Map_has (chats (store s)) jid
        then emit (chatUpdate (sock_session s) jid)
               (on_store k (ConversationStore.markRead jid) w)
        else w
      else w
  end.

Definition on_messages_update (k : nat) (updates : list MessageUpdate) (w : World) : World :=
  fold_left (λ acc u, on_message_update k u acc) updates w.

(** The [creds.update] handler: the provider's [saveCreds] writes the
    credentials into the session folder. *)
Definition on_creds_update (k : nat) (w : World) : World :=
  match socks w !! k with
  | None => w
  | Some s => write_file (sock_session s) "creds.json" (ensure_folder (sock_session s) w)
  end.

End Session.

(** ** Commands received over Socket.IO *)

(** An entry of the chat list sent back by [getChats]. *)
Record ChatSummary := {
  cs_jid : string;
  cs_name : string;
  cs_lastMessage : string;
  cs_time : string;
  cs_unread : Z
}.

(** An entry of the message list sent back by [getChatMessages]. *)
Record MessageSummary := {
  ms_id : string;
  ms_fromMe : bool;
  ms_text : string;
  ms_time : string;
  ms_timestamp : option Z
}.

(** The object handed to a command's [callback]. *)
Inductive Callback :=
  | cb_success                                   (* { success: true } *)
  | cb_status (s : option Status)                (* { success: true, status } *)
  | cb_error (msg : string)                      (* { error } *)
  | cb_failure (msg : string)                    (* { success: false, error } *)
  | cb_chats (l : list ChatSummary)              (* { success: true, chats } *)
  | cb_messages (l : list MessageSummary).       (* { success: true, messages } *)

(** [formatPhoneNumber(jid)]. *)
Definition formatPhoneNumber (jid : string) : string :=
  if String.eqb jid "" then "" else Js.split_at_0 jid.

(** [msg.message?.conversation || msg.message?.extendedTextMessage?.text
    || 'Media message']. *)
Definition message_text (msg : WAMessage) : string :=
  match message msg with
  | Some m => Js.or_str (Js.or_opt (conversation m) (extendedText m)) "Media message"
  | None => "Media message"
  end.

Module Gateway.

(** [sock.store.messages[jid]] is no own entry of the store but a member
    inherited from [Object.prototype]: it is truthy and has no [all]. *)
Definition inherited_entry (st : Store) (jid : string) : bool :=
  Js.prototype_key jid && bool_decide (messages st !! jid = None).

(** The message of the [TypeError] thrown by [sock.store.messages[jid].all()]
    on an inherited member. *)
Definition all_not_a_function : string := "sock.store.messages[jid].all is not a function".

(** [!sock.store.messages[jid] || sock.store.messages[jid].all().length === 0]
    on the own entries of the store; on an inherited member the test throws
    instead, see [inherited_entry]. *)
Definition no_messages (st : Store) (jid : string) : bool :=
  match messages st !! jid with
  | Some [] => true
  | Some _ => false
  | None => true
  end.

(** [getChatMessages], marking the chat as read ([server.js] 955-966), the
    part after [sock.readMessages] has settled: skipped when it threw. *)
Definition after_read (jid : string) (read : Outcome) (st : Store) : Store :=
  match read with
  | Returns => ConversationStore.markRead jid st
  | Throws _ => st
  end.

(** [getChatMessages], the part after [fetchMessagesFromWA] has returned
    [fetched] ([server.js] 981-990): the history replaces whatever the
    store holds for [jid] at that moment. *)
Definition store_fetched (jid : string) (fetched : list WAMessage) (st : Store) : Store :=
  let st1 := ConversationStore.init_messages jid st in
  ConversationStore.with_messages st1 (<[jid := fetched]> (messages st1)).

(** [getChatMessages], loading the history ([server.js] 971-994), when no
    other handler runs while [fetchMessagesFromWA] is awaited: the history
    is asked for only when the store has no messages for [jid], and nothing
    is stored when the call threw ([fetch = None]).  On an inherited member
    the test throws and nothing is asked for. *)
Definition after_fetch (jid : string) (fetch : option (list WAMessage)) (st : Store) : Store :=
  if inherited_entry st jid then st
  else if no_messages st jid then
    match fetch with
    | Some msgs => store_fetched jid msgs st
    | None => st
    end
  else st.

Section Locale.

(** [new Date(t * 1000).toLocaleTimeString([], { hour: '2-digit',
    minute: '2-digit' })] in the server's locale and time zone. *)
Variable toLocaleTimeString : Z → string.

(** [formatTime(new Date(t * 1000))]; a [Date] object is never falsy. *)
Definition formatTime (t : Z) : string := toLocaleTimeString t.

(** The name chosen inside the [try] of [getChats] ([server.js] 869-884). *)
Definition resolve_name (st : Store) (chat : Chat) : string :=
  if Js.truthy_str (chat_name chat) then Js.or_str (chat_name chat) ""
  else if Js.endsWith (chat_id chat) "@s.whatsapp.net" then
    let contact := contacts st !! chat_id chat in
    Js.or_str
      (Js.or_opt (contact ≫= contact_name) (contact ≫= contact_notify))
      (formatPhoneNumber (chat_id chat))
  else if Js.endsWith (chat_id chat) "@g.us" then
    Js.or_str (chat_subject chat) "Group"
  else "".

(** [lastMessage] and [time] of a chat ([server.js] 887-908). *)
Definition last_message (st : Store) (chat : Chat) : string * string :=
  match messages st !! chat_id chat with
  | Some msgs =>
      match last msgs with
      | Some lastMsg =>
          (message_text lastMsg,
           match messageTimestamp lastMsg with
           | Some t => if Js.truthy_num (Some t) then formatTime t else ""
           | None => ""
           end)
      | None => ("", "")
      end
  | None => ("", "")
  end.

(** The function mapped over the chats ([server.js] 864-917); [None] is
    the [null] returned for the status broadcast. *)
Definition formatChat (st : Store) (chat : Chat) : option ChatSummary :=
  if String.eqb (chat_id chat) status_broadcast then None
  else
    let name := resolve_name st chat in
    let lm := last_message st chat in
    Some {| cs_jid := chat_id chat;
            cs_name := Js.or_str (Some name) (formatPhoneNumber (chat_id chat));
            cs_lastMessage := fst lm;
            cs_time := snd lm;
            cs_unread := Js.or_zero (unreadCount chat) |}.

(** The comparator of the chat list ([server.js] 923-927). *)
Definition compareChats (a b : ChatSummary) : Z :=
  if String.eqb (cs_time a) "" then 1%Z
  else if String.eqb (cs_time b) "" then (-1)%Z
  else Js.localeCompare (cs_time b) (cs_time a).

(** [ConversationStore.listChats]: format, drop the nulls, sort. *)
Definition listChats (st : Store) : list ChatSummary :=
  let formattedChats := map (formatChat st) (Js.Map_values (chats st)) in
  let filteredChats := omap (λ c, c) formattedChats in
  Js.sort compareChats filteredChats.

(** The [getChats] command ([server.js] 832-938).  It writes nothing: the
    [sock.fetchChats()] it tries on an empty chat map is only logged when it
    fails, and its result arrives as events. *)
Definition getChats (sessionId : string) (w : World) : Callback :=
  match Session.client_store w sessionId with
  | None => cb_failure "Client not found"
  | Some (_, st) => cb_chats (listChats st)
  end.

Definition formatMessage (msg : WAMessage) : MessageSummary :=
  {| ms_id := key_id msg;
     ms_fromMe := key_fromMe msg;
     ms_text := message_text msg;
     ms_time :=
       match messageTimestamp msg with
       | Some t => if Js.truthy_num (Some t) then formatTime t else ""
       | None => ""
       end;
     ms_timestamp := messageTimestamp msg |}.

(** The comparator of the message list ([server.js] 1031-1035). *)
Definition compareMessages (a b : MessageSummary) : Z :=
  if negb (Js.truthy_num (ms_timestamp a)) then (-1)%Z
  else if negb (Js.truthy_num (ms_timestamp b)) then 1%Z
  else (Js.or_zero (ms_timestamp a) - Js.or_zero (ms_timestamp b))%Z.

(** [ConversationStore.listMessages]. *)
Definition listMessages (st : Store) (jid : string) : list MessageSummary :=
  Js.sort compareMessages (map formatMessage (ConversationStore.all st jid)).

(** The answer of [getChatMessages] ([server.js] 996-1040), read from the
    store as it is at that moment; the [TypeError] on an inherited member
    is caught and answered with [success: false]. *)
Definition answer (st : Store) (jid : string) : Callback :=
  if inherited_entry st jid then cb_failure all_not_a_function
  else if no_messages st jid then cb_messages []
  else cb_messages (listMessages st jid).

(** [getChatMessages] from the point where [fetchMessagesFromWA] has
    settled ([server.js] 978-1040), on the store [st] the socket has at
    that moment: the new store and the answer. *)
Definition getChatMessages_fetched (jid : string) (fetch : option (list WAMessage))
    (st : Store) : Store * Callback :=
  let st' :=
    match fetch with
    | Some msgs => store_fetched jid msgs st
    | None => st
    end in
  (st', answer st' jid).

(** The [getChatMessages] command ([server.js] 941-1046), when no other
    handler runs while it awaits.  [read] is what [sock.readMessages] did;
    [fetch] is what [sock.fetchMessagesFromWA] returned, [None] when it
    threw. *)
Definition getChatMessages (sessionId jid : string) (read : Outcome)
    (fetch : option (list WAMessage)) (w : World) : World * Callback :=
  match Session.client_store w sessionId with
  | None => (w, cb_failure "Client not found")
  | Some (k, st) =>
      let st2 := after_fetch jid fetch (after_read jid read st) in
      (Session.on_store k (λ _, st2) w, answer st2 jid)
  end.

(** The same command in [backup4_server.js] (407-460). *)
Definition getChatMessages_backup4 (sessionId jid : string) (w : World) : Callback :=
  match Session.client_store w sessionId with
  | None => cb_failure "Client not found"
  | Some (_, st) =>
      match messages st !! jid with
      | None =>
          if Js.prototype_key jid then cb_failure all_not_a_function
          else cb_messages []
      | Some _ => cb_messages (listMessages st jid)
      end
  end.

End Locale.

(** The [generateQR] command ([server.js] 767-785).  [clients[sessionId]]
    is truthy for a handle and for a member inherited from
    [Object.prototype]; the status sent back is then the entry of the status
    table, [None] when that is no status string. *)
Definition generateQR (sessionId : string) (o : CreateOutcome) (w : World)
    : World * Callback :=
  match clients w !! sessionId with
  | Some _ => (w, cb_status (sessionStatus w !! sessionId))
  | None =>
      if Js.prototype_key sessionId
      then (w, cb_status (sessionStatus w !! sessionId))
      else (Session.createWhatsAppClient sessionId o w, cb_success)
  end.

(** The [reconnectSession] command ([server.js] 788-811). *)
Definition reconnectSession (sessionId : string) (o : CreateOutcome) (w : World)
    : World * Callback :=
  if negb (Session.sessionExists sessionId w)
  then (w, cb_error "Session does not exist")
  else
    (Session.createWhatsAppClient sessionId o (Session.delete_client sessionId w),
     cb_success).

(** The [markChatAsRead] command ([server.js] 1049-1076). *)
Definition markChatAsRead (sessionId jid : string) (read : Outcome) (w : World)
    : World * Callback :=
  match Session.client_store w sessionId with
  | None => (w, cb_failure "Client not found")
  | Some (k, _) =>
      match read with
      | Returns => (Session.on_store k (ConversationStore.markRead jid) w, cb_success)
      | Throws msg => (w, cb_failure msg)
      end
  end.

(** The [logout] command ([server.js] 1079-1112); [o] is what
    [clients[sessionId].logout()] did, and [rmSync] returns. *)
Definition logout (sessionId : string) (o : Outcome) (w : World) : World * Callback :=
  match clients w !! sessionId with
  | Some _ =>
      let w1 := Session.set_status sessionId LoggingOut w in
      match o with
      | Returns =>
          let w2 := Session.delete_client sessionId w1 in
          let w3 := Session.remove_folder sessionId w2 in
          let w4 := Session.set_status sessionId LoggedOut w3 in
          (Session.emit (logoutSuccess sessionId) w4, cb_success)
      | Throws msg =>
          (Session.emit (logoutError sessionId msg) (Session.set_status sessionId Error w1),
           cb_error msg)
      end
  | None =>
      (Session.emit (logoutError sessionId "Session not found") w,
       cb_error "Session not found")
  end.

(** The [logout] command of a session with a handle when
    [clients[sessionId].logout()] returned and [fs.rmSync] then threw [msg]
    ([server.js] 1083-1110): the handle is deleted before, the [catch] sets
    the status and reports.  [left] is what [rmSync] left of the session
    folders. *)
Definition logout_rmSync_throws (sessionId msg : string)
    (left : gmap string (list string)) (w : World) : World * Callback :=
  let w1 := Session.set_status sessionId LoggingOut w in
  let w2 := Session.delete_client sessionId w1 in
  let w3 := Session.set_sessionsDir left w2 in
  (Session.emit (logoutError sessionId msg) (Session.set_status sessionId Error w3),
   cb_error msg).

(** What [checkSession] and [/check-status] answer: the status (['unknown']
    is [None]), [connected], and whether [client] is not [null]. *)
Record SessionCheck := {
  sc_status : option Status;
  sc_connected : bool;
  sc_client : bool
}.

(** The [checkSession] command ([server.js] 814-829). *)
Definition checkSession (sessionId : string) (w : World) : SessionCheck :=
  let status := sessionStatus w !! sessionId in
  let isConnected := bool_decide (status = Some Connected) in
  {| sc_status := status; sc_connected := isConnected; sc_client := isConnected |}.




End Gateway.

(** ** The HTTP endpoints *)

Module Http.

(** A JSON response with its status code. *)
Inductive Reply :=
  | reply_ok (message : string)                  (* 200 { success: true, message } *)
  | reply_error (code : Z) (msg : string).       (* code { error } *)

(** [POST /logout] ([server.js] 1176-1215); [sessionId] is
    [req.body.sessionId] and [o] is what [clients[sessionId].logout()]
    settled to, with [rmSync] returning.  The response is sent before the
    promise settles.  For a member inherited from [Object.prototype] the
    call of its [logout] throws at once and the [catch] answers 500. *)
Definition logout (sessionId : option string) (o : Outcome) (w : World) : World * Reply :=
  if negb (Js.truthy_str sessionId) then (w, reply_error 400 "Session ID is required")
  else
    let sid := Js.or_str sessionId "" in
    match clients w !! sid with
    | Some _ =>
        (match o with
         | Returns =>
             Session.remove_folder sid
               (Session.set_status sid LoggedOut (Session.delete_client sid w))
         | Throws _ => Session.set_status sid Error w
         end,
         reply_ok "Logout initiated")
    | None =>
        if Js.prototype_key sid
        then (w, reply_error 500 "clients[sessionId].logout is not a function")
        else (w, reply_error 404 "Session not found")
    end.

(** [POST /check-status] ([server.js] 1153-1173). *)
Definition check_status (sessionId : option string) (w : World)
    : Reply + Gateway.SessionCheck :=
  if negb (Js.truthy_str sessionId) then inl (reply_error 400 "Session ID is required")
  else inr (Gateway.checkSession (Js.or_str sessionId "") w).

(** The [sessions] field of [GET /health]: [Object.keys(clients).length]
    ([server.js] 1143-1150). *)
Definition health_sessions (w : World) : nat := size (clients w).

End Http.

(** ** Runs of the server *)

(** One thing that happens to the server: an event of socket [k], a timer
    firing, or a command, each with what the outside world answered. *)
Inductive Step :=
  | ev_connection_update (k : nat) (update : ConnectionUpdate)
  | ev_messages_upsert (k : nat) (type : string) (msgs : list WAMessage)
  | ev_chats_set (k : nat) (l : list Chat)
  | ev_chats_upsert (k : nat) (l : list Chat)
  | ev_contacts_update (k : nat) (l : list Contact)
  | ev_messages_update (k : nat) (updates : list MessageUpdate)
  | ev_creds_update (k : nat)
  | timer_fires (o : CreateOutcome)
  | cmd_generateQR (sessionId : string) (o : CreateOutcome)
  | cmd_reconnectSession (sessionId : string) (o : CreateOutcome)
  | cmd_getChatMessages (sessionId jid : string) (read : Outcome)
      (fetch : option (list WAMessage))
  | cmd_markChatAsRead (sessionId jid : string) (read : Outcome)
  | cmd_logout (sessionId : string) (o : Outcome).

Section Run.

(** The locale's time formatter, see [Gateway.formatTime]. *)
Variable toLocaleTimeString : Z → string.

Definition step (s : Step) (w : World) : World :=
  match s with
  | ev_connection_update k u => Session.on_connection_update k u w
  | ev_messages_upsert k type msgs => Session.on_messages_upsert k type msgs w
  | ev_chats_set k l => Session.on_chats_set k l w
  | ev_chats_upsert k l => Session.on_chats_upsert k l w
  | ev_contacts_update k l => Session.on_contacts_update k l w
  | ev_messages_update k l => Session.on_messages_update k l w
  | ev_creds_update k => Session.on_creds_update k w
  | timer_fires o => Session.fireTimer o w
  | cmd_generateQR sid o => fst (Gateway.generateQR sid o w)
  | cmd_reconnectSession sid o => fst (Gateway.reconnectSession sid o w)
  | cmd_getChatMessages sid jid read fetch =>
      fst (Gateway.getChatMessages toLocaleTimeString sid jid read fetch w)
  | cmd_markChatAsRead sid jid read => fst (Gateway.markChatAsRead sid jid read w)
  | cmd_logout sid o => fst (Gateway.logout sid o w)
  end.

Definition run (l : list Step) (w : World) : World :=
  fold_left (λ acc s, step s acc) l w.

End Run.

(** The server right after start-up, with the session folders found on disk. *)
Definition start (dir : gmap string (list string)) : World :=
  {| clients := ∅; sessionStatus := ∅; socks := []; timers := [];
     sessionsDir := dir; emitted := [] |}.

(** A locale with a 24-hour clock in the UTC zone: [HH:MM]. *)
Definition two_digits (n : Z) : string :=
  String (ascii_of_nat (48 + Z.to_nat (n / 10))) 
    (String (ascii_of_nat (48 + Z.to_nat (n mod 10))) EmptyString).

Definition utc_24h (t : Z) : string :=
  two_digits ((t mod 86400) / 3600) ++ ":" ++ two_digits ((t mod 3600) / 60).

(** ** Vocabulary of the properties *)

Module StoreProps.
Import ConversationStore.

(** A message the loop body stores: not for the status broadcast, and its
    id is not yet in the conversation. *)
Definition accepted (msg : WAMessage) (st : Store) : bool :=
  negb (String.eqb (key_remoteJid msg) status_broadcast)
  && negb (exists_id (key_id msg) (all st (key_remoteJid msg))).

(** No conversation of the store holds two messages with the same id. *)
Definition distinct_ids (st : Store) : Prop :=
  ∀ jid l, messages st !! jid = Some l → NoDup (map key_id l).

(** How many stored messages of [jid] carry the id [id]. *)
Definition count_id (id : string) (st : Store) (jid : string) : nat :=
  length (filter (λ m, key_id m = id) (all st jid)).

(** How many messages of a batch are inbound (not from self). *)
Definition inbound (msgs : list WAMessage) : Z :=
  Z.of_nat (length (filter (λ m, key_fromMe m = false) msgs)).

End StoreProps.

Module RunProps.
Import StoreProps.

(** Every socket ever made keeps the ids of each conversation distinct. *)
Definition world_distinct (w : World) : Prop :=
  ∀ k s, socks w !! k = Some s → distinct_ids (store s).

(** The history the Protocol Client returns to [getChatMessages] carries
    no id twice. *)
Definition fetch_distinct (s : Step) : Prop :=
  match s with
  | cmd_getChatMessages _ _ _ (Some msgs) => NoDup (map key_id msgs)
  | _ => True
  end.

End RunProps.

Module Invariants.

(** Every handle of the registry is a constructed socket made for that
    session id. *)
Definition registry_wf (w : World) : Prop :=
  ∀ sid k, clients w !! sid = Some k →
    ∃ s, socks w !! k = Some s ∧ sock_session s = sid.

(** Every session with a handle has a status, and it is not ['logged_out']. *)
Definition status_wf (w : World) : Prop :=
  ∀ sid k, clients w !! sid = Some k →
    is_Some (sessionStatus w !! sid) ∧ sessionStatus w !! sid ≠ Some LoggedOut.

(** The chat map holds each key once, and each record under its own id. *)
Definition chats_wf (st : Store) : Prop :=
  NoDup (map fst (chats st)) ∧ ∀ key chat, (key, chat) ∈ chats st → chat_id chat = key.

(** The sockets of [l] are still there in [l'], for the same sessions. *)
Definition socks_extend (l l' : list Sock) : Prop :=
  length l ≤ length l' ∧
  ∀ k s, l !! k = Some s → ∃ s', l' !! k = Some s' ∧ sock_session s' = sock_session s.

(** The messages of [a] are still in [b], in front and in the same order. *)
Definition kept (a b : Store) : Prop :=
  ∀ jid, ConversationStore.all a jid `prefix_of` ConversationStore.all b jid.

(** The stored messages of every socket and conversation of [w] are still
    there in [w'], in front and in the same order. *)
Definition messages_kept (w w' : World) : Prop :=
  ∀ k s jid, socks w !! k = Some s →
    ∃ s', socks w' !! k = Some s'
          ∧ ConversationStore.all (store s) jid `prefix_of` ConversationStore.all (store s') jid.

(** The chat list order: entries with a time first, by descending time
    string, then the entries without a time. *)
Definition chat_before (a b : ChatSummary) : Prop :=
  cs_time b = ""
  ∨ (cs_time a ≠ "" ∧ cs_time b ≠ "" ∧ String.compare (cs_time b) (cs_time a) ≠ Gt).

(** The message list order: entries without a timestamp first, then by
    ascending timestamp. *)
Definition message_before (a b : MessageSummary) : Prop :=
  Js.truthy_num (ms_timestamp a) = false
  ∨ (Js.truthy_num (ms_timestamp a) = true ∧ Js.truthy_num (ms_timestamp b) = true
     ∧ (Js.or_zero (ms_timestamp a) ≤ Js.or_zero (ms_timestamp b))%Z).

(** The chats a step carries into a store: those of [chats.set] and
    [chats.upsert]. *)
Definition step_chats (s : Step) : list Chat :=
  match s with
  | ev_chats_set _ l => l
  | ev_chats_upsert _ l => l
  | _ => []
  end.

(** The steps that can construct a Protocol Client: a timer firing, and the
    [generateQR] and [reconnectSession] commands, when [makeWASocket]
    returns. *)
Definition may_construct (s : Step) : bool :=
  match s with
  | timer_fires SocketMade => true
  | cmd_generateQR _ SocketMade => true
  | cmd_reconnectSession _ SocketMade => true
  | _ => false
  end.

(** Whether a string holds the character ['@']. *)
Fixpoint has_at (s : string) : bool :=
  match s with
  | EmptyString => false
  | String c r => Ascii.eqb c "@"%char || has_at r
  end.

(** The socket whose store a step may write: the socket of an event, and
    the registered socket of the session for [getChatMessages] and
    [markChatAsRead]. *)
Definition step_socket (s : Step) (w : World) : option nat :=
  match s with
  | ev_connection_update k _ | ev_messages_upsert k _ _ | ev_chats_set k _
  | ev_chats_upsert k _ | ev_contacts_update k _ | ev_messages_update k _
  | ev_creds_update k => Some k
  | cmd_getChatMessages sid _ _ _ | cmd_markChatAsRead sid _ _ => clients w !! sid
  | _ => None
  end.

(** The one step that stores a history loaded from the Protocol Client. *)
Definition loads_history (s : Step) : bool :=
  match s with
  | cmd_getChatMessages _ _ _ _ => true
  | _ => false
  end.

(** The operations the steps run on a store; storing a loaded history is
    among them only when [history] is set. *)
Inductive StoreOp (history : bool) : (Store → Store) → Prop :=
  | op_id : StoreOp history (λ st, st)
  | op_ingest msg : StoreOp history (ConversationStore.ingestMessage msg)
  | op_upsert chat : StoreOp history (ConversationStore.upsertChat chat)
  | op_merge contact : StoreOp history (ConversationStore.mergeContact contact)
  | op_read jid : StoreOp history (ConversationStore.markRead jid)
  | op_fetch jid fetch :
      history = true → StoreOp history (Gateway.after_fetch jid fetch)
  | op_comp f g :
      StoreOp history f → StoreOp history g → StoreOp history (λ st, g (f st))
  | op_ext f g : (∀ st, f st = g st) → StoreOp history f → StoreOp history g.

Arguments op_id {history}.
Arguments op_ingest {history} msg.
Arguments op_upsert {history} chat.
Arguments op_merge {history} contact.
Arguments op_read {history} jid.
Arguments op_fetch {history} jid fetch _.
Arguments op_comp {history} f g _ _.
Arguments op_ext {history} f g _ _.

(** Every handle after the step was there before, or is the one socket the
    step constructed. *)
Definition handles_ok (w w' : World) : Prop :=
  ∀ sid k, clients w' !! sid = Some k →
    clients w !! sid = Some k
    ∨ (k = length (socks w)
       ∧ socks w' = socks w ++ [{| sock_session := sid; store := ConversationStore.empty |}]).

(** Every session with a handle after the step has a status other than
    ['logged_out'], or had the handle before with the same status. *)
Definition statuses_ok (w w' : World) : Prop :=
  ∀ sid k, clients w' !! sid = Some k →
    (∃ x, x ≠ LoggedOut ∧ sessionStatus w' !! sid = Some x)
    ∨ (clients w !! sid = Some k ∧ sessionStatus w' !! sid = sessionStatus w !! sid).

End Invariants.

(** The list inside a [{ success: true, chats }] answer. *)
Definition chats_of (cb : Callback) : list ChatSummary :=
  match cb with
  | cb_chats l => l
  | _ => []
  end.

(** The first candidate that is a non-empty string, else the fallback. *)
Fixpoint first_of (candidates : list (option string)) (fallback : string) : string :=
  match candidates with
  | [] => fallback
  | c :: rest => if Js.truthy_str c then default fallback c else first_of rest fallback
  end.

(** The display name as the amended claim C7 words it: the chat's own name
    first; then, for a private chat, the contact's name, the contact's
    notify alias and the local part of the id; for a group, the subject and
    ['Group']; for any other id, the local part. *)
Definition displayName (st : Store) (chat : Chat) : string :=
  let contact := contacts st !! chat_id chat in
  let local_part := Js.split_at_0 (chat_id chat) in
  if Js.endsWith (chat_id chat) "@s.whatsapp.net" then
    first_of [chat_name chat; contact ≫= contact_name; contact ≫= contact_notify] local_part
  else if Js.endsWith (chat_id chat) "@g.us" then
    first_of [chat_name chat; chat_subject chat] "Group"
  else
    first_of [chat_name chat] local_part.

(** ** Concrete servers used as examples *)

(** A text message. *)
Definition text_message (id jid : string) (fromMe : bool) (t : Z) (body : string) : WAMessage :=
  {| key_id := id; key_remoteJid := jid; key_fromMe := fromMe;
     messageTimestamp := Some t;
     message := Some {| conversation := Some body; extendedText := None |} |}.

(** A read acknowledgment for [jid], as [messages.update] carries it. *)
Definition read_ack (jid : string) : MessageUpdate :=
  {| upd_remoteJid := jid; upd_status := Some "READ" |}.

(** A server with one session, ["s1"], whose socket has index 0. *)
Definition one_session : World :=
  fst (Gateway.generateQR "s1" SocketMade (start ∅)).

(** The unread count of [jid] in the store of socket [k]. *)
Definition unread_of (w : World) (k : nat) (jid : string) : option Z :=
  socks w !! k ≫= λ s, ConversationStore.unread (store s) jid.

(** A transient close: a [connection.update] whose status code is not the
    logged-out one. *)
Definition transient_close (reason : string) : ConnectionUpdate :=
  {| connection := Some conn_close; statusCode := Some 428%Z;
     disconnectMessage := Some reason; qr := None |}.

(** Three conversations that receive one message each, in this order: at
    22:13 UTC on 14 November 2023, and at 01:00 and 03:46 UTC on the next
    day. *)
Definition three_chats : World :=
  run utc_24h
    [ev_messages_upsert 0 "notify" [text_message "M1" "111@s.whatsapp.net" false 1700000000 "first"];
     ev_messages_upsert 0 "notify" [text_message "M2" "222@s.whatsapp.net" false 1700010000 "second"];
     ev_messages_upsert 0 "notify" [text_message "M3" "333@s.whatsapp.net" false 1700020000 "third"]]
    one_session.

(** The timestamp of the most recently appended message of [jid] in the
    store of socket [k]. *)
Definition last_timestamp (w : World) (k : nat) (jid : string) : option Z :=
  socks w !! k ≫= λ s, last (ConversationStore.all (store s) jid) ≫= messageTimestamp.

(** A conversation with [jid] created by one inbound message, then a
    [contacts.update] with the given records. *)
Definition chat_and_contacts (jid : string) (l : list Contact) : World :=
  run utc_24h
    [ev_messages_upsert 0 "notify" [text_message "M1" jid false 1700000000 "hello"];
     ev_contacts_update 0 l]
    one_session.

(** * Properties *)

(** ** Facts about the JavaScript primitives *)

Lemma eqb_true (a b : string) : String.eqb a b = true ↔ a = b.
Proof. apply String.eqb_eq. Qed.

Lemma eqb_false (a b : string) : String.eqb a b = false ↔ a ≠ b.
Proof. apply String.eqb_neq. Qed.

Ltac case_eqb a b :=
  let E := fresh "E" in
  destruct (String.eqb a b) eqn:E;
  [apply eqb_true in E | apply eqb_false in E].

Lemma Map_get_set_eq {V} (m : Js.Map V) k v :
  Js.Map_get (Js.Map_set m k v) k = Some v.
Proof.
  induction m as [|[k' v'] m IH]; simpl.
  - by rewrite String.eqb_refl.
  - case_eqb k' k; simpl.
    + by rewrite String.eqb_refl.
    + apply eqb_false in E. by rewrite E.
Qed.

Lemma Map_get_set_ne {V} (m : Js.Map V) k k' v :
  k ≠ k' → Js.Map_get (Js.Map_set m k v) k' = Js.Map_get m k'.
Proof.
  intros Hne. induction m as [|[k0 v0] m IH]; simpl.
  - apply eqb_false in Hne. by rewrite Hne.
  - case_eqb k0 k; simpl.
    + subst k0. apply eqb_false in Hne. by rewrite Hne.
    + by rewrite IH.
Qed.

Lemma Map_get_key {V} (m : Js.Map V) k v :
  Js.Map_get m k = Some v → (k, v) ∈ m.
Proof.
  induction m as [|[k' v'] m IH]; simpl; [done|].
  case_eqb k' k.
  - intros [= ->]. subst. apply list_elem_of_here.
  - intros H. apply list_elem_of_further. by apply IH.
Qed.

Lemma sort_insert_perm {A} (cmp : A → A → Z) x l :
  Js.sort_insert cmp x l ≡ₚ x :: l.
Proof.
  induction l as [|y l IH]; simpl; [done|].
  destruct (cmp x y <? 0)%Z; [done|].
  rewrite IH. apply Permutation_swap.
Qed.

Lemma sort_perm_acc {A} (cmp : A → A → Z) l acc :
  fold_left (λ acc x, Js.sort_insert cmp x acc) l acc ≡ₚ l ++ acc.
Proof.
  revert acc. induction l as [|x l IH]; intros acc; simpl; [done|].
  rewrite IH, sort_insert_perm. by rewrite Permutation_middle.
Qed.

Lemma sort_perm {A} (cmp : A → A → Z) l : Js.sort cmp l ≡ₚ l.
Proof. unfold Js.sort. rewrite sort_perm_acc. by rewrite app_nil_r. Qed.

(** ** Facts about the conversation store *)

Module StoreFacts.
Import ConversationStore StoreProps.

Lemma store_eq (a b : Store) :
  chats a = chats b → contacts a = contacts b → messages a = messages b → a = b.
Proof. destruct a, b; simpl; congruence. Qed.

Lemma exists_id_spec id l :
  exists_id id l = true ↔ id ∈ map key_id l.
Proof.
  unfold exists_id. rewrite existsb_exists, list_elem_of_fmap.
  split.
  - intros (m & Hin & E). apply eqb_true in E. exists m.
    split; [done|]. by apply list_elem_of_In.
  - intros (m & -> & Hin). exists m. split; [by apply list_elem_of_In|].
    apply String.eqb_refl.
Qed.

Lemma exists_id_false id l :
  exists_id id l = false ↔ id ∉ map key_id l.
Proof.
  rewrite <- exists_id_spec. destruct (exists_id id l); split; done.
Qed.

Lemma all_init jid jid' st : all (init_messages jid st) jid' = all st jid'.
Proof.
  unfold init_messages, all.
  destruct (messages st !! jid) eqn:E; [done|]. simpl.
  destruct (decide (jid = jid')) as [->|Hne].
  - by rewrite lookup_insert_eq, E.
  - by rewrite lookup_insert_ne.
Qed.

(** A duplicate, or a status broadcast message, leaves the store as it is. *)
Lemma ingest_rejected msg st :
  accepted msg st = false → ingestMessage msg st = st.
Proof.
  unfold accepted, ingestMessage.
  destruct (String.eqb (key_remoteJid msg) status_broadcast); [done|]. simpl.
  rewrite negb_false_iff. intros Hex. rewrite all_init, Hex.
  unfold init_messages.
  destruct (messages st !! key_remoteJid msg) eqn:E; [done|].
  unfold all in Hex. by rewrite E in Hex.
Qed.

(** An accepted message is appended and its chat record touched. *)
Lemma ingest_accepted msg st :
  accepted msg st = true →
  ingestMessage msg st =
    {| chats := touch_chat msg (chats st);
       contacts := contacts st;
       messages := <[key_remoteJid msg := all st (key_remoteJid msg) ++ [msg]]> (messages st) |}.
Proof.
  unfold accepted, ingestMessage.
  destruct (String.eqb (key_remoteJid msg) status_broadcast); [done|]. simpl.
  rewrite negb_true_iff. intros Hex. rewrite all_init, Hex.
  apply store_eq; simpl.
  - unfold init_messages. by destruct (messages st !! key_remoteJid msg).
  - unfold init_messages. by destruct (messages st !! key_remoteJid msg).
  - unfold init_messages.
    destruct (messages st !! key_remoteJid msg); [done|]. simpl.
    by rewrite insert_insert_eq.
Qed.

Lemma ingest_all jid msg st :
  all (ingestMessage msg st) jid =
    if accepted msg st && bool_decide (key_remoteJid msg = jid)
    then all st jid ++ [msg] else all st jid.
Proof.
  destruct (accepted msg st) eqn:Hacc; simpl.
  - rewrite ingest_accepted by done. unfold all at 1. simpl.
    case_bool_decide as Hj.
    + subst jid. by rewrite lookup_insert_eq.
    + by rewrite lookup_insert_ne.
  - by rewrite ingest_rejected.
Qed.

Lemma ingest_chat_other jid msg st :
  key_remoteJid msg ≠ jid →
  Js.Map_get (chats (ingestMessage msg st)) jid = Js.Map_get (chats st) jid.
Proof.
  intros Hne. destruct (accepted msg st) eqn:Hacc.
  - rewrite ingest_accepted by done. simpl. unfold touch_chat.
    destruct (Js.Map_get (chats st) (key_remoteJid msg));
      by rewrite Map_get_set_ne.
  - by rewrite ingest_rejected.
Qed.

(** The unread count after an accepted message. *)
Lemma ingest_unread msg st :
  accepted msg st = true →
  unread (ingestMessage msg st) (key_remoteJid msg) =
    Some (default 0 (unread st (key_remoteJid msg))
          + (if key_fromMe msg then 0 else 1))%Z.
Proof.
  intros Hacc. rewrite ingest_accepted by done.
  unfold unread, touch_chat. simpl.
  destruct (Js.Map_get (chats st) (key_remoteJid msg)) as [c|] eqn:E;
    rewrite Map_get_set_eq; simpl.
  - destruct (key_fromMe msg); simpl; f_equal; lia.
  - by destruct (key_fromMe msg).
Qed.

Lemma distinct_ids_ingest msg st :
  distinct_ids st → distinct_ids (ingestMessage msg st).
Proof.
  intros Hd. destruct (accepted msg st) eqn:Hacc.
  - rewrite ingest_accepted by done. intros jid l. simpl.
    destruct (decide (key_remoteJid msg = jid)) as [<-|Hne].
    + rewrite lookup_insert_eq. intros [= <-].
      rewrite map_app. simpl. apply NoDup_app. split; [|split].
      * unfold all. destruct (messages st !! key_remoteJid msg) eqn:E; simpl.
        -- by apply (Hd _ _ E).
        -- apply NoDup_nil_2.
      * intros id Hin Hin'. apply list_elem_of_singleton in Hin'. subst id.
        unfold accepted in Hacc. apply andb_true_iff in Hacc as [_ Hacc].
        apply negb_true_iff, exists_id_false in Hacc. done.
      * apply NoDup_singleton.
    + rewrite lookup_insert_ne by done. apply Hd.
  - by rewrite ingest_rejected.
Qed.

Lemma distinct_ids_ingestAll msgs st :
  distinct_ids st → distinct_ids (ingestAll msgs st).
Proof.
  revert st. induction msgs as [|m msgs IH]; intros st Hd; simpl; [done|].
  apply IH. by apply distinct_ids_ingest.
Qed.

End StoreFacts.

(** ** Facts about the session folders *)

Module FolderFacts.
Import Session.

Lemma clients_ensure_folder sid w : clients (ensure_folder sid w) = clients w.
Proof.
  unfold ensure_folder. destruct (Path.folder_key sid) as [key|]; [|done].
  by destruct (sessionsDir w !! key).
Qed.

Lemma status_ensure_folder sid w : sessionStatus (ensure_folder sid w) = sessionStatus w.
Proof.
  unfold ensure_folder. destruct (Path.folder_key sid) as [key|]; [|done].
  by destruct (sessionsDir w !! key).
Qed.

Lemma socks_ensure_folder sid w : socks (ensure_folder sid w) = socks w.
Proof.
  unfold ensure_folder. destruct (Path.folder_key sid) as [key|]; [|done].
  by destruct (sessionsDir w !! key).
Qed.

Lemma timers_ensure_folder sid w : timers (ensure_folder sid w) = timers w.
Proof.
  unfold ensure_folder. destruct (Path.folder_key sid) as [key|]; [|done].
  by destruct (sessionsDir w !! key).
Qed.

Lemma emitted_ensure_folder sid w : emitted (ensure_folder sid w) = emitted w.
Proof.
  unfold ensure_folder. destruct (Path.folder_key sid) as [key|]; [|done].
  by destruct (sessionsDir w !! key).
Qed.

Lemma clients_write_file sid f w : clients (write_file sid f w) = clients w.
Proof.
  unfold write_file. destruct (Path.folder_key sid) as [key|]; [|done].
  destruct (sessionsDir w !! key); [|done]. by destruct (existsb _ _).
Qed.

Lemma status_write_file sid f w : sessionStatus (write_file sid f w) = sessionStatus w.
Proof.
  unfold write_file. destruct (Path.folder_key sid) as [key|]; [|done].
  destruct (sessionsDir w !! key); [|done]. by destruct (existsb _ _).
Qed.

Lemma socks_write_file sid f w : socks (write_file sid f w) = socks w.
Proof.
  unfold write_file. destruct (Path.folder_key sid) as [key|]; [|done].
  destruct (sessionsDir w !! key); [|done]. by destruct (existsb _ _).
Qed.

Lemma clients_remove_folder sid w : clients (remove_folder sid w) = clients w.
Proof.
  unfold remove_folder. destruct (Path.folder_key sid) as [key|]; [|done].
  by destruct (String.eqb key "").
Qed.

Lemma status_remove_folder sid w : sessionStatus (remove_folder sid w) = sessionStatus w.
Proof.
  unfold remove_folder. destruct (Path.folder_key sid) as [key|]; [|done].
  by destruct (String.eqb key "").
Qed.

Lemma socks_remove_folder sid w : socks (remove_folder sid w) = socks w.
Proof.
  unfold remove_folder. destruct (Path.folder_key sid) as [key|]; [|done].
  by destruct (String.eqb key "").
Qed.

Lemma timers_remove_folder sid w : timers (remove_folder sid w) = timers w.
Proof.
  unfold remove_folder. destruct (Path.folder_key sid) as [key|]; [|done].
  by destruct (String.eqb key "").
Qed.

Lemma emitted_remove_folder sid w : emitted (remove_folder sid w) = emitted w.
Proof.
  unfold remove_folder. destruct (Path.folder_key sid) as [key|]; [|done].
  by destruct (String.eqb key "").
Qed.

(** Whether a session exists depends on the session folders only. *)
Lemma sessionExists_dir sid w w' :
  sessionsDir w' = sessionsDir w → sessionExists sid w' = sessionExists sid w.
Proof. intros E. unfold sessionExists. by rewrite E. Qed.

(** After its folder was removed a session does not exist. *)
Lemma sessionExists_removed sid w : sessionExists sid (remove_folder sid w) = false.
Proof.
  unfold sessionExists, remove_folder.
  destruct (Path.folder_key sid) as [key|]; [|done].
  unfold has_entries. destruct (String.eqb key "") eqn:E; simpl.
  - by rewrite lookup_empty, delete_empty, map_size_empty.
  - apply eqb_false in E.
    rewrite lookup_alter_ne by done. by rewrite lookup_delete_eq.
Qed.

(** Removing the folder [key], when no file of the sessions directory has
    that name, removes that folder and nothing else. *)
Lemma remove_folder_own sid key w :
  Path.folder_key sid = Some key → key ≠ "" →
  key ∉ default [] (sessionsDir w !! "") →
  sessionsDir (remove_folder sid w) = delete key (sessionsDir w).
Proof.
  intros Hkey Hne Hfile. unfold remove_folder. rewrite Hkey.
  apply eqb_false in Hne. rewrite Hne. simpl.
  apply eqb_false in Hne.
  apply alter_id. intros files Hfiles.
  rewrite lookup_delete_ne in Hfiles by done. rewrite Hfiles in Hfile. simpl in Hfile.
  clear Hfiles. induction files as [|f files IH]; [done|].
  apply not_elem_of_cons in Hfile as [Hf Hfile].
  rewrite filter_cons. rewrite decide_True by done. by rewrite IH.
Qed.

End FolderFacts.

(** ** Facts about runs: what every step preserves *)

Module RunFacts.
Import ConversationStore StoreProps RunProps StoreFacts Session FolderFacts.

Lemma world_distinct_socks w w' :
  socks w' = socks w → world_distinct w → world_distinct w'.
Proof. intros E H k s. rewrite E. apply H. Qed.

Lemma world_distinct_on_store k f w :
  (∀ st, distinct_ids st → distinct_ids (f st)) →
  world_distinct w → world_distinct (on_store k f w).
Proof.
  intros Hf Hw. unfold on_store.
  destruct (socks w !! k) as [s|] eqn:E; [|done].
  intros k' s'. simpl.
  destruct (decide (k = k')) as [<-|Hne].
  - rewrite list_lookup_insert_eq by (by eapply lookup_lt_Some).
    intros [= <-]. simpl. apply Hf. by apply (Hw k).
  - rewrite list_lookup_insert_ne by done. apply Hw.
Qed.

Lemma world_distinct_create sid o w :
  world_distinct w → world_distinct (createWhatsAppClient sid o w).
Proof.
  intros Hw. destruct o; simpl.
  - by apply (world_distinct_socks w).
  - apply (world_distinct_socks w); [|done]. simpl.
    apply socks_ensure_folder.
  - intros k s. simpl. rewrite socks_ensure_folder.
    intros [Hin|[_ Hin]]%lookup_app_Some.
    + by apply (Hw k).
    + apply list_lookup_singleton_Some in Hin as [_ <-].
      intros jid l. simpl. by rewrite lookup_empty.
Qed.

Lemma messages_upsertChats l st : messages (upsertChats l st) = messages st.
Proof. revert st. induction l as [|c l IH]; intros st; simpl; [done|]. by rewrite IH. Qed.

Lemma messages_mergeContacts l st : messages (mergeContacts l st) = messages st.
Proof. revert st. induction l as [|c l IH]; intros st; simpl; [done|]. by rewrite IH. Qed.

Lemma messages_markRead jid st : messages (markRead jid st) = messages st.
Proof. unfold markRead. by destruct (Js.Map_get (chats st) jid). Qed.

Lemma distinct_ids_messages st st' :
  messages st' = messages st → distinct_ids st → distinct_ids st'.
Proof. intros E H jid l. rewrite E. apply H. Qed.

Lemma distinct_ids_after_read jid read st :
  distinct_ids st → distinct_ids (Gateway.after_read jid read st).
Proof.
  destruct read; simpl; [|done].
  apply distinct_ids_messages, messages_markRead.
Qed.

Lemma distinct_ids_store_fetched jid msgs st :
  NoDup (map key_id msgs) →
  distinct_ids st → distinct_ids (Gateway.store_fetched jid msgs st).
Proof.
  intros Hf Hd jid' l. unfold Gateway.store_fetched. simpl.
  destruct (decide (jid = jid')) as [<-|Hne].
  - rewrite lookup_insert_eq. by intros [= <-].
  - rewrite lookup_insert_ne by done. unfold init_messages.
    destruct (messages st !! jid) eqn:E; simpl.
    + apply Hd.
    + rewrite lookup_insert_ne by done. apply Hd.
Qed.

Lemma distinct_ids_after_fetch jid fetch st :
  match fetch with Some msgs => NoDup (map key_id msgs) | None => True end →
  distinct_ids st → distinct_ids (Gateway.after_fetch jid fetch st).
Proof.
  intros Hf Hd. unfold Gateway.after_fetch.
  destruct (Gateway.inherited_entry st jid); [done|].
  destruct (Gateway.no_messages st jid); [|done].
  destruct fetch as [msgs|]; [|done].
  by apply distinct_ids_store_fetched.
Qed.

Lemma world_distinct_message_update k u w :
  world_distinct w → world_distinct (on_message_update k u w).
Proof.
  intros Hw. unfold on_message_update.
  destruct (socks w !! k); [|done].
  destruct (String.eqb _ _); [done|].
  case_bool_decide; [|done].
  destruct (Js.Map_has _ _); [|done].
  apply (world_distinct_socks (on_store k (markRead (upd_remoteJid u)) w)); [done|].
  apply world_distinct_on_store; [|done].
  intros st. apply distinct_ids_messages, messages_markRead.
Qed.

Lemma world_distinct_step fmt s w :
  fetch_distinct s → world_distinct w → world_distinct (step fmt s w).
Proof.
  intros Hf Hw. destruct s; simpl.
  - (* connection.update *)
    apply (world_distinct_socks w); [|done].
    unfold on_connection_update. destruct (socks w !! k); [|done].
    destruct (Js.truthy_str (qr update));
      destruct (connection update) as [[]|]; simpl; try done;
      rewrite ?socks_write_file; try done;
      by case_bool_decide.
  - (* messages.upsert *)
    unfold on_messages_upsert. destruct (socks w !! k); [|done].
    destruct (String.eqb type "notify"); [|done].
    apply (world_distinct_socks (on_store k (ingestAll msgs) w)); [done|].
    apply world_distinct_on_store; [|done]. apply distinct_ids_ingestAll.
  - apply world_distinct_on_store; [|done].
    intros st. apply distinct_ids_messages, messages_upsertChats.
  - apply world_distinct_on_store; [|done].
    intros st. apply distinct_ids_messages, messages_upsertChats.
  - apply world_distinct_on_store; [|done].
    intros st. apply distinct_ids_messages, messages_mergeContacts.
  - (* messages.update *)
    unfold on_messages_update. revert w Hw.
    induction updates as [|u l IH]; intros w Hw; simpl; [done|].
    by apply IH, world_distinct_message_update.
  - (* creds.update *)
    apply (world_distinct_socks w); [|done].
    unfold on_creds_update. destruct (socks w !! k) as [s|]; [|done].
    by rewrite socks_write_file, socks_ensure_folder.
  - (* timer *)
    unfold fireTimer. destruct (timers w) as [|t rest]; [done|].
    unfold reconnectCallback. simpl.
    destruct (sessionStatus w !! timer_session t) as [[]|];
      try by apply (world_distinct_socks w).
    apply world_distinct_create. by apply (world_distinct_socks w).
  - (* generateQR *)
    unfold Gateway.generateQR. destruct (clients w !! sessionId); simpl; [done|].
    destruct (Js.prototype_key sessionId); simpl; [done|].
    by apply world_distinct_create.
  - (* reconnectSession *)
    unfold Gateway.reconnectSession.
    destruct (sessionExists sessionId w); simpl; [|done].
    apply world_distinct_create. by apply (world_distinct_socks w).
  - (* getChatMessages *)
    unfold Gateway.getChatMessages.
    destruct (client_store w sessionId) as [[k st]|] eqn:E; simpl; [|done].
    unfold client_store in E.
    destruct (clients w !! sessionId) as [k'|]; [|done].
    destruct (socks w !! k') as [s|] eqn:Es; [|done].
    injection E as <- <-.
    unfold on_store. rewrite Es. intros k s'. simpl.
    destruct (decide (k' = k)) as [<-|Hne].
    + rewrite list_lookup_insert_eq by (by eapply lookup_lt_Some).
      intros [= <-]. simpl.
      apply distinct_ids_after_fetch; [by destruct fetch|].
      apply distinct_ids_after_read. by apply (Hw k').
    + rewrite list_lookup_insert_ne by done. apply Hw.
  - (* markChatAsRead *)
    unfold Gateway.markChatAsRead.
    destruct (client_store w sessionId) as [[k st]|]; simpl; [|done].
    destruct read; simpl; [|done].
    apply world_distinct_on_store; [|done].
    intros st'. apply distinct_ids_messages, messages_markRead.
  - (* logout *)
    unfold Gateway.logout. destruct (clients w !! sessionId); [destruct o|];
      apply (world_distinct_socks w); simpl; rewrite ?socks_remove_folder; done.
Qed.

Lemma world_distinct_run fmt steps w :
  Forall fetch_distinct steps → world_distinct w → world_distinct (run fmt steps w).
Proof.
  revert w. induction steps as [|s steps IH]; intros w Hf Hw; simpl; [done|].
  inversion Hf; subst. apply IH; [done|]. by apply world_distinct_step.
Qed.

End RunFacts.

(** ** Unread counts and duplicate messages (C2, C3) *)

Module IngestFacts.
Import ConversationStore StoreProps StoreFacts.

Lemma accepted_fresh msg st :
  key_remoteJid msg ≠ status_broadcast →
  key_id msg ∉ map key_id (all st (key_remoteJid msg)) →
  accepted msg st = true.
Proof.
  intros Hb Hf. unfold accepted. apply andb_true_iff. split.
  - apply negb_true_iff. by apply eqb_false.
  - apply negb_true_iff. by apply exists_id_false.
Qed.

Lemma inbound_cons m msgs :
  inbound (m :: msgs) = ((if key_fromMe m then 0 else 1) + inbound msgs)%Z.
Proof.
  unfold inbound. rewrite filter_cons.
  destruct (key_fromMe m); case_decide; try done.
  simpl length. lia.
Qed.

(** A batch of fresh, pairwise distinct messages of one conversation adds
    its inbound messages to the unread count. *)
Lemma ingestAll_unread msgs : ∀ st jid,
  jid ≠ status_broadcast →
  Forall (λ m, key_remoteJid m = jid) msgs →
  NoDup (map key_id msgs) →
  (∀ m, m ∈ msgs → key_id m ∉ map key_id (all st jid)) →
  default 0%Z (unread (ingestAll msgs st) jid)
  = (default 0 (unread st jid) + inbound msgs)%Z.
Proof.
  induction msgs as [|m msgs IH]; intros st jid Hb Hj Hnd Hfresh; simpl.
  - unfold inbound. simpl. lia.
  - inversion Hj as [|? ? Hm Hj']; subst.
    simpl in Hnd. apply NoDup_cons in Hnd as [Hm Hnd].
    assert (accepted m st = true) as Hacc.
    { apply accepted_fresh; [done|]. apply Hfresh, list_elem_of_here. }
    rewrite (IH (ingestMessage m st) (key_remoteJid m)); try done.
    + rewrite ingest_unread by done. rewrite inbound_cons. simpl. lia.
    + intros m' Hin. rewrite ingest_all, Hacc, bool_decide_true by done. simpl.
      rewrite map_app. simpl. intros [H|H]%elem_of_app.
      * by apply (Hfresh m'); [apply list_elem_of_further|].
      * apply list_elem_of_singleton in H. apply Hm. rewrite <- H.
        apply list_elem_of_fmap. by exists m'.
Qed.

(** Stored ids stay stored. *)
Lemma ingest_keeps_id id jid msg st :
  id ∈ map key_id (all st jid) → id ∈ map key_id (all (ingestMessage msg st) jid).
Proof.
  intros Hin. rewrite ingest_all.
  destruct (accepted msg st && bool_decide (key_remoteJid msg = jid)); [|done].
  rewrite map_app. apply elem_of_app. by left.
Qed.

Lemma ingestAll_keeps_id id jid msgs : ∀ st,
  id ∈ map key_id (all st jid) → id ∈ map key_id (all (ingestAll msgs st) jid).
Proof.
  induction msgs as [|m msgs IH]; intros st Hin; simpl; [done|].
  by apply IH, ingest_keeps_id.
Qed.

(** After its ingestion the id of a message is stored. *)
Lemma ingest_stores_id msg st :
  key_remoteJid msg ≠ status_broadcast →
  key_id msg ∈ map key_id (all (ingestMessage msg st) (key_remoteJid msg)).
Proof.
  intros Hb. rewrite ingest_all.
  destruct (accepted msg st) eqn:Hacc; simpl.
  - rewrite bool_decide_true by done. rewrite map_app. apply elem_of_app. right.
    simpl. apply list_elem_of_here.
  - unfold accepted in Hacc. apply andb_false_iff in Hacc as [Hacc|Hacc].
    + apply negb_false_iff, eqb_true in Hacc. done.
    + apply negb_false_iff in Hacc. by apply exists_id_spec.
Qed.

Lemma filter_absent id (l : list WAMessage) :
  id ∉ map key_id l → filter (λ m, key_id m = id) l = [].
Proof.
  induction l as [|m l IH]; simpl; intros Hnin; [done|].
  apply not_elem_of_cons in Hnin as [Hne Hnin].
  rewrite filter_cons, decide_False by done. by apply IH.
Qed.

Lemma count_one id (l : list WAMessage) :
  NoDup (map key_id l) → id ∈ map key_id l →
  length (filter (λ m, key_id m = id) l) = 1.
Proof.
  induction l as [|m l IH]; simpl; intros Hnd Hin.
  - by apply elem_of_nil in Hin.
  - apply NoDup_cons in Hnd as [Hm Hnd]. rewrite filter_cons.
    destruct (decide (key_id m = id)) as [<-|Hne]; simpl.
    + by rewrite filter_absent.
    + apply IH; [done|]. apply elem_of_cons in Hin as [E|Hin]; [congruence|done].
Qed.

End IngestFacts.

(** ** The claims about ingestion *)

(** C2: an accepted message not from self raises the unread count of its
    conversation by exactly 1 and one from self leaves it as it is; a chat
    record made by the first message starts at 1 when inbound and at 0 when
    from self; over a batch of fresh messages of one conversation the count
    grows by the number of inbound ones; a read acknowledgment sets it to 0;
    and after 3 inbound and 1 self message and a read acknowledgment the
    count is 0, then 1 after one more inbound message. *)
Theorem C2_unread_count :
  (∀ msg st chat,
     StoreProps.accepted msg st = true →
     Js.Map_get (chats st) (key_remoteJid msg) = Some chat →
     unreadCount <$> Js.Map_get (chats (ConversationStore.ingestMessage msg st))
                       (key_remoteJid msg)
     = Some (if key_fromMe msg then unreadCount chat
             else Some (Js.or_zero (unreadCount chat) + 1)%Z))
  ∧ (∀ msg st,
       StoreProps.accepted msg st = true →
       Js.Map_get (chats st) (key_remoteJid msg) = None →
       unreadCount <$> Js.Map_get (chats (ConversationStore.ingestMessage msg st))
                         (key_remoteJid msg)
       = Some (Some (if key_fromMe msg then 0 else 1)%Z))
  ∧ (∀ msgs st jid,
       jid ≠ status_broadcast →
       Forall (λ m, key_remoteJid m = jid) msgs →
       NoDup (map key_id msgs) →
       (∀ m, m ∈ msgs → key_id m ∉ map key_id (ConversationStore.all st jid)) →
       default 0%Z (ConversationStore.unread (ConversationStore.ingestAll msgs st) jid)
       = (default 0 (ConversationStore.unread st jid) + StoreProps.inbound msgs)%Z)
  ∧ (∀ w k s jid,
       socks w !! k = Some s →
       jid ≠ status_broadcast →
       Js.Map_has (chats (store s)) jid = true →
       unread_of (Session.on_messages_update k [read_ack jid] w) k jid = Some 0%Z)
  ∧ (∀ fmt jid,
       jid = "111@s.whatsapp.net" →
       let batch := [text_message "A1" jid false 10 "one";
                     text_message "A2" jid false 11 "two";
                     text_message "A3" jid true 12 "mine";
                     text_message "A4" jid false 13 "three"] in
       let w1 := run fmt [ev_messages_upsert 0 "notify" batch] one_session in
       let w2 := run fmt [ev_messages_update 0 [read_ack jid]] w1 in
       let w3 := run fmt [ev_messages_upsert 0 "notify"
                            [text_message "A5" jid false 14 "four"]] w2 in
       unread_of w1 0 jid = Some 3%Z
       ∧ unread_of w2 0 jid = Some 0%Z
       ∧ unread_of w3 0 jid = Some 1%Z).
Proof.
  split; [|split; [|split; [|split]]].
  - intros msg st chat Hacc Hget.
    rewrite StoreFacts.ingest_accepted by done. simpl.
    unfold ConversationStore.touch_chat. rewrite Hget, Map_get_set_eq. simpl.
    by destruct (key_fromMe msg).
  - intros msg st Hacc Hget.
    rewrite StoreFacts.ingest_accepted by done. simpl.
    unfold ConversationStore.touch_chat. by rewrite Hget, Map_get_set_eq.
  - intros msgs st jid. apply IngestFacts.ingestAll_unread.
  - intros w k s jid Hs Hb Hhas.
    unfold Session.on_messages_update, Session.on_message_update, unread_of. simpl.
    rewrite Hs. simpl. apply eqb_false in Hb. rewrite Hb, Hhas. simpl.
    unfold Session.on_store. rewrite Hs. simpl.
    rewrite list_lookup_insert_eq by (by eapply lookup_lt_Some). simpl.
    unfold ConversationStore.unread, ConversationStore.markRead.
    unfold Js.Map_has in Hhas.
    destruct (Js.Map_get (chats (store s)) jid) as [c|]; [|done]. simpl.
    by rewrite Map_get_set_eq.
  - intros fmt jid ->. vm_compute. done.
Qed.

(** C2 at a concrete store: a chat with 2 unread messages receives one
    inbound message. *)
Lemma C2_unread_count_witness :
  let jid := "111@s.whatsapp.net" in
  let st := ConversationStore.ingestAll
              [text_message "A1" jid false 10 "one"; text_message "A2" jid false 11 "two"]
              ConversationStore.empty in
  ConversationStore.unread st jid = Some 2%Z
  ∧ ConversationStore.unread
      (ConversationStore.ingestMessage (text_message "A3" jid false 12 "three") st) jid
    = Some 3%Z.
Proof.
  split; [by vm_compute|].
  pose proof (proj1 C2_unread_count
    (text_message "A3" "111@s.whatsapp.net" false 12 "three")
    (ConversationStore.ingestAll
       [text_message "A1" "111@s.whatsapp.net" false 10 "one";
        text_message "A2" "111@s.whatsapp.net" false 11 "two"]
       ConversationStore.empty)
    {| chat_id := "111@s.whatsapp.net"; chat_name := None; chat_subject := None;
       conversationTimestamp := Some 11%Z; unreadCount := Some 2%Z |}
    ltac:(by vm_compute) ltac:(by vm_compute)) as H.
  unfold ConversationStore.unread.
  destruct (Js.Map_get _ _) as [c|]; [|done].
  simpl in *. injection H as ->. done.
Defined.

(** C3, as the claim states it, fails: [getChatMessages] stores the history
    the Protocol Client returns as it is, so a history that carries a message
    twice leaves two records with one id in the conversation. *)
Lemma C3_fetched_history_is_stored_as_returned :
  let h := text_message "H1" "222@s.whatsapp.net" false 5 "old" in
  let w := run utc_24h
             [cmd_generateQR "s1" SocketMade;
              cmd_getChatMessages "s1" "222@s.whatsapp.net" Returns (Some [h; h])]
             (start ∅) in
  (λ s, ConversationStore.all (store s) "222@s.whatsapp.net") <$> socks w !! 0
  = Some [h; h]
  ∧ (λ s, StoreProps.count_id "H1" (store s) "222@s.whatsapp.net") <$> socks w !! 0
    = Some 2.
Proof. by vm_compute. Qed.

(** C3, amended: in [server.js], ingesting a message whose id is already
    stored in its conversation changes nothing; after two messages with the
    same id were ingested into one conversation (other than the status
    broadcast, which is not stored), whatever was ingested in between,
    exactly one stored record carries that id; and no conversation of any
    socket holds two records with the same id, in every run of the server in
    which the histories the Protocol Client returns to [getChatMessages]
    carry no id twice.  Storing such a history keeps the ids of every
    conversation distinct whatever the store holds by then. *)
Theorem C3_ingest_deduplicates :
  (∀ msg st,
     ConversationStore.exists_id (key_id msg)
       (ConversationStore.all st (key_remoteJid msg)) = true →
     ConversationStore.ingestMessage msg st = st)
  ∧ (∀ m1 between m2 st,
       StoreProps.distinct_ids st →
       key_id m1 = key_id m2 →
       key_remoteJid m1 = key_remoteJid m2 →
       key_remoteJid m1 ≠ status_broadcast →
       StoreProps.count_id (key_id m1)
         (ConversationStore.ingestMessage m2
            (ConversationStore.ingestAll between
               (ConversationStore.ingestMessage m1 st)))
         (key_remoteJid m1) = 1)
  ∧ (∀ fmt dir steps,
       Forall RunProps.fetch_distinct steps →
       RunProps.world_distinct (run fmt steps (start dir)))
  ∧ (∀ jid msgs st,
       NoDup (map key_id msgs) →
       StoreProps.distinct_ids st →
       StoreProps.distinct_ids (Gateway.store_fetched jid msgs st)).
Proof.
  split; [|split; [|split]].
  - intros msg st Hex. apply StoreFacts.ingest_rejected.
    unfold StoreProps.accepted. rewrite Hex. simpl. apply andb_false_r.
  - intros m1 between m2 st Hd Hid Hjid Hb.
    unfold StoreProps.count_id. apply IngestFacts.count_one.
    + pose proof (StoreFacts.distinct_ids_ingest m2 _
        (StoreFacts.distinct_ids_ingestAll between _
           (StoreFacts.distinct_ids_ingest m1 _ Hd))) as Hd'.
      unfold ConversationStore.all.
      destruct (messages _ !! key_remoteJid m1) eqn:E; simpl.
      * by apply (Hd' _ _ E).
      * apply NoDup_nil_2.
    + by apply IngestFacts.ingest_keeps_id, IngestFacts.ingestAll_keeps_id,
        IngestFacts.ingest_stores_id.
  - intros fmt dir steps Hf. apply RunFacts.world_distinct_run; [done|].
    intros k s. simpl. by rewrite lookup_nil.
  - apply RunFacts.distinct_ids_store_fetched.
Qed.

(** C3 at a concrete store and a concrete run: the same message delivered
    twice, with another one in between; and a session that receives a batch
    with a repeated message and then loads the history of another
    conversation. *)
Lemma C3_ingest_deduplicates_witness :
  let m := text_message "A1" "111@s.whatsapp.net" false 10 "one" in
  let n := text_message "B7" "111@s.whatsapp.net" false 11 "two" in
  let steps :=
    [cmd_generateQR "s1" SocketMade;
     ev_messages_upsert 0 "notify" [m; n; m];
     cmd_getChatMessages "s1" "222@s.whatsapp.net" Returns
       (Some [text_message "H1" "222@s.whatsapp.net" true 5 "old";
              text_message "H2" "222@s.whatsapp.net" false 6 "older"])] in
  StoreProps.distinct_ids ConversationStore.empty
  ∧ Forall RunProps.fetch_distinct steps
  ∧ RunProps.world_distinct (run utc_24h steps (start ∅))
  ∧ StoreProps.count_id "A1"
      (ConversationStore.ingestMessage m
         (ConversationStore.ingestAll [n]
            (ConversationStore.ingestMessage m ConversationStore.empty)))
      "111@s.whatsapp.net" = 1.
Proof.
  assert (StoreProps.distinct_ids ConversationStore.empty) as Hd.
  { intros jid l. simpl. by rewrite lookup_empty. }
  assert (Forall RunProps.fetch_distinct
            [cmd_generateQR "s1" SocketMade;
             ev_messages_upsert 0 "notify"
               [text_message "A1" "111@s.whatsapp.net" false 10 "one";
                text_message "B7" "111@s.whatsapp.net" false 11 "two";
                text_message "A1" "111@s.whatsapp.net" false 10 "one"];
             cmd_getChatMessages "s1" "222@s.whatsapp.net" Returns
               (Some [text_message "H1" "222@s.whatsapp.net" true 5 "old";
                      text_message "H2" "222@s.whatsapp.net" false 6 "older"])]) as Hf.
  { repeat (apply Forall_cons; split); try exact I.
    - simpl. apply (bool_decide_unpack _). by vm_compute.
    - by apply Forall_nil. }
  split; [exact Hd|]. split; [exact Hf|]. split.
  - exact (proj1 (proj2 (proj2 C3_ingest_deduplicates)) utc_24h ∅ _ Hf).
  - exact (proj1 (proj2 C3_ingest_deduplicates)
      (text_message "A1" "111@s.whatsapp.net" false 10 "one")
      [text_message "B7" "111@s.whatsapp.net" false 11 "two"]
      (text_message "A1" "111@s.whatsapp.net" false 10 "one")
      ConversationStore.empty Hd eq_refl eq_refl ltac:(done)).
Defined.

(** ** The claims about the session lifecycle and the commands *)



(** C4, as the claim states it, fails: after a failed logout call the handle
    of the session is still in the registry. *)
Lemma C4_failed_logout_keeps_handle :
  clients one_session !! "s1" = Some 0
  ∧ clients (fst (Gateway.logout "s1" (Throws "timed out") one_session)) !! "s1" = Some 0
  ∧ clients (fst (Gateway.logout "s1" (Throws "timed out") one_session)) !! "s1" ≠ None.
Proof. by vm_compute. Qed.

(** C4, amended: for a session with a handle, a successful logout sends
    [logoutSuccess], removes the handle from the registry and removes the
    session folder, so that the session no longer exists on disk; when the
    session id names a folder of its own under the sessions directory (and
    not a file lying there), that folder is the only thing removed.  A
    failed logout call sends [logoutError], leaves the session folders
    untouched, and leaves the registry as it was (the handle stays), with
    the status set to ['error'].  When the logout call returned and removing
    the folder then threw, the handle is already removed and [logoutError]
    is sent. *)
Theorem C4_logout_outcomes sid k msg w :
  clients w !! sid = Some k →
  let ok := Gateway.logout sid Returns w in
  let ko := Gateway.logout sid (Throws msg) w in
  (emitted (fst ok) = emitted w ++ [logoutSuccess sid]
   ∧ snd ok = cb_success
   ∧ clients (fst ok) = delete sid (clients w)
   ∧ Session.sessionExists sid (fst ok) = false
   ∧ (∀ key, Path.folder_key sid = Some key → key ≠ "" →
        key ∉ default [] (sessionsDir w !! "") →
        sessionsDir (fst ok) = delete key (sessionsDir w))
   ∧ sessionStatus (fst ok) !! sid = Some LoggedOut)
  ∧ (emitted (fst ko) = emitted w ++ [logoutError sid msg]
     ∧ snd ko = cb_error msg
     ∧ clients (fst ko) = clients w
     ∧ sessionsDir (fst ko) = sessionsDir w
     ∧ sessionStatus (fst ko) !! sid = Some Error)
  ∧ (∀ left,
       let rm := Gateway.logout_rmSync_throws sid msg left w in
       emitted (fst rm) = emitted w ++ [logoutError sid msg]
       ∧ snd rm = cb_error msg
       ∧ clients (fst rm) = delete sid (clients w)
       ∧ sessionStatus (fst rm) !! sid = Some Error).
Proof.
  intros Hcl. unfold Gateway.logout. rewrite Hcl. cbn [fst snd].
  split; [|split].
  - split; [simpl; by rewrite FolderFacts.emitted_remove_folder|].
    split; [done|].
    split; [simpl; by rewrite FolderFacts.clients_remove_folder|].
    split.
    { rewrite <- (FolderFacts.sessionExists_removed sid
                   (Session.delete_client sid (Session.set_status sid LoggingOut w))).
      by apply FolderFacts.sessionExists_dir. }
    split; [|simpl; by rewrite lookup_insert_eq].
    intros key Hkey Hne Hfile. simpl.
    by rewrite (FolderFacts.remove_folder_own sid key).
  - simpl. by rewrite !lookup_insert_eq.
  - intros left. simpl. by rewrite lookup_insert_eq.
Qed.

(** C4 at the one-session server, whose session ["s1"] has the folder
    ["s1"]. *)
Lemma C4_logout_outcomes_witness :
  clients one_session !! "s1" = Some 0
  ∧ Path.folder_key "s1" = Some "s1"
  ∧ clients (fst (Gateway.logout "s1" Returns one_session)) = delete "s1" (clients one_session)
  ∧ sessionsDir (fst (Gateway.logout "s1" Returns one_session))
    = delete "s1" (sessionsDir one_session)
  ∧ sessionsDir (fst (Gateway.logout "s1" (Throws "timed out") one_session))
    = sessionsDir one_session.
Proof.
  pose proof (C4_logout_outcomes "s1" 0 "timed out" one_session eq_refl) as H.
  cbn zeta in H. destruct H as [(_ & _ & Hok & _ & Hdir & _) [(_ & _ & _ & Hko & _) _]].
  split; [reflexivity|]. split; [reflexivity|]. split; [exact Hok|].
  split; [|exact Hko].
  exact (Hdir "s1" eq_refl ltac:(done) ltac:(vm_compute; apply not_elem_of_nil)).
Defined.

(** The empty session id names the sessions directory itself, so a
    successful logout of a session with that id removes the folders of all
    sessions. *)
Remark logout_of_empty_id_removes_all_folders w k :
  clients w !! "" = Some k →
  sessionsDir (fst (Gateway.logout "" Returns w)) = ∅.
Proof. intros Hcl. unfold Gateway.logout. by rewrite Hcl. Qed.

(** C8: the test of [reconnectSession] is on the directory
    [path.join(sessionsDir, sessionId)].  When that directory is missing or
    empty (and the path is not that of a file lying in the sessions
    directory, on which the test throws) the command answers
    [{ error: 'Session does not exist' }] and leaves the whole server state
    as it was, whatever the registry holds.  But the empty session id names
    the sessions directory itself: on a server that holds the credentials of
    session ["s1"] and nothing for the empty id, the test passes for the
    empty id, a Protocol Client is constructed for it and its handle is put
    into the registry. *)
Theorem C8_reconnect_without_credentials :
  (∀ sid key o w,
     Path.folder_key sid = Some key →
     key ∉ default [] (sessionsDir w !! "") →
     Session.sessionExists sid w = false →
     Gateway.reconnectSession sid o w = (w, cb_error "Session does not exist")
     ∧ Session.constructed (fst (Gateway.reconnectSession sid o w)) = Session.constructed w
     ∧ clients (fst (Gateway.reconnectSession sid o w)) = clients w
     ∧ (∀ w', sessionsDir w' = sessionsDir w → Session.sessionExists sid w' = false))
  ∧ (let w := start {["s1" := ["creds.json"]]} in
     sessionsDir w !! "" = None
     ∧ clients w !! "" = None
     ∧ Path.folder_key "" = Some ""
     ∧ Session.sessionExists "" w = true
     ∧ snd (Gateway.reconnectSession "" SocketMade w) = cb_success
     ∧ Session.constructed w = 0
     ∧ Session.constructed (fst (Gateway.reconnectSession "" SocketMade w)) = 1
     ∧ clients (fst (Gateway.reconnectSession "" SocketMade w)) !! "" = Some 0).
Proof.
  split.
  - intros sid key o w _ _ Hex. unfold Gateway.reconnectSession. rewrite Hex. simpl.
    repeat split. intros w' E. by rewrite (FolderFacts.sessionExists_dir _ _ _ E).
  - by vm_compute.
Qed.

(** C8 at the one-session server: ["s1"] has a handle, but its folder holds
    no credentials yet. *)
Lemma C8_reconnect_without_credentials_witness :
  clients one_session !! "s1" = Some 0
  ∧ Path.folder_key "s1" = Some "s1"
  ∧ sessionsDir one_session !! "" = None
  ∧ Session.sessionExists "s1" one_session = false
  ∧ Gateway.reconnectSession "s1" SocketMade one_session
    = (one_session, cb_error "Session does not exist").
Proof.
  split; [reflexivity|]. split; [reflexivity|]. split; [reflexivity|].
  split; [reflexivity|].
  exact (proj1 (proj1 C8_reconnect_without_credentials "s1" "s1" SocketMade one_session
                  eq_refl ltac:(vm_compute; apply not_elem_of_nil) eq_refl)).
Defined.

(** C9: when the registry holds a handle for the session id, [generateQR]
    answers with the session's current status and leaves the server state as
    it was; asked twice in a row it gives the same answer twice and the
    number of sockets constructed does not change. *)
Theorem C9_generateQR_existing_handle sid k o1 o2 w :
  clients w !! sid = Some k →
  let r1 := Gateway.generateQR sid o1 w in
  let r2 := Gateway.generateQR sid o2 (fst r1) in
  r1 = (w, cb_status (sessionStatus w !! sid))
  ∧ r2 = (w, cb_status (sessionStatus w !! sid))
  ∧ Session.constructed (fst r2) = Session.constructed w.
Proof.
  intros Hcl. unfold Gateway.generateQR. rewrite Hcl. simpl. by rewrite Hcl.
Qed.

(** C9 at the one-session server: two more requests for ["s1"]. *)
Lemma C9_generateQR_existing_handle_witness :
  clients one_session !! "s1" = Some 0
  ∧ Gateway.generateQR "s1" SocketMade (fst (Gateway.generateQR "s1" SocketMade one_session))
    = (one_session, cb_status (Some Connecting))
  ∧ Session.constructed one_session = 1.
Proof.
  pose proof (C9_generateQR_existing_handle "s1" 0 SocketMade SocketMade one_session eq_refl)
    as (_ & H & _).
  split; [reflexivity|]. split; [exact H|reflexivity].
Defined.

(** ** The claims about the chat list and the message list *)

Module ListFacts.

Lemma formatPhoneNumber_local jid : formatPhoneNumber jid = Js.split_at_0 jid.
Proof. unfold formatPhoneNumber. case_eqb jid ""; [by subst|done]. Qed.

Lemma formatChat_jid fmt st chat c :
  Gateway.formatChat fmt st chat = Some c →
  cs_jid c = chat_id chat ∧ chat_id chat ≠ status_broadcast.
Proof.
  unfold Gateway.formatChat. case_eqb (chat_id chat) status_broadcast; [done|].
  by intros [= <-].
Qed.

Lemma or_str_first a b : Js.or_str a b = first_of [a] b.
Proof. destruct a as [s|]; simpl; [|done]. by destruct (String.eqb s ""). Qed.

Lemma or_opt_first a b c : Js.or_str (Js.or_opt a b) c = first_of [a; b] c.
Proof.
  unfold Js.or_opt. simpl. destruct (Js.truthy_str a) eqn:E.
  - destruct a as [s|]; simpl in *; [|done]. by destruct (String.eqb s "").
  - apply or_str_first.
Qed.

(** A chosen candidate is never the empty string. *)
Lemma first_of_empty l fallback : first_of l fallback = "" → fallback = "".
Proof.
  induction l as [|c l IH]; simpl; [done|].
  destruct c as [s|]; simpl; [|done].
  case_eqb s ""; simpl; [done|]. by intros ->.
Qed.

Lemma or_str_settled l fallback fallback' :
  (fallback = "" → fallback' = "") →
  Js.or_str (Some (first_of l fallback)) fallback' = first_of l fallback.
Proof.
  intros Hf. simpl. case_eqb (first_of l fallback) ""; [|done].
  rewrite E. by apply Hf, (first_of_empty l).
Qed.

Lemma formatChat_name fmt st chat c :
  Gateway.formatChat fmt st chat = Some c → cs_name c = displayName st chat.
Proof.
  unfold Gateway.formatChat. destruct (String.eqb (chat_id chat) status_broadcast); [done|].
  intros [= <-]. cbn [cs_name].
  unfold Gateway.resolve_name, displayName. rewrite formatPhoneNumber_local.
  destruct (Js.truthy_str (chat_name chat)) eqn:Hn.
  - destruct (chat_name chat) as [n|]; [|done].
    cbn [first_of]. rewrite Hn. simpl in Hn. apply negb_true_iff in Hn.
    simpl. rewrite !Hn. simpl. rewrite ?Hn.
    by destruct (Js.endsWith (chat_id chat) "@s.whatsapp.net"),
                (Js.endsWith (chat_id chat) "@g.us").
  - cbn [first_of]. rewrite Hn.
    destruct (Js.endsWith (chat_id chat) "@s.whatsapp.net").
    + rewrite or_opt_first. by apply or_str_settled.
    + destruct (Js.endsWith (chat_id chat) "@g.us").
      * rewrite or_str_first. by apply or_str_settled.
      * done.
Qed.

(** The entries of the chat list are the summaries of the stored chats. *)
Lemma listChats_elem fmt st c :
  c ∈ Gateway.listChats fmt st ↔
  ∃ chat, chat ∈ Js.Map_values (chats st) ∧ Gateway.formatChat fmt st chat = Some c.
Proof.
  unfold Gateway.listChats. rewrite sort_perm, list_elem_of_omap.
  split.
  - intros (o & Hin & ->). apply list_elem_of_fmap in Hin as (chat & E & Hin). by exists chat.
  - intros (chat & Hin & E). exists (Some c). split; [|done].
    apply list_elem_of_fmap. by exists chat.
Qed.

Lemma no_messages_markRead jid jid' st :
  Gateway.no_messages (ConversationStore.markRead jid' st) jid = Gateway.no_messages st jid.
Proof. unfold Gateway.no_messages. by rewrite RunFacts.messages_markRead. Qed.

Lemma inherited_entry_markRead jid jid' st :
  Gateway.inherited_entry (ConversationStore.markRead jid' st) jid
  = Gateway.inherited_entry st jid.
Proof. unfold Gateway.inherited_entry. by rewrite RunFacts.messages_markRead. Qed.

Lemma inherited_entry_store_fetched jid msgs st :
  Gateway.inherited_entry (Gateway.store_fetched jid msgs st) jid = false.
Proof.
  unfold Gateway.inherited_entry, Gateway.store_fetched. simpl.
  rewrite lookup_insert_eq. rewrite bool_decide_false by done. apply andb_false_r.
Qed.

Lemma all_store_fetched jid msgs st :
  ConversationStore.all (Gateway.store_fetched jid msgs st) jid = msgs.
Proof.
  unfold ConversationStore.all, Gateway.store_fetched. simpl. by rewrite lookup_insert_eq.
Qed.

End ListFacts.

(** C5: the chat list is ordered by the formatted time of day, not by the
    timestamp: the conversation whose last message is the oldest of the
    three comes first, in front of two conversations with later messages. *)
Theorem C5_chat_list_sorted_by_time_of_day :
  map (λ c, (cs_jid c, cs_time c)) (chats_of (Gateway.getChats utc_24h "s1" three_chats))
  = [("111@s.whatsapp.net", "22:13"); ("333@s.whatsapp.net", "03:46");
     ("222@s.whatsapp.net", "01:00")]
  ∧ last_timestamp three_chats 0 "111@s.whatsapp.net" = Some 1700000000%Z
  ∧ last_timestamp three_chats 0 "333@s.whatsapp.net" = Some 1700020000%Z
  ∧ last_timestamp three_chats 0 "222@s.whatsapp.net" = Some 1700010000%Z.
Proof. by vm_compute. Qed.

(** C6: whatever the server state, the chat list [getChats] answers with
    holds no entry for the status broadcast; a message for the status
    broadcast is not stored at all; and a chat record for it that arrived by
    [chats.set] is stored but left out of the list. *)
Theorem C6_status_broadcast_never_listed :
  (∀ fmt sid w,
     Forall (λ c, cs_jid c ≠ "status@broadcast") (chats_of (Gateway.getChats fmt sid w)))
  ∧ (∀ fmt sid w,
       Gateway.getChats fmt sid w = cb_failure "Client not found"
       ∨ ∃ l, Gateway.getChats fmt sid w = cb_chats l)
  ∧ (∀ msg st,
       key_remoteJid msg = "status@broadcast" →
       ConversationStore.ingestMessage msg st = st)
  ∧ (∀ fmt,
       let status_chat :=
         {| chat_id := "status@broadcast"; chat_name := Some "Status";
            chat_subject := None; conversationTimestamp := Some 5%Z;
            unreadCount := Some 2%Z |} in
       let w := run fmt
                  [ev_chats_set 0 [status_chat];
                   ev_messages_upsert 0 "notify"
                     [text_message "S1" "status@broadcast" false 1700000000 "story";
                      text_message "M1" "111@s.whatsapp.net" false 1700000000 "first"]]
                  one_session in
       (store <$> socks w !! 0) ≫= (λ st, Js.Map_get (chats st) "status@broadcast")
       = Some status_chat
       ∧ map cs_jid (chats_of (Gateway.getChats fmt "s1" w)) = ["111@s.whatsapp.net"]).
Proof.
  split; [|split; [|split]].
  - intros fmt sid w. unfold Gateway.getChats.
    destruct (Session.client_store w sid) as [[k st]|]; simpl; [|by apply Forall_nil].
    apply Forall_forall. intros c Hin.
    apply ListFacts.listChats_elem in Hin as (chat & _ & Hc).
    apply ListFacts.formatChat_jid in Hc as [-> Hne]. exact Hne.
  - intros fmt sid w. unfold Gateway.getChats.
    destruct (Session.client_store w sid) as [[k st]|]; [right; by eexists|by left].
  - intros msg st Hj. unfold ConversationStore.ingestMessage. by rewrite Hj.
  - intros fmt. by vm_compute.
Qed.

(** C6 at a concrete message for the status broadcast. *)
Lemma C6_status_broadcast_never_listed_witness :
  key_remoteJid (text_message "S1" "status@broadcast" false 1700000000 "story")
  = "status@broadcast"
  ∧ ConversationStore.ingestMessage
      (text_message "S1" "status@broadcast" false 1700000000 "story")
      ConversationStore.empty
    = ConversationStore.empty.
Proof.
  split; [reflexivity|].
  exact (proj1 (proj2 (proj2 C6_status_broadcast_never_listed))
           (text_message "S1" "status@broadcast" false 1700000000 "story")
           ConversationStore.empty eq_refl).
Defined.

(** C7, as the claim states it, fails: a group conversation without a name
    hint and without a contact record is listed as ['Group'], not under the
    local part of its id; and for an id that does not end in
    ['@s.whatsapp.net'] the contact's notify alias is not looked at. *)
Lemma C7_precedence_depends_on_id_suffix :
  map cs_name (chats_of (Gateway.getChats utc_24h "s1" (chat_and_contacts "999@g.us" [])))
  = ["Group"]
  ∧ formatPhoneNumber "999@g.us" = "999"
  ∧ map cs_name
      (chats_of (Gateway.getChats utc_24h "s1"
         (chat_and_contacts "12345@domain"
            [{| contact_id := "12345@domain"; contact_name := None;
                contact_notify := Some "Bob" |}])))
    = ["12345"].
Proof. by vm_compute. Qed.

(** C7, amended: every entry of the chat list carries the name [displayName]
    gives for its chat record: the chat's own name if it has one; else, for
    an id ending in ['@s.whatsapp.net'], the contact's name, else the
    contact's notify alias, else the local part of the id; for an id ending
    in ['@g.us'], the subject, else ['Group']; for any other id the local
    part.  With no hint and a contact that has only the notify alias "Bob",
    ["12345@s.whatsapp.net"] is listed as "Bob"; with no contact record,
    ["12345@domain"] is listed as "12345". *)
Theorem C7_display_name_resolution :
  (∀ fmt st c,
     c ∈ Gateway.listChats fmt st →
     ∃ chat, chat ∈ Js.Map_values (chats st)
             ∧ cs_jid c = chat_id chat
             ∧ cs_name c = displayName st chat)
  ∧ (∀ fmt st chat,
       chat_id chat ≠ "status@broadcast" →
       cs_name <$> Gateway.formatChat fmt st chat = Some (displayName st chat))
  ∧ map cs_name
      (chats_of (Gateway.getChats utc_24h "s1"
         (chat_and_contacts "12345@s.whatsapp.net"
            [{| contact_id := "12345@s.whatsapp.net"; contact_name := None;
                contact_notify := Some "Bob" |}])))
    = ["Bob"]
  ∧ map cs_name
      (chats_of (Gateway.getChats utc_24h "s1" (chat_and_contacts "12345@domain" [])))
    = ["12345"].
Proof.
  split; [|split; [|split]].
  - intros fmt st c Hin.
    apply ListFacts.listChats_elem in Hin as (chat & Hin & Hc). exists chat.
    split; [done|]. split.
    + by apply (ListFacts.formatChat_jid fmt st).
    + by apply (ListFacts.formatChat_name fmt).
  - intros fmt st chat Hne.
    destruct (Gateway.formatChat fmt st chat) as [c|] eqn:E; simpl.
    + f_equal. by apply (ListFacts.formatChat_name fmt).
    + unfold Gateway.formatChat, status_broadcast in E.
      apply eqb_false in Hne. by rewrite Hne in E.
  - by vm_compute.
  - by vm_compute.
Qed.

(** C7 at a concrete chat record: a private chat without a name hint whose
    contact has only a notify alias. *)
Lemma C7_display_name_resolution_witness :
  let chat := {| chat_id := "12345@s.whatsapp.net"; chat_name := None;
                 chat_subject := None; conversationTimestamp := None;
                 unreadCount := None |} in
  let st := ConversationStore.mergeContact
              {| contact_id := "12345@s.whatsapp.net"; contact_name := None;
                 contact_notify := Some "Bob" |}
              (ConversationStore.upsertChat chat ConversationStore.empty) in
  chat_id chat ≠ "status@broadcast"
  ∧ cs_name <$> Gateway.formatChat utc_24h st chat = Some "Bob".
Proof.
  split; [done|].
  exact (proj1 (proj2 C7_display_name_resolution) utc_24h
    (ConversationStore.mergeContact
       {| contact_id := "12345@s.whatsapp.net"; contact_name := None;
          contact_notify := Some "Bob" |}
       (ConversationStore.upsertChat
          {| chat_id := "12345@s.whatsapp.net"; chat_name := None;
             chat_subject := None; conversationTimestamp := None;
             unreadCount := None |} ConversationStore.empty))
    {| chat_id := "12345@s.whatsapp.net"; chat_name := None;
       chat_subject := None; conversationTimestamp := None;
       unreadCount := None |} ltac:(done)).
Defined.

(** C10, as the claim states it, fails: for a conversation the store knows
    nothing about, [getChatMessages] first asks the Protocol Client for the
    history, and what comes back is what it answers with. *)
Lemma C10_fetched_history_is_returned :
  (store <$> socks one_session !! 0) ≫= (λ st, messages st !! "555@s.whatsapp.net") = None
  ∧ snd (Gateway.getChatMessages utc_24h "s1" "555@s.whatsapp.net" Returns
           (Some [text_message "H1" "555@s.whatsapp.net" false 1700000000 "old"])
           one_session)
    = cb_messages [{| ms_id := "H1"; ms_fromMe := false; ms_text := "old";
                      ms_time := "22:13"; ms_timestamp := Some 1700000000%Z |}].
Proof. by vm_compute. Qed.

(** C10, amended: for a registered session and a conversation with no
    stored messages (no entry, or an empty one) whose id is not read from
    [Object.prototype], [getChatMessages] does not fail: it answers
    [{ success: true, messages }] with the history the Protocol Client
    returned, formatted and sorted, and so with the empty list when the
    history request threw or returned nothing; the handler of
    [backup4_server.js], which requests no history, answers with the empty
    list.  The part of the command that runs once the history request has
    settled answers the same way on whatever the store holds by then: with
    the returned history, or, when the request threw, with the messages
    stored at that moment. *)
Theorem C10_no_stored_messages fmt sid jid read fetch w k st :
  Session.client_store w sid = Some (k, st) →
  Gateway.no_messages st jid = true →
  Gateway.inherited_entry st jid = false →
  snd (Gateway.getChatMessages fmt sid jid read fetch w)
  = cb_messages (Js.sort Gateway.compareMessages
                   (map (Gateway.formatMessage fmt) (default [] fetch)))
  ∧ (fetch = None ∨ fetch = Some [] →
     snd (Gateway.getChatMessages fmt sid jid read fetch w) = cb_messages [])
  ∧ Gateway.getChatMessages_backup4 fmt sid jid w = cb_messages []
  ∧ (∀ st', Gateway.inherited_entry st' jid = false →
       snd (Gateway.getChatMessages_fetched fmt jid fetch st')
       = cb_messages
           match fetch with
           | Some msgs => Js.sort Gateway.compareMessages (map (Gateway.formatMessage fmt) msgs)
           | None => Gateway.listMessages fmt st' jid
           end).
Proof.
  intros Hcs Hno Hown.
  assert (∀ st', Gateway.no_messages st' jid = true → ConversationStore.all st' jid = [])
    as Hempty.
  { intros st'. unfold Gateway.no_messages, ConversationStore.all.
    by destruct (messages st' !! jid) as [[|m l]|]. }
  assert (∀ st', Gateway.inherited_entry st' jid = false →
            Gateway.answer fmt st' jid = cb_messages (Gateway.listMessages fmt st' jid))
    as Hanswer.
  { intros st' Hown'. unfold Gateway.answer. rewrite Hown'.
    destruct (Gateway.no_messages st' jid) eqn:E; [|done].
    unfold Gateway.listMessages. by rewrite (Hempty _ E). }
  assert (∀ msgs st', Gateway.inherited_entry (Gateway.store_fetched jid msgs st') jid = false)
    as Hstored.
  { intros msgs st'. unfold Gateway.inherited_entry, Gateway.store_fetched. simpl.
    rewrite lookup_insert_eq. rewrite bool_decide_false by done. apply andb_false_r. }
  assert (snd (Gateway.getChatMessages fmt sid jid read fetch w)
          = cb_messages (Js.sort Gateway.compareMessages
                           (map (Gateway.formatMessage fmt) (default [] fetch)))) as Hmain.
  { unfold Gateway.getChatMessages. rewrite Hcs. cbn [snd].
    assert (Gateway.no_messages (Gateway.after_read jid read st) jid = true) as Hno'.
    { destruct read; simpl; [|done]. by rewrite ListFacts.no_messages_markRead. }
    assert (Gateway.inherited_entry (Gateway.after_read jid read st) jid = false) as Hown'.
    { destruct read; simpl; [|done]. by rewrite ListFacts.inherited_entry_markRead. }
    unfold Gateway.after_fetch. rewrite Hown', Hno'.
    destruct fetch as [msgs|]; simpl.
    - rewrite Hanswer by apply Hstored.
      unfold Gateway.listMessages. by rewrite ListFacts.all_store_fetched.
    - rewrite Hanswer by done. unfold Gateway.listMessages. by rewrite (Hempty _ Hno'). }
  split; [exact Hmain|]. split; [|split].
  - intros [->| ->]; by rewrite Hmain.
  - unfold Gateway.getChatMessages_backup4. rewrite Hcs.
    unfold Gateway.no_messages in Hno. unfold Gateway.inherited_entry in Hown.
    destruct (messages st !! jid) as [[|m l]|] eqn:E; try done.
    + unfold Gateway.listMessages, ConversationStore.all. by rewrite E.
    + rewrite bool_decide_true in Hown by done. rewrite andb_true_r in Hown.
      by rewrite Hown.
  - intros st' Hown'. unfold Gateway.getChatMessages_fetched. cbn [snd].
    destruct fetch as [msgs|].
    + rewrite Hanswer by apply Hstored.
      unfold Gateway.listMessages. by rewrite ListFacts.all_store_fetched.
    + by apply Hanswer.
Qed.

(** C10 at the one-session server, whose store is empty: the history
    request throws. *)
Lemma C10_no_stored_messages_witness :
  Session.client_store one_session "s1" = Some (0, ConversationStore.empty)
  ∧ Gateway.no_messages ConversationStore.empty "555@s.whatsapp.net" = true
  ∧ Gateway.inherited_entry ConversationStore.empty "555@s.whatsapp.net" = false
  ∧ snd (Gateway.getChatMessages utc_24h "s1" "555@s.whatsapp.net" Returns None one_session)
    = cb_messages [].
Proof.
  split; [reflexivity|]. split; [reflexivity|]. split; [reflexivity|].
  exact (proj1 (C10_no_stored_messages utc_24h "s1" "555@s.whatsapp.net" Returns None
                  one_session 0 ConversationStore.empty eq_refl eq_refl eq_refl)).
Defined.

(** For a conversation id that names a member of [Object.prototype] the
    lookup in the store's message dictionary finds that member, and the
    command answers [success: false]. *)
Remark getChatMessages_of_inherited_name :
  Gateway.no_messages ConversationStore.empty "constructor" = true
  ∧ snd (Gateway.getChatMessages utc_24h "s1" "constructor" Returns (Some []) one_session)
    = cb_failure "sock.store.messages[jid].all is not a function"
  ∧ Gateway.getChatMessages_backup4 utc_24h "s1" "constructor" one_session
    = cb_failure "sock.store.messages[jid].all is not a function".
Proof. by vm_compute. Qed.

(** In [backup4_server.js] the same message delivered twice is stored
    twice: the duplicate check exists only in [server.js]. *)
Remark backup4_stores_duplicates :
  let m := text_message "A1" "111@s.whatsapp.net" false 10 "one" in
  StoreProps.count_id "A1"
    (ConversationStore.ingestMessage_backup4 m
       (ConversationStore.ingestMessage_backup4 m ConversationStore.empty))
    "111@s.whatsapp.net" = 2.
Proof. by vm_compute. Qed.

(** * Further properties of the server *)

(** ** Sorting *)

Module SortFacts.
Import Invariants.

Section Sorted.
Context {A : Type} (cmp : A → A → Z) (R : relation A).
Hypothesis R_trans : Transitive R.
Hypothesis cmp_neg : ∀ x y, (cmp x y < 0)%Z → R x y.
Hypothesis cmp_nonneg : ∀ x y, (0 ≤ cmp x y)%Z → R y x.

Lemma sort_insert_sorted x l :
  StronglySorted R l → StronglySorted R (Js.sort_insert cmp x l).
Proof.
  induction l as [|y l IH]; intros Hs; simpl.
  - apply SSorted_cons; [apply SSorted_nil|apply Forall_nil_2].
  - apply StronglySorted_inv in Hs as [Hs Hy].
    destruct (cmp x y <? 0)%Z eqn:E.
    + apply Z.ltb_lt in E. apply SSorted_cons.
      * by apply SSorted_cons.
      * apply Forall_cons. split; [by apply cmp_neg|].
        eapply Forall_impl; [exact Hy|]. intros z Hz.
        transitivity y; [by apply cmp_neg|done].
    + apply Z.ltb_ge in E. apply SSorted_cons; [by apply IH|].
      rewrite sort_insert_perm. apply Forall_cons. split; [by apply cmp_nonneg|done].
Qed.

Lemma sort_sorted_acc l : ∀ acc,
  StronglySorted R acc →
  StronglySorted R (fold_left (λ acc x, Js.sort_insert cmp x acc) l acc).
Proof.
  induction l as [|x l IH]; intros acc Hs; simpl; [done|].
  by apply IH, sort_insert_sorted.
Qed.

Lemma sort_sorted l : StronglySorted R (Js.sort cmp l).
Proof. apply sort_sorted_acc, SSorted_nil. Qed.

End Sorted.

(** [String.compare] is the lexicographic order of the ordered type of
    strings. *)
Lemma compare_OT a : ∀ b, String.compare a b = OrdersEx.String_as_OT.compare a b.
Proof.
  induction a as [|c a IH]; intros [|d b]; simpl; try done.
Qed.

Lemma compare_Lt_trans a b c :
  String.compare a b = Lt → String.compare b c = Lt → String.compare a c = Lt.
Proof.
  rewrite !compare_OT. intros H1 H2.
  exact (StrictOrder_Transitive (R := OrdersEx.String_as_OT.lt) a b c H1 H2).
Qed.

Lemma compare_refl a : String.compare a a = Eq.
Proof.
  destruct (String.compare a a) eqn:E; [done| |];
    pose proof (String.compare_antisym a a) as H; rewrite E in H; done.
Qed.

(** "Not greater" is transitive. *)
Lemma compare_not_Gt_trans a b c :
  String.compare a b ≠ Gt → String.compare b c ≠ Gt → String.compare a c ≠ Gt.
Proof.
  intros H1 H2.
  destruct (String.compare a b) eqn:E1; [|clear H1|done].
  - apply String.compare_eq_iff in E1. by subst.
  - destruct (String.compare b c) eqn:E2; [|clear H2|done].
    + apply String.compare_eq_iff in E2. subst. by rewrite E1.
    + by rewrite (compare_Lt_trans a b c).
Qed.

Global Instance chat_before_trans : Transitive chat_before.
Proof.
  intros a b c Hab [Hc|(Hb & Hc & Hbc)]; [by left|].
  destruct Hab as [Hb'|(Ha & _ & Hab)]; [done|].
  right. repeat split; try done. by apply (compare_not_Gt_trans _ (cs_time b)).
Qed.

Lemma compareChats_neg a b :
  (Gateway.compareChats a b < 0)%Z → chat_before a b.
Proof.
  unfold Gateway.compareChats, chat_before.
  case_eqb (cs_time a) ""; [lia|].
  case_eqb (cs_time b) ""; [by left|].
  unfold Js.localeCompare. intros H. right. repeat split; try done.
  destruct (String.compare (cs_time b) (cs_time a)); [done|done|lia].
Qed.

Lemma compareChats_nonneg a b :
  (0 ≤ Gateway.compareChats a b)%Z → chat_before b a.
Proof.
  unfold Gateway.compareChats, chat_before.
  case_eqb (cs_time a) ""; [by left|].
  case_eqb (cs_time b) ""; [lia|].
  unfold Js.localeCompare. intros H. right. repeat split; try done.
  rewrite String.compare_antisym.
  destruct (String.compare (cs_time b) (cs_time a)); simpl; [done|lia|done].
Qed.

Global Instance message_before_trans : Transitive message_before.
Proof.
  intros a b c [Ha|(Ha & Hb & Hab)] Hbc; [by left|].
  destruct Hbc as [Hb'|(_ & Hc & Hbc)]; [congruence|].
  right. repeat split; try done. lia.
Qed.

Lemma compareMessages_neg a b :
  (Gateway.compareMessages a b < 0)%Z → message_before a b.
Proof.
  unfold Gateway.compareMessages, message_before.
  destruct (Js.truthy_num (ms_timestamp a)); simpl; [|by left].
  destruct (Js.truthy_num (ms_timestamp b)); simpl; [|lia].
  intros H. right. repeat split; try done. lia.
Qed.

Lemma compareMessages_nonneg a b :
  (0 ≤ Gateway.compareMessages a b)%Z → message_before b a.
Proof.
  unfold Gateway.compareMessages, message_before.
  destruct (Js.truthy_num (ms_timestamp a)); simpl; [|lia].
  destruct (Js.truthy_num (ms_timestamp b)); simpl; [|by left].
  intros H. right. repeat split; try done. lia.
Qed.

End SortFacts.

(** ** The chat list and the message list, as the code orders them *)

Module ListingFacts.

Lemma omap_formatChat fmt st (l : list Chat) :
  map (λ c, (cs_jid c, cs_unread c)) (omap (Gateway.formatChat fmt st) l)
  = map (λ chat, (chat_id chat, Js.or_zero (unreadCount chat)))
      (filter (λ chat, chat_id chat ≠ status_broadcast) l).
Proof.
  induction l as [|chat l IH]; [done|].
  rewrite filter_cons. simpl.
  destruct (Gateway.formatChat fmt st chat) as [c|] eqn:E;
    unfold Gateway.formatChat in E;
    destruct (String.eqb (chat_id chat) status_broadcast) eqn:Eb; try done.
  - apply eqb_false in Eb. injection E as <-.
    rewrite decide_True by done. simpl. by rewrite <- IH.
  - apply eqb_true in Eb. rewrite decide_False by (intros H; by apply H). done.
Qed.

Lemma omap_map_id {A B} (f : A → option B) (l : list A) :
  omap (λ c, c) (map f l) = omap f l.
Proof.
  induction l as [|x l IH]; simpl; [done|].
  destruct (f x); simpl; by f_equal.
Qed.

End ListingFacts.

(** X5: whatever the store and the locale, the chat list is ordered by the
    formatted time: the entries that have a time come first, by descending
    time string, and the entries without a time come last. *)
Theorem X5_chat_list_order fmt st :
  StronglySorted Invariants.chat_before (Gateway.listChats fmt st).
Proof.
  unfold Gateway.listChats.
  apply (SortFacts.sort_sorted Gateway.compareChats Invariants.chat_before).
  - apply SortFacts.chat_before_trans.
  - apply SortFacts.compareChats_neg.
  - apply SortFacts.compareChats_nonneg.
Qed.

(** X6: the chat list has exactly one entry for each stored chat other than
    the status broadcast, with the chat's id and with [unreadCount || 0] as
    its unread count: nothing is dropped or added by the sort. *)
Theorem X6_chat_list_entries fmt st :
  map (λ c, (cs_jid c, cs_unread c)) (Gateway.listChats fmt st)
  ≡ₚ map (λ chat, (chat_id chat, Js.or_zero (unreadCount chat)))
       (filter (λ chat, chat_id chat ≠ status_broadcast) (Js.Map_values (chats st))).
Proof.
  unfold Gateway.listChats. rewrite sort_perm, ListingFacts.omap_map_id.
  by rewrite <- (ListingFacts.omap_formatChat fmt st).
Qed.

(** X7: for a registered session and a conversation with stored messages,
    [getChatMessages] answers with the stored messages, formatted, each
    exactly once, and does not use the history of the Protocol Client; the
    messages without a timestamp come first and the others follow by
    ascending timestamp. *)
Theorem X7_message_list_order fmt sid jid read fetch w k st :
  Session.client_store w sid = Some (k, st) →
  Gateway.no_messages st jid = false →
  ∃ l, snd (Gateway.getChatMessages fmt sid jid read fetch w) = cb_messages l
       ∧ l ≡ₚ map (Gateway.formatMessage fmt) (ConversationStore.all st jid)
       ∧ StronglySorted Invariants.message_before l.
Proof.
  intros Hcs Hno. unfold Gateway.getChatMessages. rewrite Hcs. cbn [snd].
  assert (Gateway.no_messages (Gateway.after_read jid read st) jid = false) as Hno'.
  { destruct read; simpl; [|done]. by rewrite ListFacts.no_messages_markRead. }
  assert (ConversationStore.all (Gateway.after_read jid read st) jid
          = ConversationStore.all st jid) as Hall.
  { destruct read; simpl; [|done].
    unfold ConversationStore.all. by rewrite RunFacts.messages_markRead. }
  assert (Gateway.inherited_entry (Gateway.after_read jid read st) jid = false) as Hown.
  { unfold Gateway.inherited_entry, Gateway.no_messages in *.
    destruct (messages (Gateway.after_read jid read st) !! jid); [|done].
    rewrite bool_decide_false by done. apply andb_false_r. }
  unfold Gateway.answer, Gateway.after_fetch. rewrite Hown, Hno', Hown, Hno'.
  exists (Gateway.listMessages fmt (Gateway.after_read jid read st) jid).
  split; [done|]. unfold Gateway.listMessages. rewrite Hall. split.
  - apply sort_perm.
  - apply (SortFacts.sort_sorted Gateway.compareMessages Invariants.message_before).
    + apply SortFacts.message_before_trans.
    + apply SortFacts.compareMessages_neg.
    + apply SortFacts.compareMessages_nonneg.
Qed.

(** X7 at the server with three conversations: the one stored message of
    ["111@s.whatsapp.net"] is listed, and the history handed in is not. *)
Lemma X7_message_list_order_witness :
  Session.client_store three_chats "s1"
  = Some (0, default ConversationStore.empty (store <$> socks three_chats !! 0))
  ∧ snd (Gateway.getChatMessages utc_24h "s1" "111@s.whatsapp.net" Returns
           (Some [text_message "H1" "111@s.whatsapp.net" false 5 "history"]) three_chats)
    = cb_messages [{| ms_id := "M1"; ms_fromMe := false; ms_text := "first";
                      ms_time := "22:13"; ms_timestamp := Some 1700000000%Z |}].
Proof.
  assert (Session.client_store three_chats "s1"
          = Some (0, default ConversationStore.empty (store <$> socks three_chats !! 0)))
    as Hcs by (by vm_compute).
  assert (Gateway.no_messages
            (default ConversationStore.empty (store <$> socks three_chats !! 0))
            "111@s.whatsapp.net" = false) as Hno by (by vm_compute).
  split; [exact Hcs|].
  destruct (X7_message_list_order utc_24h "s1" "111@s.whatsapp.net" Returns
              (Some [text_message "H1" "111@s.whatsapp.net" false 5 "history"])
              three_chats 0 _ Hcs Hno) as (l & Hl & _).
  by vm_compute.
Defined.

(** ** What the steps do to the registry, the status table and the sockets *)

Module WorldFacts.
Import Session Invariants.
Export FolderFacts.

Lemma clients_on_store k f w : clients (on_store k f w) = clients w.
Proof. unfold on_store. by destruct (socks w !! k). Qed.

Lemma status_on_store k f w : sessionStatus (on_store k f w) = sessionStatus w.
Proof. unfold on_store. by destruct (socks w !! k). Qed.

Lemma timers_on_store k f w : timers (on_store k f w) = timers w.
Proof. unfold on_store. by destruct (socks w !! k). Qed.

Lemma emitted_on_store k f w : emitted (on_store k f w) = emitted w.
Proof. unfold on_store. by destruct (socks w !! k). Qed.

Lemma dir_on_store k f w : sessionsDir (on_store k f w) = sessionsDir w.
Proof. unfold on_store. by destruct (socks w !! k). Qed.

(** The sockets after a store operation on socket [k]. *)
Lemma socks_on_store k f w :
  socks (on_store k f w)
  = match socks w !! k with
    | Some s => <[k := {| sock_session := sock_session s; store := f (store s) |}]> (socks w)
    | None => socks w
    end.
Proof. unfold on_store. by destruct (socks w !! k). Qed.

Lemma lookup_on_store k f w k' :
  socks (on_store k f w) !! k'
  = (λ s, if decide (k = k')
          then {| sock_session := sock_session s; store := f (store s) |}
          else s) <$> socks w !! k'.
Proof.
  rewrite socks_on_store. destruct (socks w !! k) as [s|] eqn:E.
  - destruct (decide (k = k')) as [<-|Hne].
    + rewrite list_lookup_insert_eq by (by eapply lookup_lt_Some). by rewrite E.
    + rewrite list_lookup_insert_ne by done. by destruct (socks w !! k') as [[]|].
  - destruct (decide (k = k')) as [<-|Hne].
    + by rewrite E.
    + by destruct (socks w !! k') as [[]|].
Qed.

(** The fields [createWhatsAppClient] writes. *)
Lemma create_fields sid o w :
  let w' := createWhatsAppClient sid o w in
  match o with
  | SocketMade =>
      clients w' = <[sid := length (socks w)]> (clients w)
      ∧ sessionStatus w' = <[sid := Connecting]> (sessionStatus w)
      ∧ socks w' = socks w ++ [{| sock_session := sid; store := ConversationStore.empty |}]
      ∧ emitted w' = emitted w
  | AuthStateThrows msg | MakeSocketThrows msg =>
      clients w' = clients w
      ∧ sessionStatus w' = <[sid := Error]> (sessionStatus w)
      ∧ socks w' = socks w
      ∧ emitted w' = emitted w ++ [error sid msg]
  end
  ∧ timers w' = timers w.
Proof.
  destruct o; simpl;
    by rewrite ?clients_ensure_folder, ?status_ensure_folder, ?socks_ensure_folder,
      ?timers_ensure_folder, ?emitted_ensure_folder.
Qed.

Lemma create_made sid w :
  let w' := createWhatsAppClient sid SocketMade w in
  clients w' = <[sid := length (socks w)]> (clients w)
  ∧ sessionStatus w' = <[sid := Connecting]> (sessionStatus w)
  ∧ socks w' = socks w ++ [{| sock_session := sid; store := ConversationStore.empty |}]
  ∧ emitted w' = emitted w.
Proof. by destruct (create_fields sid SocketMade w) as [H _]. Qed.

Lemma create_failed sid o msg w :
  o = AuthStateThrows msg ∨ o = MakeSocketThrows msg →
  let w' := createWhatsAppClient sid o w in
  clients w' = clients w
  ∧ sessionStatus w' = <[sid := Error]> (sessionStatus w)
  ∧ socks w' = socks w
  ∧ emitted w' = emitted w ++ [error sid msg].
Proof.
  intros [-> | ->].
  - by destruct (create_fields sid (AuthStateThrows msg) w) as [H _].
  - by destruct (create_fields sid (MakeSocketThrows msg) w) as [H _].
Qed.

Global Instance socks_extend_refl : Reflexive socks_extend.
Proof. intros l. split; [done|]. intros k s H. by exists s. Qed.

Global Instance socks_extend_trans : Transitive socks_extend.
Proof.
  intros l1 l2 l3 [H1 H1'] [H2 H2']. split; [lia|].
  intros k s Hs. destruct (H1' k s Hs) as (s' & Hs' & E).
  destruct (H2' k s' Hs') as (s'' & Hs'' & E'). exists s''. split; [done|congruence].
Qed.

Lemma socks_extend_on_store k f w : socks_extend (socks w) (socks (on_store k f w)).
Proof.
  split.
  - rewrite socks_on_store. destruct (socks w !! k); [by rewrite length_insert|done].
  - intros k' s Hs. rewrite lookup_on_store, Hs. simpl.
    eexists. split; [done|]. by destruct (decide (k = k')).
Qed.

Lemma socks_extend_app l x : socks_extend l (l ++ [x]).
Proof.
  split; [rewrite length_app; lia|].
  intros k s Hs. exists s. split; [|done]. by apply lookup_app_l_Some.
Qed.

Lemma socks_extend_create sid o w :
  socks_extend (socks w) (socks (createWhatsAppClient sid o w)).
Proof.
  pose proof (create_fields sid o w) as [H _]. simpl in H.
  destruct o; destruct H as (_ & _ & -> & _); try reflexivity.
  apply socks_extend_app.
Qed.

End WorldFacts.

Module StepFacts.
Import Session Invariants WorldFacts.

Lemma StoreOp_fold {A} b (f : A → Store → Store) (l : list A) :
  (∀ x, StoreOp b (f x)) → StoreOp b (λ st, fold_left (λ acc x, f x acc) l st).
Proof.
  intros Hf. induction l as [|x l IH]; simpl; [apply op_id|].
  apply (op_comp (f x) _ (Hf x) IH).
Qed.

Lemma on_store_ext k f g w :
  (∀ st, f st = g st) → on_store k f w = on_store k g w.
Proof. intros E. unfold on_store. destruct (socks w !! k); [|done]. by rewrite E. Qed.

Lemma socks_on_store_congr k f w1 w2 :
  socks w1 = socks w2 → socks (on_store k f w1) = socks (on_store k f w2).
Proof. intros E. by rewrite !socks_on_store, E. Qed.

Lemma socks_on_store_comp k f g w :
  socks (on_store k g (on_store k f w)) = socks (on_store k (λ st, g (f st)) w).
Proof.
  apply list_eq. intros k'. rewrite !lookup_on_store.
  destruct (socks w !! k') as [s|]; simpl; [|done].
  by destruct (decide (k = k')).
Qed.

Lemma socks_on_store_id k w : socks (on_store k (λ st, st) w) = socks w.
Proof.
  apply list_eq. intros k'. rewrite lookup_on_store.
  destruct (socks w !! k') as [[]|]; simpl; [|done]. by destruct (decide (k = k')).
Qed.

(** The registry, the status table and the sockets after a
    [connection.update]. *)
Lemma connection_update_fields k update w s :
  socks w !! k = Some s →
  let w' := on_connection_update k update w in
  socks w' = socks w
  ∧ (clients w' = clients w
     ∧ (sessionStatus w' = sessionStatus w
        ∨ ∃ x, x ≠ LoggedOut ∧
            (sessionStatus w' = <[sock_session s := x]> (sessionStatus w)
             ∨ ∃ y, sessionStatus w'
                    = <[sock_session s := x]> (<[sock_session s := y]> (sessionStatus w))))
     ∨ clients w' = delete (sock_session s) (clients w)).
Proof.
  intros Hs. unfold on_connection_update. rewrite Hs.
  destruct (Js.truthy_str (qr update));
    destruct (connection update) as [[]|]; simpl;
    rewrite ?socks_write_file, ?clients_write_file, ?status_write_file; simpl;
    try case_bool_decide; simpl;
    (split; [done|]); try (by right);
    left; (split; [done|]); try (by left);
    right;
    first [ by (exists Connected; split; [done|]; left)
          | by (exists Connected; split; [done|]; right; eexists)
          | by (exists Reconnecting; split; [done|]; left)
          | by (exists Reconnecting; split; [done|]; right; eexists)
          | by (exists QrGenerated; split; [done|]; left) ].
Qed.

Lemma message_update_socks b k u w :
  ∃ f, StoreOp b f ∧ socks (on_message_update k u w) = socks (on_store k f w).
Proof.
  unfold on_message_update.
  destruct (socks w !! k) as [s|] eqn:E;
    [|exists (λ st, st); split; [apply op_id|by rewrite socks_on_store_id]].
  destruct (String.eqb _ _);
    [exists (λ st, st); split; [apply op_id|by rewrite socks_on_store_id]|].
  case_bool_decide;
    [|exists (λ st, st); split; [apply op_id|by rewrite socks_on_store_id]].
  destruct (Js.Map_has _ _);
    [|exists (λ st, st); split; [apply op_id|by rewrite socks_on_store_id]].
  exists (ConversationStore.markRead (upd_remoteJid u)). split; [apply op_read|done].
Qed.

Lemma messages_update_socks b k l : ∀ w,
  ∃ f, StoreOp b f ∧ socks (on_messages_update k l w) = socks (on_store k f w).
Proof.
  unfold on_messages_update.
  induction l as [|u l IH]; intros w; simpl.
  - exists (λ st, st). split; [apply op_id|by rewrite socks_on_store_id].
  - destruct (IH (on_message_update k u w)) as (g & Hg & Eg).
    destruct (message_update_socks b k u w) as (f & Hf & Ef).
    exists (λ st, g (f st)). split; [by apply op_comp|].
    rewrite Eg, (socks_on_store_congr k g _ (on_store k f w)) by done.
    apply socks_on_store_comp.
Qed.

Lemma messages_update_clients k l : ∀ w,
  clients (on_messages_update k l w) = clients w
  ∧ sessionStatus (on_messages_update k l w) = sessionStatus w.
Proof.
  unfold on_messages_update.
  induction l as [|u l IH]; intros w; simpl; [done|].
  destruct (IH (on_message_update k u w)) as [-> ->].
  unfold on_message_update. destruct (socks w !! k); [|done].
  destruct (String.eqb _ _); [done|]. case_bool_decide; [|done].
  destruct (Js.Map_has _ _); [|done]. simpl.
  by rewrite clients_on_store, status_on_store.
Qed.

(** What a step does to the list of sockets: nothing, a store operation on
    one socket, or one new socket with an empty store at the end. *)
Lemma step_socks fmt s w :
  socks (step fmt s w) = socks w
  ∨ (∃ k f, StoreOp (loads_history s) f ∧ socks (step fmt s w) = socks (on_store k f w))
  ∨ (may_construct s = true
     ∧ ∃ sid, socks (step fmt s w)
              = socks w ++ [{| sock_session := sid; store := ConversationStore.empty |}]).
Proof.
  destruct s; simpl.
  - left. destruct (socks w !! k) as [s|] eqn:E.
    + by destruct (connection_update_fields k update w s E) as [? _].
    + unfold on_connection_update. by rewrite E.
  - unfold on_messages_upsert. destruct (socks w !! k); [|by left].
    destruct (String.eqb type "notify"); [|by left].
    right; left. exists k, (ConversationStore.ingestAll msgs). split; [|done].
    apply (StoreOp_fold _ ConversationStore.ingestMessage), @op_ingest.
  - right; left. exists k, (ConversationStore.upsertChats l). split; [|done].
    apply (StoreOp_fold _ ConversationStore.upsertChat), @op_upsert.
  - right; left. exists k, (ConversationStore.upsertChats l). split; [|done].
    apply (StoreOp_fold _ ConversationStore.upsertChat), @op_upsert.
  - right; left. exists k, (ConversationStore.mergeContacts l). split; [|done].
    apply (StoreOp_fold _ ConversationStore.mergeContact), @op_merge.
  - right; left. destruct (messages_update_socks false k updates w) as (f & Hf & E).
    by exists k, f.
  - left. unfold on_creds_update. destruct (socks w !! k); [|done].
    by rewrite socks_write_file, socks_ensure_folder.
  - unfold fireTimer. destruct (timers w) as [|t rest]; [by left|].
    unfold reconnectCallback. simpl.
    destruct (sessionStatus w !! timer_session t) as [[]|]; try by left.
    pose proof (create_fields (timer_session t) o
                  (delete_client (timer_session t) (set_timers rest w))) as [H _].
    simpl in H. destruct o; destruct H as (_ & _ & -> & _); try by left.
    right; right. split; [done|]. by eexists.
  - unfold Gateway.generateQR. destruct (clients w !! sessionId); simpl; [by left|].
    destruct (Js.prototype_key sessionId); simpl; [by left|].
    pose proof (create_fields sessionId o w) as [H _].
    simpl in H. destruct o; destruct H as (_ & _ & -> & _); try by left.
    right; right. split; [done|]. by eexists.
  - unfold Gateway.reconnectSession.
    destruct (sessionExists sessionId w); simpl; [|by left].
    pose proof (create_fields sessionId o (delete_client sessionId w)) as [H _].
    simpl in H. destruct o; destruct H as (_ & _ & -> & _); try by left.
    right; right. split; [done|]. by eexists.
  - unfold Gateway.getChatMessages.
    destruct (client_store w sessionId) as [[k st]|] eqn:E; simpl; [|by left].
    right; left.
    exists k, (λ st, Gateway.after_fetch jid fetch (Gateway.after_read jid read st)).
    split.
    + apply (op_comp (Gateway.after_read jid read) (Gateway.after_fetch jid fetch));
        [|by apply op_fetch].
      destruct read; [apply op_read|apply op_id].
    + unfold client_store in E. destruct (clients w !! sessionId) as [k'|]; [|done].
      destruct (socks w !! k') as [s|] eqn:Es; [|done]. injection E as <- <-.
      by rewrite !socks_on_store, Es.
  - unfold Gateway.markChatAsRead.
    destruct (client_store w sessionId) as [[k st]|]; simpl; [|by left].
    destruct read; simpl; [|by left].
    right; left. exists k, (ConversationStore.markRead jid). split; [apply op_read|done].
  - left. unfold Gateway.logout. destruct (clients w !! sessionId); [|done].
    destruct o; simpl; by rewrite ?socks_remove_folder.
Qed.

End StepFacts.

(** ** Invariants of the stores along a run *)

Module StoreInvariants.
Import Session Invariants WorldFacts StepFacts.

Section Unary.
Variable P : Store → Prop.
Hypothesis P_empty : P ConversationStore.empty.
Hypothesis P_ingest : ∀ msg st, P st → P (ConversationStore.ingestMessage msg st).
Hypothesis P_upsert : ∀ chat st, P st → P (ConversationStore.upsertChat chat st).
Hypothesis P_merge : ∀ contact st, P st → P (ConversationStore.mergeContact contact st).
Hypothesis P_read : ∀ jid st, P st → P (ConversationStore.markRead jid st).
Hypothesis P_fetch : ∀ jid fetch st, P st → P (Gateway.after_fetch jid fetch st).

Lemma StoreOp_preserves b f : StoreOp b f → ∀ st, P st → P (f st).
Proof.
  induction 1 as [| | | | | |f g _ IHf _ IHg|f g E _ IH]; intros st Hst; auto.
  rewrite <- E. by apply IH.
Qed.

Lemma all_stores_step fmt s w :
  (∀ k x, socks w !! k = Some x → P (store x)) →
  ∀ k x, socks (step fmt s w) !! k = Some x → P (store x).
Proof.
  intros Hw k x.
  destruct (step_socks fmt s w) as [->|[(k' & f & Hf & ->)|(_ & sid & ->)]].
  - apply Hw.
  - rewrite lookup_on_store. destruct (socks w !! k) as [y|] eqn:E; [|done].
    simpl. intros [= <-]. destruct (decide (k' = k)); simpl.
    + eapply StoreOp_preserves; [done|]. by apply (Hw k).
    + by apply (Hw k).
  - intros [H|[_ H]]%lookup_app_Some.
    + by apply (Hw k).
    + apply list_lookup_singleton_Some in H as [_ <-]. exact P_empty.
Qed.

Lemma all_stores_run fmt steps : ∀ w,
  (∀ k x, socks w !! k = Some x → P (store x)) →
  ∀ k x, socks (run fmt steps w) !! k = Some x → P (store x).
Proof.
  induction steps as [|s steps IH]; intros w Hw; simpl; [done|].
  apply IH. by apply all_stores_step.
Qed.

End Unary.

Section Binary.
Variable R : Store → Store → Prop.
Hypothesis R_refl : ∀ st, R st st.
Hypothesis R_trans : ∀ a b c, R a b → R b c → R a c.
Hypothesis R_ingest : ∀ msg st, R st (ConversationStore.ingestMessage msg st).
Hypothesis R_upsert : ∀ chat st, R st (ConversationStore.upsertChat chat st).
Hypothesis R_merge : ∀ contact st, R st (ConversationStore.mergeContact contact st).
Hypothesis R_read : ∀ jid st, R st (ConversationStore.markRead jid st).

Lemma StoreOp_related f : StoreOp false f → ∀ st, R st (f st).
Proof.
  induction 1 as [| | | | | |f g _ IHf _ IHg|f g E _ IH]; intros st; auto.
  - done.
  - by apply (R_trans _ (f st)).
  - rewrite <- E. apply IH.
Qed.

Lemma related_step fmt s w k x :
  loads_history s = false →
  socks w !! k = Some x →
  ∃ x', socks (step fmt s w) !! k = Some x' ∧ R (store x) (store x').
Proof.
  intros Hh Hx.
  destruct (step_socks fmt s w) as [->|[(k' & f & Hf & ->)|(_ & sid & ->)]].
  - by exists x.
  - rewrite lookup_on_store, Hx. simpl. eexists. split; [done|].
    rewrite Hh in Hf.
    destruct (decide (k' = k)); simpl; [by apply StoreOp_related|done].
  - exists x. split; [by apply lookup_app_l_Some|done].
Qed.

Lemma related_run fmt steps : ∀ w k x,
  Forall (λ s, loads_history s = false) steps →
  socks w !! k = Some x →
  ∃ x', socks (run fmt steps w) !! k = Some x' ∧ R (store x) (store x').
Proof.
  induction steps as [|s steps IH]; intros w k x Hh Hx; simpl; [by exists x|].
  apply Forall_cons in Hh as [Hs Hh].
  destruct (related_step fmt s w k x Hs Hx) as (x1 & H1 & R1).
  destruct (IH _ k x1 Hh H1) as (x2 & H2 & R2).
  exists x2. split; [done|]. by apply (R_trans _ (store x1)).
Qed.

End Binary.

(** *** The chat map keeps its keys apart *)

Lemma Map_set_key {V} (m : Js.Map V) k v key :
  key ∈ map fst (Js.Map_set m k v) → key = k ∨ key ∈ map fst m.
Proof.
  induction m as [|[k' v'] m IH]; simpl.
  - intros H. apply list_elem_of_singleton in H. by left.
  - case_eqb k' k; simpl.
    + intros [->|H]%elem_of_cons; [by left|]. right. by apply list_elem_of_further.
    + intros [->|H]%elem_of_cons; [right; apply list_elem_of_here|].
      destruct (IH H) as [->|H']; [by left|]. right. by apply list_elem_of_further.
Qed.

Lemma Map_set_NoDup {V} (m : Js.Map V) k v :
  NoDup (map fst m) → NoDup (map fst (Js.Map_set m k v)).
Proof.
  induction m as [|[k' v'] m IH]; simpl; intros Hnd.
  - apply NoDup_singleton.
  - apply NoDup_cons in Hnd as [Hk Hnd]. case_eqb k' k; simpl.
    + subst. by apply NoDup_cons.
    + apply NoDup_cons. split; [|by apply IH].
      intros [->|H]%Map_set_key; done.
Qed.

Lemma Map_set_elem {V} (m : Js.Map V) k v key x :
  (key, x) ∈ Js.Map_set m k v → (key, x) = (k, v) ∨ (key, x) ∈ m.
Proof.
  induction m as [|[k' v'] m IH]; simpl.
  - intros H. apply list_elem_of_singleton in H. by left.
  - case_eqb k' k; simpl.
    + intros [->|H]%elem_of_cons; [by left|]. right. by apply list_elem_of_further.
    + intros [->|H]%elem_of_cons; [right; apply list_elem_of_here|].
      destruct (IH H) as [->|H']; [by left|]. right. by apply list_elem_of_further.
Qed.

Lemma chats_wf_set st k chat :
  chat_id chat = k → chats_wf st →
  chats_wf (ConversationStore.with_chats st (Js.Map_set (chats st) k chat)).
Proof.
  intros Hid [Hnd Hk]. split; simpl.
  - by apply Map_set_NoDup.
  - intros key x [[= -> ->]|H]%Map_set_elem; [done|]. by apply Hk.
Qed.

Lemma chats_wf_same st st' : chats st' = chats st → chats_wf st → chats_wf st'.
Proof. unfold chats_wf. by intros ->. Qed.

Lemma chats_wf_empty : chats_wf ConversationStore.empty.
Proof.
  split; simpl; [apply NoDup_nil_2|]. intros key chat H. by apply elem_of_nil in H.
Qed.

Lemma chats_wf_ingest msg st :
  chats_wf st → chats_wf (ConversationStore.ingestMessage msg st).
Proof.
  intros Hwf. destruct (StoreProps.accepted msg st) eqn:Hacc.
  - rewrite StoreFacts.ingest_accepted by done.
    unfold ConversationStore.touch_chat.
    destruct (Js.Map_get (chats st) (key_remoteJid msg)) as [chat|] eqn:E.
    + apply (chats_wf_set st); [|done]. simpl.
      destruct Hwf as [_ Hk]. by apply Hk, Map_get_key.
    + by apply (chats_wf_set st).
  - by rewrite StoreFacts.ingest_rejected.
Qed.

Lemma chats_wf_markRead jid st :
  chats_wf st → chats_wf (ConversationStore.markRead jid st).
Proof.
  intros Hwf. unfold ConversationStore.markRead.
  destruct (Js.Map_get (chats st) jid) as [chat|] eqn:E; [|done].
  apply (chats_wf_set st); [|done]. simpl.
  destruct Hwf as [_ Hk]. by apply Hk, Map_get_key.
Qed.

Lemma chats_after_fetch jid fetch st : chats (Gateway.after_fetch jid fetch st) = chats st.
Proof.
  unfold Gateway.after_fetch. destruct (Gateway.inherited_entry st jid); [done|].
  destruct (Gateway.no_messages st jid); [|done].
  destruct fetch; [|done]. unfold Gateway.store_fetched, ConversationStore.init_messages.
  by destruct (messages st !! jid).
Qed.

Lemma chats_wf_run fmt steps dir k x :
  socks (run fmt steps (start dir)) !! k = Some x → chats_wf (store x).
Proof.
  apply (all_stores_run chats_wf).
  - apply chats_wf_empty.
  - apply chats_wf_ingest.
  - intros chat st. by apply chats_wf_set.
  - intros contact st. by apply chats_wf_same.
  - apply chats_wf_markRead.
  - intros jid fetch st. apply chats_wf_same, chats_after_fetch.
  - intros k' x'. simpl. by rewrite lookup_nil.
Qed.

End StoreInvariants.

Module KeptFacts.
Import Session Invariants WorldFacts StepFacts.

Lemma kept_same a b : messages b = messages a → kept a b.
Proof. intros E jid. unfold ConversationStore.all. by rewrite E. Qed.

Lemma kept_ingest msg st : kept st (ConversationStore.ingestMessage msg st).
Proof.
  intros jid. rewrite StoreFacts.ingest_all.
  destruct (_ && _); [by apply prefix_app_r|done].
Qed.

(** Along a run that stores no loaded history, the stores only grow. *)
Lemma kept_run fmt steps w k x :
  Forall (λ s, loads_history s = false) steps →
  socks w !! k = Some x →
  ∃ x', socks (run fmt steps w) !! k = Some x' ∧ kept (store x) (store x').
Proof.
  apply (StoreInvariants.related_run kept).
  - by intros st jid.
  - intros a b c Hab Hbc jid. by transitivity (ConversationStore.all b jid).
  - apply kept_ingest.
  - intros chat st. by apply kept_same.
  - intros contact st. by apply kept_same.
  - intros jid st. apply kept_same, RunFacts.messages_markRead.
Qed.

(** A stored history leaves the other conversations as they were. *)
Lemma all_store_fetched_other jid jid' msgs st :
  jid' ≠ jid →
  ConversationStore.all (Gateway.store_fetched jid msgs st) jid' = ConversationStore.all st jid'.
Proof.
  intros Hne. unfold ConversationStore.all, Gateway.store_fetched. simpl.
  rewrite lookup_insert_ne by done. unfold ConversationStore.init_messages.
  destruct (messages st !! jid) eqn:E; simpl; [done|].
  by rewrite lookup_insert_ne.
Qed.

Lemma socks_run fmt steps : ∀ w,
  socks_extend (socks w) (socks (run fmt steps w))
  ∧ length (socks (run fmt steps w))
    ≤ length (socks w) + length (filter (λ s, may_construct s = true) steps).
Proof.
  induction steps as [|s steps IH]; intros w; simpl.
  - split; [reflexivity|lia].
  - destruct (IH (step fmt s w)) as [He Hl].
    assert (socks_extend (socks w) (socks (step fmt s w))
            ∧ length (socks (step fmt s w))
              ≤ length (socks w) + (if may_construct s then 1 else 0)) as [He1 Hl1].
    { destruct (step_socks fmt s w) as [->|[(k & f & _ & ->)|(Hm & sid & ->)]].
      - split; [reflexivity|lia].
      - split; [apply socks_extend_on_store|].
        rewrite socks_on_store. destruct (socks w !! k); [rewrite length_insert|]; lia.
      - split; [apply socks_extend_app|]. rewrite Hm, length_app. simpl. lia. }
    split; [by transitivity (socks (step fmt s w))|].
    rewrite filter_cons. destruct (may_construct s); case_decide; try done; simpl; lia.
Qed.

Lemma chat_ids_keys st :
  chats_wf st → map chat_id (Js.Map_values (chats st)) = map fst (chats st).
Proof.
  intros [_ Hk]. unfold Js.Map_values. rewrite map_map.
  apply map_ext_in. intros [key chat] Hin. simpl.
  by apply Hk, list_elem_of_In.
Qed.

Lemma NoDup_map_filter {A B} (f : A → B) (P : A → Prop) `{∀ x, Decision (P x)} l :
  NoDup (map f l) → NoDup (map f (filter P l)).
Proof.
  induction l as [|x l IH]; simpl; [done|].
  intros [Hx Hnd]%NoDup_cons. rewrite filter_cons.
  destruct (decide (P x)); simpl; [|by apply IH].
  apply NoDup_cons. split; [|by apply IH].
  intros (y & E & Hin)%list_elem_of_fmap. apply Hx.
  apply list_elem_of_fmap. exists y. split; [done|].
  by apply list_elem_of_filter in Hin as [_ ?].
Qed.

End KeptFacts.

(** X3: along every run the sockets constructed so far stay where they are,
    each for the session it was made for, and the number of sockets grows
    by at most one for each timer firing, [generateQR] or [reconnectSession]
    whose [makeWASocket] returned; no event and no other command constructs
    a Protocol Client. *)
Theorem X3_sockets_only_grow fmt steps w :
  Invariants.socks_extend (socks w) (socks (run fmt steps w))
  ∧ Session.constructed (run fmt steps w)
    ≤ Session.constructed w
      + length (filter (λ s, Invariants.may_construct s = true) steps).
Proof. apply KeptFacts.socks_run. Qed.

(** X4: in every run of the server, the chat list of a session names each
    conversation at most once. *)
Theorem X4_chat_list_distinct fmt steps dir sid :
  NoDup (map cs_jid (chats_of (Gateway.getChats fmt sid (run fmt steps (start dir))))).
Proof.
  unfold Gateway.getChats, Session.client_store.
  destruct (clients _ !! sid) as [k|]; [|apply NoDup_nil_2].
  destruct (socks _ !! k) as [x|] eqn:E; [|apply NoDup_nil_2]. simpl.
  pose proof (StoreInvariants.chats_wf_run fmt steps dir k x E) as Hwf.
  unfold Gateway.listChats. rewrite sort_perm, ListingFacts.omap_map_id.
  assert (map cs_jid (omap (Gateway.formatChat fmt (store x)) (Js.Map_values (chats (store x))))
          = map chat_id (filter (λ chat, chat_id chat ≠ status_broadcast)
                           (Js.Map_values (chats (store x))))) as ->.
  { pose proof (f_equal (map fst)
      (ListingFacts.omap_formatChat fmt (store x) (Js.Map_values (chats (store x))))) as H.
    by rewrite !map_map in H. }
  apply KeptFacts.NoDup_map_filter. rewrite KeptFacts.chat_ids_keys by done.
  by destruct Hwf.
Qed.

(** X19: the events, the timers and the commands other than
    [getChatMessages] never remove or reorder stored messages: along every
    run of such steps, for every socket and conversation, the messages
    stored before are a prefix of the messages stored after.  The history
    that [getChatMessages] stores when its request has returned replaces the
    sequence of that conversation, whatever it holds by then, and leaves the
    other conversations alone: a message ingested while the request was
    pending is dropped from the store. *)
Theorem X19_messages_append_only :
  (∀ fmt steps w,
     Forall (λ s, Invariants.loads_history s = false) steps →
     Invariants.messages_kept w (run fmt steps w))
  ∧ (∀ jid msgs st,
       ConversationStore.all (Gateway.store_fetched jid msgs st) jid = msgs
       ∧ ∀ jid', jid' ≠ jid →
           ConversationStore.all (Gateway.store_fetched jid msgs st) jid'
           = ConversationStore.all st jid')
  ∧ (let jid := "111@s.whatsapp.net" in
     let m := text_message "A1" jid false 1700000300 "just in" in
     let h := text_message "H1" jid false 1700000000 "history" in
     let pending := ConversationStore.empty in
     let arrived := ConversationStore.ingestMessage m pending in
     Gateway.no_messages pending jid = true
     ∧ ConversationStore.all arrived jid = [m]
     ∧ ConversationStore.all (Gateway.store_fetched jid [h] arrived) jid = [h]).
Proof.
  split; [|split].
  - intros fmt steps w Hh k s jid Hs.
    destruct (KeptFacts.kept_run fmt steps w k s Hh Hs) as (s' & Hs' & Hk).
    exists s'. split; [done|]. apply Hk.
  - intros jid msgs st. split; [apply ListFacts.all_store_fetched|].
    intros jid' Hne. by apply KeptFacts.all_store_fetched_other.
  - by vm_compute.
Qed.

(** X19 at the server with three conversations: after a repeated message,
    a read acknowledgment and a contact update, what socket 0 had stored
    for ["111@s.whatsapp.net"] is still in front. *)
Lemma X19_messages_append_only_witness :
  let steps :=
    [ev_messages_upsert 0 "notify"
       [text_message "M1" "111@s.whatsapp.net" false 1700000000 "first";
        text_message "M4" "111@s.whatsapp.net" true 1700030000 "fourth"];
     ev_messages_update 0 [read_ack "111@s.whatsapp.net"];
     cmd_markChatAsRead "s1" "111@s.whatsapp.net" Returns] in
  Forall (λ s, Invariants.loads_history s = false) steps
  ∧ ∃ s s', socks three_chats !! 0 = Some s
            ∧ socks (run utc_24h steps three_chats) !! 0 = Some s'
            ∧ ConversationStore.all (store s) "111@s.whatsapp.net"
                `prefix_of` ConversationStore.all (store s') "111@s.whatsapp.net".
Proof.
  assert (∃ s, socks three_chats !! 0 = Some s) as [s E] by (vm_compute; eauto).
  assert (Forall (λ s, Invariants.loads_history s = false)
            [ev_messages_upsert 0 "notify"
               [text_message "M1" "111@s.whatsapp.net" false 1700000000 "first";
                text_message "M4" "111@s.whatsapp.net" true 1700030000 "fourth"];
             ev_messages_update 0 [read_ack "111@s.whatsapp.net"];
             cmd_markChatAsRead "s1" "111@s.whatsapp.net" Returns]) as Hh.
  { repeat (apply Forall_cons; split); try done. }
  split; [exact Hh|].
  destruct (proj1 X19_messages_append_only utc_24h _ three_chats Hh
              0 s "111@s.whatsapp.net" E) as (s' & Hs' & Hp).
  exists s, s'. exact (conj E (conj Hs' Hp)).
Defined.

(** ** Invariants of the registry along a run *)

Module RegistryFacts.
Import Session Invariants WorldFacts StepFacts.

Ltac solve_handles :=
  let sid := fresh "sid" in let k := fresh "k" in let H := fresh "H" in
  intros sid k H; simpl in *;
  repeat match goal with
         | H : context [<[?a := _]> _ !! ?b] |- _ =>
             destruct (decide (a = b)); [subst|];
             [rewrite lookup_insert_eq in H|rewrite lookup_insert_ne in H by done]
         | H : context [delete ?a _ !! ?b] |- _ =>
             destruct (decide (a = b)); [subst|];
             [rewrite lookup_delete_eq in H|rewrite lookup_delete_ne in H by done]
         | |- context [<[?a := _]> _ !! ?b] =>
             destruct (decide (a = b)); [subst|];
             [rewrite lookup_insert_eq|rewrite lookup_insert_ne by done]
         end;
  simplify_eq;
  solve [ eauto 6
        | left; eexists; split; [|reflexivity]; done
        | right; split; [done|congruence] ].

Lemma create_ok sid o w0 w :
  clients w0 = clients w ∨ clients w0 = delete sid (clients w) →
  socks w0 = socks w →
  (sessionStatus w0 = sessionStatus w) →
  handles_ok w (createWhatsAppClient sid o w0)
  ∧ statuses_ok w (createWhatsAppClient sid o w0).
Proof.
  intros Hc Hs Hst. pose proof (create_fields sid o w0) as [H _]. simpl in H.
  unfold handles_ok, statuses_ok.
  destruct o; destruct H as (-> & -> & -> & _); rewrite ?Hs, ?Hst;
    destruct Hc as [-> | ->]; split; solve_handles.
Qed.

Lemma step_registry fmt s w :
  handles_ok w (step fmt s w) ∧ statuses_ok w (step fmt s w).
Proof.
  destruct s; simpl.
  - (* connection.update *)
    unfold on_connection_update. destruct (socks w !! k) as [s|]; [|split; solve_handles].
    destruct (Js.truthy_str (qr update));
      destruct (connection update) as [[]|]; simpl;
      try case_bool_decide; simpl; unfold handles_ok, statuses_ok;
      rewrite ?clients_write_file, ?status_write_file; split; solve_handles.
  - unfold on_messages_upsert. destruct (socks w !! k); [|split; solve_handles].
    destruct (String.eqb type "notify"); [|split; solve_handles].
    unfold handles_ok, statuses_ok. simpl.
    rewrite clients_on_store, status_on_store. split; solve_handles.
  - unfold on_chats_set, handles_ok, statuses_ok.
    rewrite clients_on_store, status_on_store. split; solve_handles.
  - unfold on_chats_upsert, handles_ok, statuses_ok.
    rewrite clients_on_store, status_on_store. split; solve_handles.
  - unfold on_contacts_update, handles_ok, statuses_ok.
    rewrite clients_on_store, status_on_store. split; solve_handles.
  - unfold handles_ok, statuses_ok.
    destruct (messages_update_clients k updates w) as [-> ->]. split; solve_handles.
  - unfold on_creds_update, handles_ok, statuses_ok.
    destruct (socks w !! k); [|split; solve_handles].
    rewrite clients_write_file, status_write_file, clients_ensure_folder,
      status_ensure_folder. split; solve_handles.
  - unfold fireTimer. destruct (timers w) as [|t rest]; [split; solve_handles|].
    unfold reconnectCallback. simpl.
    destruct (sessionStatus w !! timer_session t) as [[]|]; try (split; solve_handles).
    apply create_ok; [by right|done|done].
  - unfold Gateway.generateQR. destruct (clients w !! sessionId) eqn:E; simpl;
      [split; solve_handles|].
    destruct (Js.prototype_key sessionId); simpl; [split; solve_handles|].
    apply create_ok; [by left|done|done].
  - unfold Gateway.reconnectSession.
    destruct (sessionExists sessionId w); simpl; [|split; solve_handles].
    apply create_ok; [by right|done|done].
  - unfold Gateway.getChatMessages.
    destruct (client_store w sessionId) as [[k st]|]; simpl; [|split; solve_handles].
    unfold handles_ok, statuses_ok.
    rewrite clients_on_store, status_on_store. split; solve_handles.
  - unfold Gateway.markChatAsRead.
    destruct (client_store w sessionId) as [[k st]|]; simpl; [|split; solve_handles].
    destruct read; simpl; [|split; solve_handles].
    unfold handles_ok, statuses_ok.
    rewrite clients_on_store, status_on_store. split; solve_handles.
  - unfold Gateway.logout.
    destruct (clients w !! sessionId) eqn:E; [destruct o|]; simpl;
      unfold handles_ok, statuses_ok; simpl;
      rewrite ?clients_remove_folder, ?status_remove_folder;
      split; solve_handles.
Qed.

End RegistryFacts.

Module RegistryInvariants.
Import Session Invariants WorldFacts StepFacts RegistryFacts.

Lemma registry_wf_step fmt s w : registry_wf w → registry_wf (step fmt s w).
Proof.
  intros Hw sid k Hk.
  destruct (step_registry fmt s w) as [Hh _].
  destruct (Hh sid k Hk) as [Hold|[-> E]].
  - destruct (Hw sid k Hold) as (x & Hx & Hsid).
    destruct (KeptFacts.socks_run fmt [s] w) as [[_ He] _].
    destruct (He k x Hx) as (x' & Hx' & E). exists x'. split; [done|congruence].
  - rewrite E. exists {| sock_session := sid; store := ConversationStore.empty |}.
    split; [|done]. rewrite lookup_app_r by done. by rewrite Nat.sub_diag.
Qed.

Lemma status_wf_step fmt s w : status_wf w → status_wf (step fmt s w).
Proof.
  intros Hw sid k Hk.
  destruct (step_registry fmt s w) as [_ Hs].
  destruct (Hs sid k Hk) as [(x & Hx & E)|[Hold E]].
  - rewrite E. split; [by eexists|]. intros [= Hx']. by apply Hx.
  - rewrite E. by apply (Hw sid k).
Qed.

Lemma registry_wf_run fmt steps : ∀ w, registry_wf w → registry_wf (run fmt steps w).
Proof.
  induction steps as [|s steps IH]; intros w Hw; simpl; [done|].
  by apply IH, registry_wf_step.
Qed.

Lemma status_wf_run fmt steps : ∀ w, status_wf w → status_wf (run fmt steps w).
Proof.
  induction steps as [|s steps IH]; intros w Hw; simpl; [done|].
  by apply IH, status_wf_step.
Qed.

Lemma registry_wf_start dir : registry_wf (start dir).
Proof. intros sid k. simpl. by rewrite lookup_empty. Qed.

Lemma status_wf_start dir : status_wf (start dir).
Proof. intros sid k. simpl. by rewrite lookup_empty. Qed.

End RegistryInvariants.

(** X1: in every run of the server, a handle of the registry is a socket
    that was constructed for that very session id, so [getChats] for a
    session with a handle always answers with the chat list of that socket's
    store and never with 'Client not found'. *)
Theorem X1_handle_has_socket fmt steps dir sid k :
  clients (run fmt steps (start dir)) !! sid = Some k →
  ∃ s, socks (run fmt steps (start dir)) !! k = Some s
       ∧ sock_session s = sid
       ∧ Gateway.getChats fmt sid (run fmt steps (start dir))
         = cb_chats (Gateway.listChats fmt (store s)).
Proof.
  intros Hk.
  destruct (RegistryInvariants.registry_wf_run fmt steps (start dir)
              (RegistryInvariants.registry_wf_start dir) sid k Hk) as (s & Hs & Hsid).
  exists s. split; [done|]. split; [done|].
  unfold Gateway.getChats, Session.client_store. by rewrite Hk, Hs.
Qed.

(** X1 at a run in which session ["s1"] is created and then reconnected
    after its credentials were saved: its handle is the second socket. *)
Lemma X1_handle_has_socket_witness :
  let steps := [cmd_generateQR "s1" SocketMade; ev_creds_update 0;
                cmd_reconnectSession "s1" SocketMade] in
  clients (run utc_24h steps (start ∅)) !! "s1" = Some 1
  ∧ ∃ s, socks (run utc_24h steps (start ∅)) !! 1 = Some s ∧ sock_session s = "s1".
Proof.
  assert (clients (run utc_24h [cmd_generateQR "s1" SocketMade; ev_creds_update 0;
                                cmd_reconnectSession "s1" SocketMade] (start ∅)) !! "s1"
          = Some 1) as Hk by (by vm_compute).
  split; [exact Hk|].
  destruct (X1_handle_has_socket utc_24h _ ∅ "s1" 1 Hk) as (s & Hs & Hsid & _).
  exists s. exact (conj Hs Hsid).
Defined.

(** X2: in every run of the server, a session with a handle has a status,
    and it is never ['logged_out']: [checkSession] reports neither
    ['unknown'] nor ['logged_out'] for it. *)
Theorem X2_handle_has_status fmt steps dir sid k :
  clients (run fmt steps (start dir)) !! sid = Some k →
  ∃ x, sessionStatus (run fmt steps (start dir)) !! sid = Some x
       ∧ x ≠ LoggedOut
       ∧ Gateway.sc_status (Gateway.checkSession sid (run fmt steps (start dir))) = Some x.
Proof.
  intros Hk.
  destruct (RegistryInvariants.status_wf_run fmt steps (start dir)
              (RegistryInvariants.status_wf_start dir) sid k Hk) as [[x Hx] Hne].
  exists x. split; [done|]. split; [|done]. intros ->. by apply Hne.
Qed.

(** X2 at a run in which session ["s1"] is created and loses its
    connection. *)
Lemma X2_handle_has_status_witness :
  let steps := [cmd_generateQR "s1" SocketMade;
                ev_connection_update 0 (transient_close "lost")] in
  clients (run utc_24h steps (start ∅)) !! "s1" = Some 0
  ∧ ∃ x, sessionStatus (run utc_24h steps (start ∅)) !! "s1" = Some x ∧ x ≠ LoggedOut.
Proof.
  assert (clients (run utc_24h [cmd_generateQR "s1" SocketMade;
                                ev_connection_update 0 (transient_close "lost")]
                     (start ∅)) !! "s1" = Some 0) as Hk by (by vm_compute).
  split; [exact Hk|].
  destruct (X2_handle_has_status utc_24h _ ∅ "s1" 0 Hk) as (x & Hx & Hne & _).
  exists x. exact (conj Hx Hne).
Defined.

(** ** Commands on a registered session *)

Module CommandFacts.
Import Session WorldFacts.

Lemma client_store_on_store k f w sid st :
  client_store w sid = Some (k, st) →
  client_store (on_store k f w) sid = Some (k, f st).
Proof.
  unfold client_store. rewrite clients_on_store.
  destruct (clients w !! sid) as [k'|]; [|done].
  destruct (socks w !! k') as [s|] eqn:E; [|done]. intros [= <- <-].
  rewrite lookup_on_store, E. simpl. by rewrite decide_True.
Qed.

Lemma client_store_handle w sid k st :
  client_store w sid = Some (k, st) → clients w !! sid = Some k.
Proof.
  unfold client_store. destruct (clients w !! sid) as [k'|]; [|done].
  destruct (socks w !! k'); [|done]. by intros [= <- _].
Qed.

Lemma markRead_other jid jid' st :
  jid' ≠ jid →
  Js.Map_get (chats (ConversationStore.markRead jid st)) jid' = Js.Map_get (chats st) jid'.
Proof.
  intros Hne. unfold ConversationStore.markRead.
  destruct (Js.Map_get (chats st) jid); [|done]. simpl. by rewrite Map_get_set_ne.
Qed.

Lemma markRead_unread jid st :
  ConversationStore.unread (ConversationStore.markRead jid st) jid
  = (λ _, 0%Z) <$> ConversationStore.unread st jid.
Proof.
  unfold ConversationStore.unread, ConversationStore.markRead.
  destruct (Js.Map_get (chats st) jid) eqn:E; simpl.
  - by rewrite Map_get_set_eq.
  - by rewrite E.
Qed.

Lemma contacts_markRead jid st :
  contacts (ConversationStore.markRead jid st) = contacts st.
Proof. unfold ConversationStore.markRead. by destruct (Js.Map_get (chats st) jid). Qed.

End CommandFacts.

(** X8: for a session with a handle, [markChatAsRead] sets the unread count
    of that conversation to 0 when [readMessages] returned, leaving every
    other chat record, the contacts and the messages as they were, and
    answers [{ success: true }]; when [readMessages] threw it changes
    nothing and answers [{ success: false, error }] with the thrown
    message. *)
Theorem X8_markChatAsRead sid jid w k st :
  Session.client_store w sid = Some (k, st) →
  let r := Gateway.markChatAsRead sid jid Returns w in
  snd r = cb_success
  ∧ (∃ st', Session.client_store (fst r) sid = Some (k, st')
            ∧ ConversationStore.unread st' jid
              = (λ _, 0%Z) <$> ConversationStore.unread st jid
            ∧ (∀ jid', jid' ≠ jid →
                 Js.Map_get (chats st') jid' = Js.Map_get (chats st) jid')
            ∧ contacts st' = contacts st
            ∧ messages st' = messages st)
  ∧ ∀ msg, Gateway.markChatAsRead sid jid (Throws msg) w = (w, cb_failure msg).
Proof.
  intros Hcs. unfold Gateway.markChatAsRead. rewrite Hcs. simpl.
  split; [done|]. split; [|done].
  exists (ConversationStore.markRead jid st).
  split; [by apply CommandFacts.client_store_on_store|].
  split; [apply CommandFacts.markRead_unread|].
  split; [intros jid' Hne; by apply CommandFacts.markRead_other|].
  split; [apply CommandFacts.contacts_markRead|apply RunFacts.messages_markRead].
Qed.

(** X8 at the server with three conversations. *)
Lemma X8_markChatAsRead_witness :
  unread_of three_chats 0 "222@s.whatsapp.net" = Some 1%Z
  ∧ snd (Gateway.markChatAsRead "s1" "222@s.whatsapp.net" Returns three_chats) = cb_success
  ∧ unread_of (fst (Gateway.markChatAsRead "s1" "222@s.whatsapp.net" Returns three_chats))
      0 "222@s.whatsapp.net" = Some 0%Z.
Proof.
  assert (∃ st, Session.client_store three_chats "s1" = Some (0, st)) as [st Hcs]
    by (vm_compute; eauto).
  destruct (X8_markChatAsRead "s1" "222@s.whatsapp.net" three_chats 0 st Hcs)
    as (Hok & _ & _).
  split; [by vm_compute|]. split; [exact Hok|by vm_compute].
Defined.

(** X20: [getChatMessages] also marks the conversation as read.  The part
    of the command that runs once [readMessages] has settled sets the unread
    count of the conversation to 0 when the call returned, leaving the other
    chat records and the messages alone, and changes nothing when it threw;
    the history stored later leaves the chat records alone.  So, for a
    session with a handle and with nothing else running while the command
    waits: when [readMessages] returned, the unread count of the conversation
    is 0 afterwards and the other chat records are unchanged; when it threw,
    the chat records are left as they were, and the command still answers
    with a message list, unless the conversation id is read from
    [Object.prototype], where it answers [success: false]. *)
Theorem X20_getChatMessages_marks_read fmt sid jid fetch w k st :
  Session.client_store w sid = Some (k, st) →
  (∃ st', Session.client_store
            (fst (Gateway.getChatMessages fmt sid jid Returns fetch w)) sid = Some (k, st')
          ∧ ConversationStore.unread st' jid
            = (λ _, 0%Z) <$> ConversationStore.unread st jid
          ∧ ∀ jid', jid' ≠ jid →
              Js.Map_get (chats st') jid' = Js.Map_get (chats st) jid')
  ∧ (∀ msg, ∃ st',
       fst (Gateway.getChatMessages fmt sid jid (Throws msg) fetch w)
       = Session.on_store k (λ _, st') w
       ∧ chats st' = chats st
       ∧ (Gateway.inherited_entry st jid = false →
          ∃ l, snd (Gateway.getChatMessages fmt sid jid (Throws msg) fetch w)
               = cb_messages l)
       ∧ (Gateway.inherited_entry st jid = true →
          snd (Gateway.getChatMessages fmt sid jid (Throws msg) fetch w)
          = cb_failure Gateway.all_not_a_function))
  ∧ (∀ st0,
       ConversationStore.unread (Gateway.after_read jid Returns st0) jid
       = (λ _, 0%Z) <$> ConversationStore.unread st0 jid
       ∧ (∀ jid', jid' ≠ jid →
            Js.Map_get (chats (Gateway.after_read jid Returns st0)) jid'
            = Js.Map_get (chats st0) jid')
       ∧ messages (Gateway.after_read jid Returns st0) = messages st0
       ∧ (∀ msg, Gateway.after_read jid (Throws msg) st0 = st0)
       ∧ (∀ msgs, chats (Gateway.store_fetched jid msgs st0) = chats st0)).
Proof.
  intros Hcs. unfold Gateway.getChatMessages. rewrite Hcs. cbn [fst snd].
  split; [|split].
  - eexists. split; [by apply CommandFacts.client_store_on_store|].
    unfold ConversationStore.unread.
    rewrite !StoreInvariants.chats_after_fetch.
    split; [apply CommandFacts.markRead_unread|].
    intros jid' Hne. by apply CommandFacts.markRead_other.
  - intros msg. exists (Gateway.after_fetch jid fetch st). simpl.
    split; [done|]. split; [apply StoreInvariants.chats_after_fetch|].
    unfold Gateway.answer, Gateway.after_fetch. split.
    + intros Hown. rewrite Hown.
      destruct (Gateway.no_messages st jid) eqn:Hno.
      * destruct fetch as [msgs|].
        -- rewrite ListFacts.inherited_entry_store_fetched.
           destruct (Gateway.no_messages (Gateway.store_fetched jid msgs st) jid);
             eexists; reflexivity.
        -- rewrite Hown, Hno. eexists; reflexivity.
      * rewrite Hown, Hno. eexists; reflexivity.
    + intros Hown. by rewrite Hown, Hown.
  - intros st0.
    split; [apply CommandFacts.markRead_unread|].
    split; [intros jid' Hne; by apply CommandFacts.markRead_other|].
    split; [apply RunFacts.messages_markRead|]. split; [done|].
    intros msgs. unfold Gateway.store_fetched, ConversationStore.init_messages.
    by destruct (messages st0 !! jid).
Qed.

(** X20 at the server with three conversations. *)
Lemma X20_getChatMessages_marks_read_witness :
  ∃ st, Session.client_store three_chats "s1" = Some (0, st)
        ∧ (∃ st', Session.client_store
                    (fst (Gateway.getChatMessages utc_24h "s1" "333@s.whatsapp.net"
                            Returns None three_chats)) "s1" = Some (0, st')
                  ∧ ConversationStore.unread st' "333@s.whatsapp.net"
                    = (λ _, 0%Z) <$> ConversationStore.unread st "333@s.whatsapp.net")
        ∧ Gateway.inherited_entry st "constructor" = true
        ∧ snd (Gateway.getChatMessages utc_24h "s1" "constructor" (Throws "timed out")
                 None three_chats)
          = cb_failure Gateway.all_not_a_function.
Proof.
  assert (∃ st, Session.client_store three_chats "s1" = Some (0, st)) as [st Hcs]
    by (vm_compute; eauto).
  destruct (X20_getChatMessages_marks_read utc_24h "s1" "333@s.whatsapp.net" None
              three_chats 0 st Hcs) as [(st' & H1 & H2 & _) _].
  assert (Gateway.inherited_entry st "constructor" = true) as Hown.
  { revert Hcs. vm_compute. by intros [= <-]. }
  destruct (X20_getChatMessages_marks_read utc_24h "s1" "constructor" None
              three_chats 0 st Hcs) as (_ & Hthrows & _).
  destruct (Hthrows "timed out") as (_ & _ & _ & _ & Hfail).
  exists st. split; [exact Hcs|]. split; [exists st'; exact (conj H1 H2)|].
  split; [exact Hown|exact (Hfail Hown)].
Defined.

(** ** Contacts and chat records *)

Module RecordFacts.

Lemma upsertChats_get l : ∀ st jid,
  Js.Map_get (chats (ConversationStore.upsertChats l st)) jid
  = match last (filter (λ chat, chat_id chat = jid) l) with
    | Some chat => Some chat
    | None => Js.Map_get (chats st) jid
    end.
Proof.
  induction l as [|chat l IH]; intros st jid; simpl; [done|].
  rewrite IH, filter_cons. simpl.
  destruct (decide (chat_id chat = jid)) as [<-|Hne].
  - rewrite Map_get_set_eq.
    rewrite last_cons. by destruct (last _).
  - by rewrite Map_get_set_ne.
Qed.

Lemma Map_set_keys {V} (m : Js.Map V) k v :
  map fst (Js.Map_set m k v)
  = if Js.Map_has m k then map fst m else map fst m ++ [k].
Proof.
  unfold Js.Map_has. induction m as [|[k' v'] m IH]; simpl; [done|].
  case_eqb k' k; simpl; [by subst|].
  rewrite IH. by destruct (Js.Map_get m k).
Qed.

End RecordFacts.

(** X9: a [contacts.update] entry creates the contact when it is new and
    otherwise overwrites only the fields it carries: a name or notify alias
    the update does not carry keeps its stored value; the other contacts,
    the chats and the messages are left alone; and merging the same entry
    again changes nothing. *)
Theorem X9_contact_merge contact st :
  let st' := ConversationStore.mergeContact contact st in
  let old := contacts st !! contact_id contact in
  contacts st' !! contact_id contact
  = Some {| contact_id := contact_id contact;
            contact_name :=
              match contact_name contact with
              | Some n => Some n
              | None => old ≫= contact_name
              end;
            contact_notify :=
              match contact_notify contact with
              | Some n => Some n
              | None => old ≫= contact_notify
              end |}
  ∧ (∀ id', id' ≠ contact_id contact → contacts st' !! id' = contacts st !! id')
  ∧ chats st' = chats st
  ∧ messages st' = messages st
  ∧ ConversationStore.mergeContact contact st' = st'.
Proof.
  unfold ConversationStore.mergeContact. simpl.
  split; [|split; [|split; [done|split; [done|]]]].
  - rewrite lookup_insert_eq. unfold ConversationStore.assign.
    by destruct (contacts st !! contact_id contact) as [c|].
  - intros id' Hne. by rewrite lookup_insert_ne.
  - apply StoreFacts.store_eq; simpl; try done.
    rewrite lookup_insert_eq, insert_insert_eq. f_equal.
    unfold ConversationStore.assign. simpl.
    by destruct (contact_name contact), (contact_notify contact).
Qed.

(** X10: a [chats.set] or [chats.upsert] batch stores, for every id it
    carries, the last record of the batch with that id, as it is (so the
    unread count and the timestamp kept by ingestion so far are replaced by
    what the record says), and leaves the chats with other ids, the contacts
    and the messages as they were; a single record keeps its place in the
    map when the id was known and goes to the end otherwise. *)
Theorem X10_chat_upsert :
  (∀ l st jid,
     Js.Map_get (chats (ConversationStore.upsertChats l st)) jid
     = match last (filter (λ chat, chat_id chat = jid) l) with
       | Some chat => Some chat
       | None => Js.Map_get (chats st) jid
       end)
  ∧ (∀ l st,
       contacts (ConversationStore.upsertChats l st) = contacts st
       ∧ messages (ConversationStore.upsertChats l st) = messages st)
  ∧ (∀ chat st,
       map fst (chats (ConversationStore.upsertChat chat st))
       = if Js.Map_has (chats st) (chat_id chat) then map fst (chats st)
         else map fst (chats st) ++ [chat_id chat]).
Proof.
  split; [apply RecordFacts.upsertChats_get|]. split.
  - intros l st. split; [|apply RunFacts.messages_upsertChats].
    revert st. induction l as [|c l IH]; intros st; simpl; [done|]. by rewrite IH.
  - intros chat st. apply RecordFacts.Map_set_keys.
Qed.

(** ** Creating, replacing and removing sessions *)

(** X11: when the creation of a Protocol Client fails, [generateQR] for a
    session without a handle, whose id is not read from [Object.prototype],
    still answers [{ success: true }]: the failure shows only in the status
    ['error'] and in the [error] notification; no handle is registered and no
    socket constructed, so that the next [generateQR] tries again.  A failed
    creation inside [reconnectSession] (of a session other than
    ['__proto__'], which no assignment reaches) is answered in the same way
    and leaves the session without a handle.  For a session id that names a
    member of
    [Object.prototype], [generateQR] finds that member in the registry: it
    answers as for an existing handle and creates nothing. *)
Theorem X11_creation_failure sid o msg w :
  o = AuthStateThrows msg ∨ o = MakeSocketThrows msg →
  (clients w !! sid = None →
   Js.prototype_key sid = false →
   let r := Gateway.generateQR sid o w in
   snd r = cb_success
   ∧ clients (fst r) = clients w
   ∧ socks (fst r) = socks w
   ∧ sessionStatus (fst r) !! sid = Some Error
   ∧ emitted (fst r) = emitted w ++ [error sid msg]
   ∧ Session.constructed (fst (Gateway.generateQR sid SocketMade (fst r)))
     = S (Session.constructed w))
  ∧ (Session.sessionExists sid w = true →
     sid ≠ "__proto__" →
     let r := Gateway.reconnectSession sid o w in
     snd r = cb_success
     ∧ clients (fst r) !! sid = None
     ∧ socks (fst r) = socks w
     ∧ sessionStatus (fst r) !! sid = Some Error
     ∧ emitted (fst r) = emitted w ++ [error sid msg])
  ∧ (clients w !! sid = None →
     Js.prototype_key sid = true →
     ∀ o', Gateway.generateQR sid o' w = (w, cb_status (sessionStatus w !! sid))).
Proof.
  intros Ho. split; [|split].
  - intros Hc Hkey. unfold Gateway.generateQR. rewrite Hc, Hkey. cbn [fst snd].
    set (w1 := Session.createWhatsAppClient sid o w).
    destruct (WorldFacts.create_failed sid o msg w Ho) as (Hcl & Hst & Hso & Hem).
    fold w1 in Hcl, Hst, Hso, Hem.
    rewrite Hcl, Hst, Hso, Hem, Hc, lookup_insert_eq. cbn [fst snd].
    repeat (split; [done|]).
    destruct (WorldFacts.create_made sid w1) as (_ & _ & H' & _).
    unfold Session.constructed. rewrite H', length_app, Hso. simpl. lia.
  - intros Hex _. unfold Gateway.reconnectSession. rewrite Hex. cbn [negb fst snd].
    destruct (WorldFacts.create_failed sid o msg (Session.delete_client sid w) Ho)
      as (Hcl & Hst & Hso & Hem).
    rewrite Hcl, Hst, Hso, Hem, lookup_insert_eq. simpl.
    by rewrite lookup_delete_eq.
  - intros Hc Hkey o'. unfold Gateway.generateQR. by rewrite Hc, Hkey.
Qed.

(** X11 at a server without sessions, and at the server with three
    conversations once the credentials of ["s1"] were saved. *)
Lemma X11_creation_failure_witness :
  let w := run utc_24h [ev_creds_update 0] three_chats in
  clients (start ∅) !! "s1" = None
  ∧ Js.prototype_key "s1" = false
  ∧ Gateway.generateQR "s1" (MakeSocketThrows "no network") (start ∅)
    = (Session.createWhatsAppClient "s1" (MakeSocketThrows "no network") (start ∅),
       cb_success)
  ∧ sessionStatus (fst (Gateway.generateQR "s1" (MakeSocketThrows "no network") (start ∅)))
      !! "s1" = Some Error
  ∧ Js.prototype_key "constructor" = true
  ∧ Gateway.generateQR "constructor" SocketMade (start ∅) = (start ∅, cb_status None)
  ∧ Session.sessionExists "s1" w = true
  ∧ clients w !! "s1" = Some 0
  ∧ clients (fst (Gateway.reconnectSession "s1" (MakeSocketThrows "no network") w)) !! "s1"
    = None.
Proof.
  destruct (X11_creation_failure "s1" (MakeSocketThrows "no network") "no network"
              (start ∅) (or_intror eq_refl)) as (H & _ & _).
  destruct (H eq_refl eq_refl) as (_ & _ & _ & Hst & _).
  destruct (X11_creation_failure "constructor" (MakeSocketThrows "no network") "no network"
              (start ∅) (or_intror eq_refl)) as (_ & _ & Hproto).
  assert (Session.sessionExists "s1" (run utc_24h [ev_creds_update 0] three_chats) = true)
    as Hex by (by vm_compute).
  destruct (X11_creation_failure "s1" (MakeSocketThrows "no network") "no network"
              (run utc_24h [ev_creds_update 0] three_chats) (or_intror eq_refl))
    as (_ & Hre & _).
  destruct (Hre Hex ltac:(done)) as (_ & Hgone & _).
  split; [reflexivity|]. split; [reflexivity|]. split; [reflexivity|].
  split; [exact Hst|]. split; [reflexivity|].
  split; [exact (Hproto eq_refl eq_refl SocketMade)|].
  split; [exact Hex|]. split; [by vm_compute|exact Hgone].
Defined.





(** X14: for a session id that is not read from [Object.prototype], or
    that has a handle, [POST /logout] leaves the registry, the status table,
    the session folders, the sockets and the timers exactly as the [logout]
    command does, for a successful as for a failed logout call and for a
    session without a handle, but sends no notification; it answers 'Logout
    initiated' when the session has a handle and 404 when it has none.  For
    a session id that names a member of [Object.prototype] and has no
    handle it answers 500 and changes nothing.  Without a session id it
    answers 400 and changes nothing. *)
Theorem X14_http_logout sid o w :
  sid ≠ "" →
  let a := fst (Gateway.logout sid o w) in
  let b := Http.logout (Some sid) o w in
  (Js.prototype_key sid = false ∨ is_Some (clients w !! sid) →
   clients (fst b) = clients a
   ∧ sessionStatus (fst b) = sessionStatus a
   ∧ sessionsDir (fst b) = sessionsDir a
   ∧ socks (fst b) = socks a
   ∧ timers (fst b) = timers a
   ∧ emitted (fst b) = emitted w
   ∧ snd b = match clients w !! sid with
             | Some _ => Http.reply_ok "Logout initiated"
             | None => Http.reply_error 404 "Session not found"
             end)
  ∧ (Js.prototype_key sid = true → clients w !! sid = None →
     b = (w, Http.reply_error 500 "clients[sessionId].logout is not a function"))
  ∧ Http.logout None o w = (w, Http.reply_error 400 "Session ID is required")
  ∧ Http.logout (Some "") o w = (w, Http.reply_error 400 "Session ID is required").
Proof.
  intros Hne. unfold Http.logout, Gateway.logout. simpl.
  apply eqb_false in Hne. rewrite Hne. simpl.
  split; [|split; [|done]].
  - intros Hown. destruct (clients w !! sid) as [k|] eqn:Hc.
    + destruct o; simpl;
        rewrite ?FolderFacts.clients_remove_folder, ?FolderFacts.status_remove_folder,
          ?FolderFacts.socks_remove_folder, ?FolderFacts.timers_remove_folder,
          ?FolderFacts.emitted_remove_folder; simpl;
        rewrite ?FolderFacts.status_remove_folder, ?insert_insert_eq; simpl;
        repeat split; try done.
      unfold Session.remove_folder.
      destruct (Path.folder_key sid) as [key|]; [|done].
      by destruct (String.eqb key "").
    + destruct Hown as [Hkey|[k Hk]]; [|done]. by rewrite Hkey.
  - intros Hkey Hc. by rewrite Hc, Hkey.
Qed.

(** X14 at the one-session server. *)
Lemma X14_http_logout_witness :
  Js.prototype_key "s1" = false
  ∧ clients (fst (Http.logout (Some "s1") Returns one_session)) !! "s1" = None
  ∧ emitted (fst (Http.logout (Some "s1") Returns one_session)) = emitted one_session
  ∧ emitted (fst (Gateway.logout "s1" Returns one_session))
    = emitted one_session ++ [logoutSuccess "s1"].
Proof.
  destruct (X14_http_logout "s1" Returns one_session ltac:(done)) as (H & _).
  destruct (H (or_introl eq_refl)) as (Hc & _ & _ & _ & _ & He & _).
  split; [reflexivity|]. split; [by rewrite Hc|]. split; [exact He|reflexivity].
Defined.

Module LifecycleFacts.
Import Session WorldFacts.

(** What a transient close does. *)
Lemma transient_close_fields k s update w :
  socks w !! k = Some s →
  connection update = Some conn_close →
  statusCode update ≠ Some DisconnectReason_loggedOut →
  let w' := on_connection_update k update w in
  timers w' = timers w ++ [{| timer_session := sock_session s; timer_delay := 5000 |}]
  ∧ sessionStatus w' !! sock_session s = Some Reconnecting
  ∧ clients w' = clients w
  ∧ socks w' = socks w.
Proof.
  intros Hs Hc Hcode. unfold on_connection_update.
  rewrite Hs, Hc, bool_decide_false by done.
  destruct (Js.truthy_str (qr update)); simpl; by rewrite lookup_insert_eq.
Qed.

Lemma create_timers sid o w : timers (createWhatsAppClient sid o w) = timers w.
Proof. by destruct (create_fields sid o w) as [_ H]. Qed.

Lemma create_status sid o w :
  sessionStatus (createWhatsAppClient sid o w) !! sid = Some Connecting
  ∨ sessionStatus (createWhatsAppClient sid o w) !! sid = Some Error.
Proof.
  destruct (create_fields sid o w) as [H _].
  destruct o; destruct H as (_ & -> & _); rewrite lookup_insert_eq; auto.
Qed.

Lemma create_length sid o w :
  length (socks (createWhatsAppClient sid o w)) ≤ S (length (socks w)).
Proof.
  destruct (create_fields sid o w) as [H _].
  destruct o; destruct H as (_ & _ & -> & _); rewrite ?length_app; simpl; lia.
Qed.

End LifecycleFacts.

(** X15: two transient closes of one socket (of a session other than
    ['__proto__'], whose status no assignment reaches) arm two timers.
    When the creation started by the first firing has finished before the
    second timer fires, the second firing changes nothing except that its
    timer is gone: at most one Protocol Client is constructed, and when
    [makeWASocket] returned it is the session's handle, with status
    ['connecting'].  But the callback does not wait for the creation it
    starts, and the creation writes nothing until it has the auth state:
    when the second timer fires before that, it finds the status
    ['reconnecting'] as well and starts a second creation, and when both
    creations make their socket two Protocol Clients are constructed for the
    session, of which the registry keeps the one made last. *)
Theorem X15_two_closes_two_timers k s u1 u2 o1 o2 w :
  socks w !! k = Some s →
  sock_session s ≠ "__proto__" →
  timers w = [] →
  connection u1 = Some conn_close → statusCode u1 ≠ Some DisconnectReason_loggedOut →
  connection u2 = Some conn_close → statusCode u2 ≠ Some DisconnectReason_loggedOut →
  let sid := sock_session s in
  let closed := Session.on_connection_update k u2 (Session.on_connection_update k u1 w) in
  length (timers closed) = 2
  ∧ (let w1 := Session.fireTimer o1 closed in
     let w2 := Session.fireTimer o2 w1 in
     w1 = Session.createWhatsAppClient sid o1
            (Session.delete_client sid
               (Session.set_timers [{| timer_session := sid; timer_delay := 5000 |}] closed))
     ∧ w2 = Session.set_timers [] w1
     ∧ Session.constructed w2 ≤ S (Session.constructed w)
     ∧ (o1 = SocketMade →
        clients w2 !! sid = Some (length (socks w))
        ∧ sessionStatus w2 !! sid = Some Connecting))
  ∧ (let first := Session.fireTimer_sync closed in
     let second := Session.fireTimer_sync (fst first) in
     let w2 := Session.createWhatsAppClient sid SocketMade
                 (Session.createWhatsAppClient sid SocketMade (fst second)) in
     snd first = Some sid
     ∧ sessionStatus (fst first) !! sid = Some Reconnecting
     ∧ snd second = Some sid
     ∧ timers (fst second) = []
     ∧ clients (fst second) !! sid = None
     ∧ socks (fst second) = socks w
     ∧ socks w2 = socks w ++ [{| sock_session := sid; store := ConversationStore.empty |};
                              {| sock_session := sid; store := ConversationStore.empty |}]
     ∧ Session.constructed w2 = Session.constructed w + 2
     ∧ clients w2 !! sid = Some (S (length (socks w)))).
Proof.
  intros Hs _ Ht Hc1 Hn1 Hc2 Hn2.
  destruct (LifecycleFacts.transient_close_fields k s u1 w Hs Hc1 Hn1)
    as (Ht1 & _ & Hcl1 & Hso1).
  set (c1 := Session.on_connection_update k u1 w) in *.
  assert (socks c1 !! k = Some s) as Hs1 by (by rewrite Hso1).
  destruct (LifecycleFacts.transient_close_fields k s u2 c1 Hs1 Hc2 Hn2)
    as (Ht2 & Hst2 & Hcl2 & Hso2).
  set (c2 := Session.on_connection_update k u2 c1) in *.
  rewrite Ht1, Ht in Ht2. simpl in Ht2.
  assert (Session.fireTimer o1 c2
          = Session.createWhatsAppClient (sock_session s) o1
              (Session.delete_client (sock_session s)
                 (Session.set_timers [{| timer_session := sock_session s;
                                         timer_delay := 5000 |}] c2))) as E1.
  { unfold Session.fireTimer. rewrite Ht2. unfold Session.reconnectCallback.
    simpl. by rewrite Hst2. }
  assert (Session.fireTimer o2 (Session.fireTimer o1 c2)
          = Session.set_timers [] (Session.fireTimer o1 c2)) as E2.
  { rewrite E1. unfold Session.fireTimer at 1.
    rewrite LifecycleFacts.create_timers. simpl.
    unfold Session.reconnectCallback. simpl.
    by destruct (LifecycleFacts.create_status (sock_session s) o1
                   (Session.delete_client (sock_session s)
                      (Session.set_timers [{| timer_session := sock_session s;
                                              timer_delay := 5000 |}] c2)))
      as [-> | ->]. }
  cbv zeta. split; [by rewrite Ht2|]. split.
  - split; [exact E1|]. split; [exact E2|].
    rewrite E2, E1. split.
    + unfold Session.constructed. simpl.
      etransitivity; [apply LifecycleFacts.create_length|]. simpl.
      by rewrite Hso2, Hso1.
    + intros ->. cbn [clients sessionStatus Session.set_timers].
      destruct (WorldFacts.create_made (sock_session s)
                  (Session.delete_client (sock_session s)
                     (Session.set_timers [{| timer_session := sock_session s;
                                             timer_delay := 5000 |}] c2)))
        as (Hcl & Hst & _).
      rewrite Hcl, Hst, !lookup_insert_eq. simpl. by rewrite Hso2, Hso1.
  - assert (Session.fireTimer_sync c2
            = (Session.delete_client (sock_session s)
                 (Session.set_timers [{| timer_session := sock_session s;
                                         timer_delay := 5000 |}] c2),
               Some (sock_session s))) as F1.
    { unfold Session.fireTimer_sync. rewrite Ht2.
      unfold Session.reconnectCallback_sync. simpl. by rewrite Hst2. }
    rewrite F1. cbn [fst snd].
    assert (Session.fireTimer_sync
              (Session.delete_client (sock_session s)
                 (Session.set_timers [{| timer_session := sock_session s;
                                         timer_delay := 5000 |}] c2))
            = (Session.delete_client (sock_session s)
                 (Session.set_timers []
                    (Session.delete_client (sock_session s)
                       (Session.set_timers [{| timer_session := sock_session s;
                                               timer_delay := 5000 |}] c2))),
               Some (sock_session s))) as F2.
    { unfold Session.fireTimer_sync. simpl.
      unfold Session.reconnectCallback_sync. simpl. by rewrite Hst2. }
    rewrite F2. cbn [fst snd].
    set (b := Session.delete_client _ (Session.set_timers [] _)).
    assert (socks b = socks w) as Hb by (simpl; by rewrite Hso2, Hso1).
    split; [done|]. split; [exact Hst2|]. split; [done|]. split; [done|].
    split; [simpl; apply lookup_delete_eq|]. split; [exact Hb|].
    set (c3 := Session.createWhatsAppClient (sock_session s) SocketMade b).
    pose proof (WorldFacts.create_made (sock_session s) b) as H3.
    cbv zeta in H3. fold c3 in H3. destruct H3 as (_ & _ & Hso3 & _).
    set (c4 := Session.createWhatsAppClient (sock_session s) SocketMade c3).
    pose proof (WorldFacts.create_made (sock_session s) c3) as H4.
    cbv zeta in H4. fold c4 in H4. destruct H4 as (Hcl4 & _ & Hso4 & _).
    rewrite Hso3, Hb in Hso4. rewrite <- app_assoc in Hso4.
    split; [exact Hso4|]. split.
    + unfold Session.constructed. rewrite Hso4, !length_app. simpl. lia.
    + rewrite Hcl4, lookup_insert_eq, Hso3, Hb, length_app. simpl. f_equal. lia.
Qed.

(** X15 at the one-session server, whose session ["s1"] has socket 0:
    with both timers fired before either creation has its auth state, the
    sockets 1 and 2 are constructed for ["s1"]. *)
Lemma X15_two_closes_two_timers_witness :
  let closed := Session.on_connection_update 0 (transient_close "again")
                  (Session.on_connection_update 0 (transient_close "lost") one_session) in
  let second := Session.fireTimer_sync (fst (Session.fireTimer_sync closed)) in
  socks one_session !! 0 = Some {| sock_session := "s1"; store := ConversationStore.empty |}
  ∧ length (timers closed) = 2
  ∧ Session.constructed
      (Session.fireTimer SocketMade (Session.fireTimer SocketMade closed)) ≤ 2
  ∧ Session.constructed
      (Session.createWhatsAppClient "s1" SocketMade
         (Session.createWhatsAppClient "s1" SocketMade (fst second))) = 3
  ∧ clients
      (Session.createWhatsAppClient "s1" SocketMade
         (Session.createWhatsAppClient "s1" SocketMade (fst second))) !! "s1" = Some 2.
Proof.
  destruct (X15_two_closes_two_timers 0
              {| sock_session := "s1"; store := ConversationStore.empty |}
              (transient_close "lost") (transient_close "again") SocketMade SocketMade
              one_session eq_refl ltac:(done) eq_refl eq_refl ltac:(done) eq_refl
              ltac:(done))
    as (Hl & (_ & _ & Hc & _) & (_ & _ & _ & _ & _ & _ & _ & Hn & Hh)).
  split; [reflexivity|]. split; [exact Hl|]. split; [exact Hc|].
  split; [exact Hn|exact Hh].
Defined.

(** ** From an ingested message to the chat list *)

(** X16: once a message is accepted by the [messages.upsert] handler, the
    chat list has an entry for its conversation that shows this message as
    the last one, with its text and formatted time, and the unread count
    raised by one when the message is not from self. *)
Theorem X16_accepted_message_listed fmt msg st :
  Invariants.chats_wf st →
  StoreProps.accepted msg st = true →
  ∃ c, c ∈ Gateway.listChats fmt (ConversationStore.ingestMessage msg st)
       ∧ cs_jid c = key_remoteJid msg
       ∧ cs_lastMessage c = message_text msg
       ∧ cs_time c = ms_time (Gateway.formatMessage fmt msg)
       ∧ cs_unread c
         = (default 0 (ConversationStore.unread st (key_remoteJid msg))
            + (if key_fromMe msg then 0 else 1))%Z.
Proof.
  intros [_ Hkeys] Hacc.
  pose proof (StoreFacts.ingest_unread msg st Hacc) as Hun.
  rewrite StoreFacts.ingest_accepted in * by done.
  set (st' := {| chats := _; contacts := _; messages := _ |}) in *.
  assert (∃ chat', Js.Map_get (chats st') (key_remoteJid msg) = Some chat'
                   ∧ chat_id chat' = key_remoteJid msg) as (chat' & Hget & Hid).
  { simpl. unfold ConversationStore.touch_chat.
    destruct (Js.Map_get (chats st) (key_remoteJid msg)) as [chat|] eqn:E;
      rewrite Map_get_set_eq; eexists; (split; [done|]); simpl; [|done].
    by apply Hkeys, Map_get_key. }
  assert (key_remoteJid msg ≠ status_broadcast) as Hb.
  { unfold StoreProps.accepted in Hacc. apply andb_true_iff in Hacc as [Hacc _].
    by apply negb_true_iff, eqb_false in Hacc. }
  destruct (Gateway.formatChat fmt st' chat') as [c|] eqn:Hc.
  2: { unfold Gateway.formatChat in Hc. rewrite Hid in Hc.
       apply eqb_false in Hb. by rewrite Hb in Hc. }
  exists c. split.
  { apply ListFacts.listChats_elem. exists chat'. split; [|done].
    apply list_elem_of_fmap. exists (key_remoteJid msg, chat').
    split; [done|]. by apply Map_get_key. }
  unfold Gateway.formatChat in Hc. rewrite Hid in Hc.
  apply eqb_false in Hb. rewrite Hb in Hc. injection Hc as <-. simpl.
  split; [done|].
  unfold Gateway.last_message. rewrite Hid. simpl. rewrite lookup_insert_eq, last_snoc.
  simpl. split; [done|]. split; [done|].
  unfold ConversationStore.unread in Hun. rewrite Hget in Hun. simpl in Hun.
  by injection Hun.
Qed.

(** X16 at the empty store. *)
Lemma X16_accepted_message_listed_witness :
  let msg := text_message "A1" "111@s.whatsapp.net" false 1700000000 "hello" in
  Invariants.chats_wf ConversationStore.empty
  ∧ StoreProps.accepted msg ConversationStore.empty = true
  ∧ ∃ c, c ∈ Gateway.listChats utc_24h
               (ConversationStore.ingestMessage msg ConversationStore.empty)
         ∧ cs_lastMessage c = "hello".
Proof.
  pose proof StoreInvariants.chats_wf_empty as Hwf.
  destruct (X16_accepted_message_listed utc_24h
              (text_message "A1" "111@s.whatsapp.net" false 1700000000 "hello")
              ConversationStore.empty Hwf eq_refl) as (c & Hin & _ & Hl & _).
  split; [exact Hwf|]. split; [reflexivity|]. exists c. exact (conj Hin Hl).
Defined.

(** ** The handler of [backup4_server.js] *)

Module Backup4Facts.
Import ConversationStore.

Lemma backup4_ingest_all jid msg st :
  all (ingestMessage_backup4 msg st) jid
  = if decide (key_remoteJid msg = jid) then all st jid ++ [msg] else all st jid.
Proof.
  unfold ingestMessage_backup4, all at 1. simpl.
  destruct (decide (key_remoteJid msg = jid)) as [<-|Hne].
  - rewrite lookup_insert_eq. simpl. by rewrite StoreFacts.all_init.
  - rewrite lookup_insert_ne by done. unfold init_messages.
    destruct (messages st !! key_remoteJid msg); [done|]. simpl.
    by rewrite lookup_insert_ne.
Qed.

Lemma backup4_ingest_unread msg st :
  unread (ingestMessage_backup4 msg st) (key_remoteJid msg)
  = Some (default 0 (unread st (key_remoteJid msg)) + 1)%Z.
Proof.
  unfold ingestMessage_backup4, unread. simpl.
  assert (chats (init_messages (key_remoteJid msg) st) = chats st) as ->.
  { unfold init_messages. by destruct (messages st !! key_remoteJid msg). }
  destruct (Js.Map_get (chats st) (key_remoteJid msg)); by rewrite Map_get_set_eq.
Qed.

End Backup4Facts.

(** X17: the [messages.upsert] loop of [backup4_server.js] stores every
    message of a batch, in order, and counts each one as unread: duplicates
    and messages from self are not told apart. *)
Theorem X17_backup4_counts_every_message msgs : ∀ st jid,
  Forall (λ m, key_remoteJid m = jid) msgs →
  let st' := fold_left (λ acc m, ConversationStore.ingestMessage_backup4 m acc) msgs st in
  ConversationStore.all st' jid = ConversationStore.all st jid ++ msgs
  ∧ default 0%Z (ConversationStore.unread st' jid)
    = (default 0 (ConversationStore.unread st jid) + Z.of_nat (length msgs))%Z.
Proof.
  induction msgs as [|m msgs IH]; intros st jid Hj; simpl.
  - rewrite app_nil_r. split; [done|lia].
  - inversion Hj as [|? ? Hm Hj']; subst.
    destruct (IH (ConversationStore.ingestMessage_backup4 m st) (key_remoteJid m) Hj')
      as [Hall Hun].
    split.
    + rewrite Hall, Backup4Facts.backup4_ingest_all, decide_True by done.
      by rewrite <- app_assoc.
    + rewrite Hun, Backup4Facts.backup4_ingest_unread. simpl. lia.
Qed.

(** X17 at the empty store: the same message from self, twice. *)
Lemma X17_backup4_counts_every_message_witness :
  let m := text_message "A1" "111@s.whatsapp.net" true 10 "mine" in
  Forall (λ m, key_remoteJid m = "111@s.whatsapp.net") [m; m]
  ∧ ConversationStore.unread
      (fold_left (λ acc m, ConversationStore.ingestMessage_backup4 m acc) [m; m]
         ConversationStore.empty) "111@s.whatsapp.net" = Some 2%Z.
Proof.
  assert (Forall (λ m, key_remoteJid m = "111@s.whatsapp.net")
            [text_message "A1" "111@s.whatsapp.net" true 10 "mine";
             text_message "A1" "111@s.whatsapp.net" true 10 "mine"]) as Hf.
  { by repeat (apply Forall_cons; split; [done|]). }
  destruct (X17_backup4_counts_every_message _ ConversationStore.empty _ Hf) as [_ H].
  split; [exact Hf|]. by vm_compute.
Defined.

(** ** [formatPhoneNumber] *)

Module PhoneFacts.
Import Invariants.

Lemma split_append local domain :
  has_at local = false →
  Js.split_at_0 (local ++ String "@"%char domain) = local.
Proof.
  induction local as [|c local IH]; simpl.
  - done.
  - intros [Hc Hl]%orb_false_iff. rewrite Hc. by rewrite IH.
Qed.

Lemma split_no_at s : has_at (Js.split_at_0 s) = false.
Proof.
  induction s as [|c s IH]; simpl; [done|].
  destruct (Ascii.eqb c "@") eqn:E; simpl; [done|]. by rewrite E.
Qed.

Lemma split_id s : has_at s = false → Js.split_at_0 s = s.
Proof.
  induction s as [|c s IH]; simpl; [done|].
  intros [Hc Hl]%orb_false_iff. rewrite Hc. by rewrite IH.
Qed.

End PhoneFacts.

(** X18: [formatPhoneNumber] gives back the local part of an id: applied to
    [local@domain], where [local] holds no ['@'], it returns [local]; its
    result never holds an ['@']; an id without ['@'] is returned as it is;
    and applying it twice is the same as applying it once. *)
Theorem X18_formatPhoneNumber :
  (∀ local domain,
     Invariants.has_at local = false →
     formatPhoneNumber (local ++ "@" ++ domain) = local)
  ∧ (∀ jid, Invariants.has_at (formatPhoneNumber jid) = false)
  ∧ (∀ jid, Invariants.has_at jid = false → formatPhoneNumber jid = jid)
  ∧ (∀ jid, formatPhoneNumber (formatPhoneNumber jid) = formatPhoneNumber jid).
Proof.
  split; [|split; [|split]].
  - intros local domain H. rewrite ListFacts.formatPhoneNumber_local.
    by apply PhoneFacts.split_append.
  - intros jid. rewrite ListFacts.formatPhoneNumber_local. apply PhoneFacts.split_no_at.
  - intros jid H. rewrite ListFacts.formatPhoneNumber_local. by apply PhoneFacts.split_id.
  - intros jid. rewrite !ListFacts.formatPhoneNumber_local.
    apply PhoneFacts.split_id, PhoneFacts.split_no_at.
Qed.

(** X18 at a WhatsApp id. *)
Lemma X18_formatPhoneNumber_witness :
  Invariants.has_at "4915112345678" = false
  ∧ formatPhoneNumber "4915112345678@s.whatsapp.net" = "4915112345678".
Proof.
  split; [reflexivity|].
  exact (proj1 X18_formatPhoneNumber "4915112345678" "s.whatsapp.net" eq_refl).
Defined.

(** ** Sessions do not touch each other *)

Module IsolationFacts.
Import Session Invariants WorldFacts StepFacts.

Lemma on_store_other k f w k' :
  k ≠ k' → socks (on_store k f w) !! k' = socks w !! k'.
Proof.
  intros Hne. rewrite lookup_on_store. destruct (socks w !! k') as [[]|]; [|done].
  simpl. by rewrite decide_False.
Qed.

Lemma messages_update_other k l k' : ∀ w,
  k ≠ k' → socks (on_messages_update k l w) !! k' = socks w !! k'.
Proof.
  unfold on_messages_update.
  induction l as [|u l IH]; intros w Hne; simpl; [done|].
  rewrite IH by done. unfold on_message_update.
  destruct (socks w !! k); [|done]. destruct (String.eqb _ _); [done|].
  case_bool_decide; [|done]. destruct (Js.Map_has _ _); [|done].
  simpl. by apply on_store_other.
Qed.

Lemma create_other sid o w k x :
  socks w !! k = Some x → socks (createWhatsAppClient sid o w) !! k = Some x.
Proof.
  intros Hx. destruct (create_fields sid o w) as [H _].
  destruct o; destruct H as (_ & _ & -> & _); try done.
  by apply lookup_app_l_Some.
Qed.

Lemma size_le_sockets w : registry_wf w → size (clients w) ≤ length (socks w).
Proof.
  intros Hwf.
  assert (length (snd <$> map_to_list (clients w)) ≤ length (seq 0 (length (socks w))))
    as H.
  { apply submseteq_length, NoDup_submseteq.
    - apply NoDup_fmap_2_strong; [|apply NoDup_map_to_list].
      intros [sid1 k1] [sid2 k2] H1%elem_of_map_to_list H2%elem_of_map_to_list E.
      simpl in E. subst k2.
      destruct (Hwf sid1 k1 H1) as (x1 & Hx1 & E1).
      destruct (Hwf sid2 k1 H2) as (x2 & Hx2 & E2). congruence.
    - intros k ([sid k'] & -> & H%elem_of_map_to_list)%list_elem_of_fmap. simpl.
      destruct (Hwf sid k' H) as (x & Hx & _).
      apply elem_of_seq. split; [lia|]. simpl. by eapply lookup_lt_Some. }
  by rewrite length_fmap, length_map_to_list, length_seq in H.
Qed.

End IsolationFacts.

(** X21: in every run of the server, the number of sessions [GET /health]
    reports is at most the number of Protocol Clients constructed so far:
    no two session ids share a socket. *)
Theorem X21_health_sessions_bounded fmt steps dir :
  Http.health_sessions (run fmt steps (start dir))
  ≤ Session.constructed (run fmt steps (start dir)).
Proof.
  apply IsolationFacts.size_le_sockets, RegistryInvariants.registry_wf_run,
    RegistryInvariants.registry_wf_start.
Qed.

(** X22: a step writes to one socket at most: an event to the socket it
    belongs to, [getChatMessages] and [markChatAsRead] to the registered
    socket of their session; every other socket keeps its store, also when
    a new socket is constructed or a session is logged out. *)
Theorem X22_other_sockets_untouched fmt s w k x :
  Invariants.step_socket s w ≠ Some k →
  socks w !! k = Some x →
  socks (step fmt s w) !! k = Some x.
Proof.
  intros Hk Hx. destruct s; simpl in *.
  - destruct (socks w !! k0) as [y|] eqn:E.
    + destruct (StepFacts.connection_update_fields k0 update w y E) as [-> _]. done.
    + unfold Session.on_connection_update. by rewrite E.
  - unfold Session.on_messages_upsert. destruct (socks w !! k0); [|done].
    destruct (String.eqb type "notify"); [|done]. simpl.
    rewrite IsolationFacts.on_store_other; [done|congruence].
  - unfold Session.on_chats_set. rewrite IsolationFacts.on_store_other; [done|congruence].
  - unfold Session.on_chats_upsert.
    rewrite IsolationFacts.on_store_other; [done|congruence].
  - unfold Session.on_contacts_update.
    rewrite IsolationFacts.on_store_other; [done|congruence].
  - rewrite IsolationFacts.messages_update_other; [done|congruence].
  - unfold Session.on_creds_update. destruct (socks w !! k0); [|done].
    by rewrite FolderFacts.socks_write_file, FolderFacts.socks_ensure_folder.
  - unfold Session.fireTimer. destruct (timers w) as [|t rest]; [done|].
    unfold Session.reconnectCallback. simpl.
    destruct (sessionStatus w !! timer_session t) as [[]|]; try done.
    by apply IsolationFacts.create_other.
  - unfold Gateway.generateQR. destruct (clients w !! sessionId); simpl; [done|].
    destruct (Js.prototype_key sessionId); simpl; [done|].
    by apply IsolationFacts.create_other.
  - unfold Gateway.reconnectSession.
    destruct (Session.sessionExists sessionId w); simpl; [|done].
    by apply IsolationFacts.create_other.
  - unfold Gateway.getChatMessages, Session.client_store.
    destruct (clients w !! sessionId) as [k'|]; [|done].
    destruct (socks w !! k') as [y|]; [|done]. simpl.
    rewrite IsolationFacts.on_store_other; [done|congruence].
  - unfold Gateway.markChatAsRead, Session.client_store.
    destruct (clients w !! sessionId) as [k'|]; [|done].
    destruct (socks w !! k') as [y|]; [|done]. destruct read; simpl; [|done].
    rewrite IsolationFacts.on_store_other; [done|congruence].
  - unfold Gateway.logout. destruct (clients w !! sessionId); [destruct o|]; simpl;
      by rewrite ?FolderFacts.socks_remove_folder.
Qed.

(** X22 at a server with two sessions: messages for the socket of ["s2"]
    leave the store of ["s1"] as it was. *)
Lemma X22_other_sockets_untouched_witness :
  let w := fst (Gateway.generateQR "s2" SocketMade three_chats) in
  let s := ev_messages_upsert 1 "notify"
             [text_message "Z1" "111@s.whatsapp.net" false 1700040000 "other"] in
  ∃ x, socks w !! 0 = Some x
       ∧ Invariants.step_socket s w ≠ Some 0
       ∧ socks (step utc_24h s w) !! 0 = Some x.
Proof.
  assert (∃ x, socks (fst (Gateway.generateQR "s2" SocketMade three_chats)) !! 0 = Some x)
    as [x Hx] by (vm_compute; eauto).
  exists x. split; [exact Hx|]. split; [done|].
  exact (X22_other_sockets_untouched utc_24h
           (ev_messages_upsert 1 "notify"
              [text_message "Z1" "111@s.whatsapp.net" false 1700040000 "other"])
           _ 0 x ltac:(done) Hx).
Defined.
